(** * Feature resolution, baseline enrichment and plan deduplication

    A shallow embedding of [services/webFeaturesData.ts],
    [services/webFeaturesService.ts] and the deduplication pass of
    [analyzeUIDesign] in [services/geminiService.ts].

    Conventions of the embedding.
    - A JavaScript string is a [string]: a sequence of code units, each
      read as the code point of the same number (0 to 255); the titles,
      aliases, ids and pool names of the sources all lie in that range.
    - A plain object whose property order is observed ([Object.entries],
      [Object.values], [Object.keys]) is an association list in insertion
      order; assigning to a present key keeps its position.
    - A [Set] is the list of its elements in insertion order.
    - [undefined] is [None]. *)

From Stdlib Require Import List String Ascii Bool Arith NArith Lia Permutation.
Import ListNotations.
Open Scope string_scope.
Open Scope bool_scope.
Open Scope N_scope.
Open Scope nat_scope.
Open Scope list_scope.

(** ** String primitives of the host language *)
Module Js.

Definition code (c : ascii) : N := N_of_ascii c.

Definition isCode (n : N) (c : ascii) : bool := N.eqb (code c) n.

Definition between (lo hi : N) (c : ascii) : bool :=
  N.leb lo (code c) && N.leb (code c) hi.

(** Code points with a lower-case partner 32 places up: A-Z and the
    accented capitals U+00C0..U+00DE, the multiplication sign excepted. *)
Definition isUpper (c : ascii) : bool :=
  between 65 90 c || (between 192 222 c && negb (isCode 215 c)).

Definition lowerChar (c : ascii) : ascii :=
  if isUpper c then ascii_of_N (code c + 32) else c.

Fixpoint mapChars (f : ascii -> ascii) (s : string) : string :=
  match s with
  | EmptyString => EmptyString
  | String c s' => String (f c) (mapChars f s')
  end.

Fixpoint filterChars (keep : ascii -> bool) (s : string) : string :=
  match s with
  | EmptyString => EmptyString
  | String c s' =>
      if keep c then String c (filterChars keep s') else filterChars keep s'
  end.

(** [String.prototype.toLowerCase] *)
Definition toLowerCase (s : string) : string := mapChars lowerChar s.

(** The class [\s], which is also what [trim] removes: TAB, LF, VT, FF,
    CR, SPACE and NO-BREAK SPACE. *)
Definition isSpace (c : ascii) : bool :=
  between 9 13 c || isCode 32 c || isCode 160 c.

Definition isLowerAlpha (c : ascii) : bool := between 97 122 c.
Definition isDigit (c : ascii) : bool := between 48 57 c.

(** The class [\w]: [A-Za-z0-9_]. *)
Definition isWord (c : ascii) : bool :=
  between 65 90 c || isLowerAlpha c || isDigit c || isCode 95 c.

Fixpoint trimStart (s : string) : string :=
  match s with
  | EmptyString => EmptyString
  | String c s' => if isSpace c then trimStart s' else s
  end.

Fixpoint trimEnd (s : string) : string :=
  match s with
  | EmptyString => EmptyString
  | String c s' =>
      match trimEnd s' with
      | EmptyString => if isSpace c then EmptyString else String c EmptyString
      | t => String c t
      end
  end.

(** [String.prototype.trim] *)
Definition trim (s : string) : string := trimEnd (trimStart s).

(** [s.replace(/\s+/g, " ")]: every maximal run of white space becomes one
    space.  [inRun] records that the previous character was white space. *)
Fixpoint collapseSpaces (inRun : bool) (s : string) : string :=
  match s with
  | EmptyString => EmptyString
  | String c s' =>
      if isSpace c
      then if inRun then collapseSpaces true s'
           else String " "%char (collapseSpaces true s')
      else String c (collapseSpaces false s')
  end.

(** [s.includes(sub)] *)
Fixpoint includes (s sub : string) : bool :=
  if prefix sub s then true
  else match s with
       | EmptyString => false
       | String _ s' => includes s' sub
       end.

(** Truthiness of a string: only the empty string is falsy. *)
Definition truthy (s : string) : bool := negb (String.eqb s "").

(** Property assignment [o[k] = v] on an insertion-ordered object. *)
Fixpoint setProp {V : Type} (k : string) (v : V) (o : list (string * V))
  : list (string * V) :=
  match o with
  | [] => [(k, v)]
  | (k', v') :: o' =>
      if String.eqb k' k then (k, v) :: o' else (k', v') :: setProp k v o'
  end.

(** Own-property read. *)
Fixpoint getOwn {V : Type} (k : string) (o : list (string * V)) : option V :=
  match o with
  | [] => None
  | (k', v) :: o' => if String.eqb k' k then Some v else getOwn k o'
  end.

(** A property name that [Object.entries] would move to the front: the
    canonical decimal form of an array index. *)
Definition allDigits (s : string) : bool :=
  negb (String.eqb s "") && String.eqb (filterChars (fun c => negb (isDigit c)) s) "".

End Js.

(** ** The curated dataset ([webFeaturesData.ts]) *)
Module WebFeaturesData.

Inductive SupportValue :=
| VString (s : string)
| VNumber (n : nat)
| VBool (b : bool).

(** [status.baseline]: a boolean, a string, or anything else (absent). *)
Inductive BaselineField :=
| BaselineBool (b : bool)
| BaselineString (s : string)
| BaselineOther.

Record FeatureStatus := {
  baseline : BaselineField;
  support : list (string * SupportValue)
}.

(** The fields of a record that resolution, enrichment and deduplication
    read.  The descriptive metadata (description, group, tags, links,
    dates, ...) is copied through unchanged by the enricher and is not
    carried here. *)
Record WebFeatureRecord := {
  id : string;
  title : string;
  status : FeatureStatus;
  aliases : option (list string)
}.

Definition WEB_FEATURES_DATA : list (string * WebFeatureRecord) := [
  ("css.properties.display",
   {| id := "css.properties.display";
      title := "CSS Display Property";
      status := {| baseline := BaselineBool true;
                   support := [("chrome", VString "1"); ("firefox", VString "1"); ("safari", VString "1"); ("edge", VString "12")] |};
      aliases := Some ["display"; "css display"] |});
  ("css.properties.grid",
   {| id := "css.properties.grid";
      title := "CSS Grid Layout";
      status := {| baseline := BaselineBool true;
                   support := [("chrome", VString "57"); ("firefox", VString "52"); ("safari", VString "10.1"); ("edge", VString "16"); ("chrome_android", VString "57"); ("firefox_android", VString "52"); ("safari_ios", VString "10.3")] |};
      aliases := Some ["grid"; "grid layout"; "css grid"] |});
  ("css.properties.flexbox",
   {| id := "css.properties.flexbox";
      title := "CSS Flexbox";
      status := {| baseline := BaselineBool true;
                   support := [("chrome", VString "29"); ("firefox", VString "28"); ("safari", VString "9"); ("edge", VString "12"); ("chrome_android", VString "29"); ("firefox_android", VString "28"); ("safari_ios", VString "9")] |};
      aliases := Some ["flex"; "flexbox"; "flex layout"; "css flexbox"] |});
  ("css.properties.container-query",
   {| id := "css.properties.container-query";
      title := "CSS Container Queries";
      status := {| baseline := BaselineBool false;
                   support := [("chrome", VString "105"); ("firefox", VString "110"); ("safari", VString "16"); ("edge", VString "105")] |};
      aliases := Some ["container queries"; "container query"] |});
  ("css.properties.aspect-ratio",
   {| id := "css.properties.aspect-ratio";
      title := "CSS Aspect Ratio";
      status := {| baseline := BaselineString "low";
                   support := [("chrome", VString "88"); ("firefox", VString "89"); ("safari", VString "15"); ("edge", VString "88")] |};
      aliases := Some ["aspect ratio"; "aspect-ratio"] |});
  ("css.properties.position-sticky",
   {| id := "css.properties.position-sticky";
      title := "CSS position: sticky";
      status := {| baseline := BaselineBool true;
                   support := [("chrome", VString "56"); ("firefox", VString "32"); ("safari", VString "6.1"); ("edge", VString "16")] |};
      aliases := Some ["sticky"; "position sticky"] |});
  ("css.media.prefers-color-scheme",
   {| id := "css.media.prefers-color-scheme";
      title := "Dark Mode (prefers-color-scheme)";
      status := {| baseline := BaselineBool true;
                   support := [("chrome", VString "76"); ("firefox", VString "67"); ("safari", VString "12.1"); ("edge", VString "79"); ("chrome_android", VString "76"); ("firefox_android", VString "67"); ("safari_ios", VString "13")] |};
      aliases := Some ["dark mode"; "theming"; "prefers-color-scheme"] |});
  ("css.properties.color-scheme",
   {| id := "css.properties.color-scheme";
      title := "CSS color-scheme";
      status := {| baseline := BaselineBool true;
                   support := [("chrome", VString "81"); ("firefox", VString "96"); ("safari", VString "15"); ("edge", VString "81")] |};
      aliases := Some ["color scheme"; "color-scheme"] |});
  ("css.custom-properties",
   {| id := "css.custom-properties";
      title := "CSS Custom Properties (Variables)";
      status := {| baseline := BaselineBool true;
                   support := [("chrome", VString "49"); ("firefox", VString "31"); ("safari", VString "9.1"); ("edge", VString "15")] |};
      aliases := Some ["css variables"; "custom properties"; "variables"] |});
  ("css.at-rules.media",
   {| id := "css.at-rules.media";
      title := "CSS Media Queries";
      status := {| baseline := BaselineBool true;
                   support := [("chrome", VString "21"); ("firefox", VString "9"); ("safari", VString "6"); ("edge", VString "12")] |};
      aliases := Some ["media queries"; "responsive"; "@media"] |});
  ("css.functions.clamp",
   {| id := "css.functions.clamp";
      title := "CSS clamp()";
      status := {| baseline := BaselineBool true;
                   support := [("chrome", VString "79"); ("firefox", VString "75"); ("safari", VString "13.1"); ("edge", VString "79")] |};
      aliases := Some ["clamp"; "fluid typography"] |});
  ("css.selectors.has",
   {| id := "css.selectors.has";
      title := ":has() selector";
      status := {| baseline := BaselineString "low";
                   support := [("chrome", VString "105"); ("firefox", VString "121"); ("safari", VString "15.4"); ("edge", VString "105")] |};
      aliases := Some [":has"; "has selector"] |});
  ("css.selectors.is",
   {| id := "css.selectors.is";
      title := ":is() selector";
      status := {| baseline := BaselineBool true;
                   support := [("chrome", VString "88"); ("firefox", VString "78"); ("safari", VString "14"); ("edge", VString "88")] |};
      aliases := Some [":is"; "is selector"] |});
  ("css.selectors.where",
   {| id := "css.selectors.where";
      title := ":where() selector";
      status := {| baseline := BaselineBool true;
                   support := [("chrome", VString "88"); ("firefox", VString "78"); ("safari", VString "15.4"); ("edge", VString "88")] |};
      aliases := Some [":where"; "where selector"] |});
  ("html.elements.img.srcset",
   {| id := "html.elements.img.srcset";
      title := "Responsive Images: srcset";
      status := {| baseline := BaselineBool true;
                   support := [("chrome", VString "34"); ("firefox", VString "38"); ("safari", VString "9"); ("edge", VString "14")] |};
      aliases := Some ["responsive images"; "srcset"] |});
  ("html.elements.img.sizes",
   {| id := "html.elements.img.sizes";
      title := "Responsive Images: sizes";
      status := {| baseline := BaselineBool true;
                   support := [("chrome", VString "34"); ("firefox", VString "38"); ("safari", VString "9"); ("edge", VString "14")] |};
      aliases := Some ["sizes attribute"; "responsive images"] |});
  ("html.elements.dialog",
   {| id := "html.elements.dialog";
      title := "<dialog> element";
      status := {| baseline := BaselineBool true;
                   support := [("chrome", VBool true); ("firefox", VBool true); ("safari", VBool true); ("edge", VBool true); ("chrome_android", VBool true); ("firefox_android", VBool true); ("safari_ios", VString "15.4")] |};
      aliases := Some ["dialog"; "modal dialog"] |});
  ("html.attributes.popover",
   {| id := "html.attributes.popover";
      title := "Popover attribute";
      status := {| baseline := BaselineString "low";
                   support := [("chrome", VBool true); ("firefox", VBool false); ("safari", VBool true); ("edge", VBool true)] |};
      aliases := Some ["popover"; "popover attribute"] |});
  ("js.syntax.optional-chaining",
   {| id := "js.syntax.optional-chaining";
      title := "Optional chaining (?.)";
      status := {| baseline := BaselineBool true;
                   support := [("chrome", VString "80"); ("firefox", VString "72"); ("safari", VString "13.1"); ("edge", VString "80"); ("chrome_android", VString "80"); ("firefox_android", VString "79"); ("safari_ios", VString "13.4")] |};
      aliases := Some ["optional chaining"; "?."; "safe navigation"; "null conditional"] |});
  ("js.syntax.top-level-await",
   {| id := "js.syntax.top-level-await";
      title := "Top-level await";
      status := {| baseline := BaselineBool true;
                   support := [("chrome", VBool true); ("firefox", VBool true); ("safari", VBool true); ("edge", VBool true)] |};
      aliases := Some ["tla"; "top level await"] |});
  ("js.import-maps",
   {| id := "js.import-maps";
      title := "Import Maps";
      status := {| baseline := BaselineString "low";
                   support := [("chrome", VBool true); ("firefox", VBool false); ("safari", VBool true); ("edge", VBool true)] |};
      aliases := Some ["import maps"] |});
  ("api.fetch",
   {| id := "api.fetch";
      title := "Fetch API";
      status := {| baseline := BaselineBool true;
                   support := [("chrome", VBool true); ("firefox", VBool true); ("safari", VBool true); ("edge", VBool true)] |};
      aliases := Some ["fetch"] |});
  ("api.abort-controller",
   {| id := "api.abort-controller";
      title := "AbortController";
      status := {| baseline := BaselineBool true;
                   support := [("chrome", VBool true); ("firefox", VBool true); ("safari", VBool true); ("edge", VBool true)] |};
      aliases := Some ["abortcontroller"; "abort signal"] |});
  ("api.websocket",
   {| id := "api.websocket";
      title := "WebSocket";
      status := {| baseline := BaselineBool true;
                   support := [("chrome", VBool true); ("firefox", VBool true); ("safari", VBool true); ("edge", VBool true)] |};
      aliases := Some ["websocket"] |});
  ("api.indexeddb",
   {| id := "api.indexeddb";
      title := "IndexedDB";
      status := {| baseline := BaselineBool true;
                   support := [("chrome", VBool true); ("firefox", VBool true); ("safari", VBool true); ("edge", VBool true)] |};
      aliases := Some ["indexeddb"; "idb"] |});
  ("api.cache-storage",
   {| id := "api.cache-storage";
      title := "Cache Storage API";
      status := {| baseline := BaselineBool true;
                   support := [("chrome", VBool true); ("firefox", VBool true); ("safari", VBool true); ("edge", VBool true)] |};
      aliases := Some ["cache storage"; "caches"] |});
  ("api.service-worker",
   {| id := "api.service-worker";
      title := "Service Worker";
      status := {| baseline := BaselineBool true;
                   support := [("chrome", VBool true); ("firefox", VBool true); ("safari", VBool true); ("edge", VBool true); ("chrome_android", VBool true); ("firefox_android", VBool true); ("safari_ios", VString "11.1")] |};
      aliases := Some ["service worker"; "sw"] |});
  ("api.web-app-manifest",
   {| id := "api.web-app-manifest";
      title := "Web App Manifest";
      status := {| baseline := BaselineString "low";
                   support := [("chrome", VBool true); ("firefox", VBool false); ("safari", VBool true); ("edge", VBool true)] |};
      aliases := Some ["manifest.json"; "pwa manifest"] |});
  ("api.web-share",
   {| id := "api.web-share";
      title := "Web Share API";
      status := {| baseline := BaselineString "low";
                   support := [("chrome", VBool true); ("firefox", VBool false); ("safari", VBool true); ("edge", VBool true); ("chrome_android", VBool true); ("firefox_android", VBool false); ("safari_ios", VBool true)] |};
      aliases := Some ["navigator.share"; "web share"] |});
  ("api.file-system-access",
   {| id := "api.file-system-access";
      title := "File System Access API";
      status := {| baseline := BaselineString "low";
                   support := [("chrome", VBool true); ("firefox", VBool false); ("safari", VBool false); ("edge", VBool true)] |};
      aliases := Some ["file system access"; "showOpenFilePicker"] |});
  ("http.csp",
   {| id := "http.csp";
      title := "Content Security Policy (CSP)";
      status := {| baseline := BaselineBool true;
                   support := [("chrome", VBool true); ("firefox", VBool true); ("safari", VBool true); ("edge", VBool true)] |};
      aliases := Some ["csp"; "content security policy"] |});
  ("http.referrer-policy",
   {| id := "http.referrer-policy";
      title := "Referrer Policy";
      status := {| baseline := BaselineBool true;
                   support := [("chrome", VBool true); ("firefox", VBool true); ("safari", VBool true); ("edge", VBool true)] |};
      aliases := Some ["referrer policy"] |});
  ("api.webauthn",
   {| id := "api.webauthn";
      title := "WebAuthn (Passkeys)";
      status := {| baseline := BaselineBool true;
                   support := [("chrome", VBool true); ("firefox", VBool true); ("safari", VBool true); ("edge", VBool true)] |};
      aliases := Some ["webauthn"; "passkeys"] |});
  ("api.geolocation",
   {| id := "api.geolocation";
      title := "Geolocation API";
      status := {| baseline := BaselineBool true;
                   support := [("chrome", VBool true); ("firefox", VBool true); ("safari", VBool true); ("edge", VBool true); ("chrome_android", VBool true); ("firefox_android", VBool true); ("safari_ios", VBool true)] |};
      aliases := Some ["geolocation"] |});
  ("api.screen-wake-lock",
   {| id := "api.screen-wake-lock";
      title := "Screen Wake Lock API";
      status := {| baseline := BaselineString "low";
                   support := [("chrome", VBool true); ("firefox", VBool false); ("safari", VBool true); ("edge", VBool true)] |};
      aliases := Some ["wake lock"; "screen wakelock"] |});
  ("api.mediarecorder",
   {| id := "api.mediarecorder";
      title := "MediaRecorder";
      status := {| baseline := BaselineBool true;
                   support := [("chrome", VBool true); ("firefox", VBool true); ("safari", VBool true); ("edge", VBool true)] |};
      aliases := Some ["media recorder"; "record media"] |});
  ("api.webrtc",
   {| id := "api.webrtc";
      title := "WebRTC";
      status := {| baseline := BaselineBool true;
                   support := [("chrome", VBool true); ("firefox", VBool true); ("safari", VBool true); ("edge", VBool true); ("chrome_android", VBool true); ("firefox_android", VBool true); ("safari_ios", VString "11")] |};
      aliases := Some ["webrtc"; "rtc"] |});
  ("api.media-session",
   {| id := "api.media-session";
      title := "Media Session API";
      status := {| baseline := BaselineString "low";
                   support := [("chrome", VBool true); ("firefox", VBool false); ("safari", VBool true); ("edge", VBool true)] |};
      aliases := Some ["media session"] |});
  ("api.view-transitions",
   {| id := "api.view-transitions";
      title := "View Transitions API";
      status := {| baseline := BaselineString "low";
                   support := [("chrome", VBool true); ("firefox", VBool false); ("safari", VBool true); ("edge", VBool true)] |};
      aliases := Some ["view transitions"; "document.startViewTransition"] |});
  ("api.navigation",
   {| id := "api.navigation";
      title := "Navigation API";
      status := {| baseline := BaselineString "low";
                   support := [("chrome", VBool true); ("firefox", VBool false); ("safari", VBool true); ("edge", VBool true)] |};
      aliases := Some ["navigation api"; "app history"] |});
  ("js.sharedarraybuffer",
   {| id := "js.sharedarraybuffer";
      title := "SharedArrayBuffer & Atomics";
      status := {| baseline := BaselineString "low";
                   support := [("chrome", VBool true); ("firefox", VBool true); ("safari", VBool true); ("edge", VBool true)] |};
      aliases := Some ["sharedarraybuffer"; "atomics"] |});
  ("http.headers.coop",
   {| id := "http.headers.coop";
      title := "Cross-Origin-Opener-Policy (COOP)";
      status := {| baseline := BaselineString "low";
                   support := [("chrome", VBool true); ("firefox", VBool true); ("safari", VBool true); ("edge", VBool true)] |};
      aliases := Some ["coop"; "cross-origin-opener-policy"] |});
  ("http.headers.coep",
   {| id := "http.headers.coep";
      title := "Cross-Origin-Embedder-Policy (COEP)";
      status := {| baseline := BaselineString "low";
                   support := [("chrome", VBool true); ("firefox", VBool true); ("safari", VBool true); ("edge", VBool true)] |};
      aliases := Some ["coep"; "cross-origin-embedder-policy"] |});
  ("http.headers.corp",
   {| id := "http.headers.corp";
      title := "Cross-Origin-Resource-Policy (CORP)";
      status := {| baseline := BaselineBool true;
                   support := [("chrome", VBool true); ("firefox", VBool true); ("safari", VBool true); ("edge", VBool true)] |};
      aliases := Some ["corp"; "cross-origin-resource-policy"] |});
  ("api.clipboard",
   {| id := "api.clipboard";
      title := "Async Clipboard API";
      status := {| baseline := BaselineString "low";
                   support := [("chrome", VBool true); ("firefox", VBool true); ("safari", VBool true); ("edge", VBool true)] |};
      aliases := Some ["clipboard api"; "navigator.clipboard"; "clipboard-read"; "clipboard-write"] |});
  ("api.elementinternals",
   {| id := "api.elementinternals";
      title := "ElementInternals (Custom Elements)";
      status := {| baseline := BaselineString "low";
                   support := [("chrome", VBool true); ("firefox", VBool false); ("safari", VBool true); ("edge", VBool true)] |};
      aliases := Some ["element internals"; "form-associated custom elements"] |});
  ("api.resize-observer",
   {| id := "api.resize-observer";
      title := "ResizeObserver";
      status := {| baseline := BaselineBool true;
                   support := [("chrome", VBool true); ("firefox", VBool true); ("safari", VBool true); ("edge", VBool true)] |};
      aliases := Some ["resizeobserver"] |});
  ("api.webcodecs",
   {| id := "api.webcodecs";
      title := "WebCodecs";
      status := {| baseline := BaselineString "low";
                   support := [("chrome", VBool true); ("firefox", VBool false); ("safari", VBool true); ("edge", VBool true)] |};
      aliases := Some ["web codecs"] |});
  ("api.webgpu",
   {| id := "api.webgpu";
      title := "WebGPU";
      status := {| baseline := BaselineString "low";
                   support := [("chrome", VBool true); ("firefox", VBool false); ("safari", VBool true); ("edge", VBool true)] |};
      aliases := Some ["wgpu"; "gpu"] |});
  ("api.offscreen-canvas",
   {| id := "api.offscreen-canvas";
      title := "OffscreenCanvas";
      status := {| baseline := BaselineString "low";
                   support := [("chrome", VBool true); ("firefox", VBool true); ("safari", VBool false); ("edge", VBool true)] |};
      aliases := Some ["offscreen canvas"; "transferControlToOffscreen"] |})
].

End WebFeaturesData.

(** ** Alias resolution and baseline enrichment ([webFeaturesService.ts]) *)
Module WebFeaturesService.
Import WebFeaturesData.

(** What a property read of an identifier can yield: a string, or the
    function [Object] that every plain object inherits under the name
    [constructor]. *)
Inductive IdValue :=
| IdString (s : string)
| IdObjectConstructor.

Definition IdValue_eqb (a b : IdValue) : bool :=
  match a, b with
  | IdString x, IdString y => String.eqb x y
  | IdObjectConstructor, IdObjectConstructor => true
  | _, _ => false
  end.

Definition truthyId (v : IdValue) : bool :=
  match v with
  | IdString s => Js.truthy s
  | IdObjectConstructor => true
  end.

Record FeatureBaselineStatus := {
  status : string;
  support : list (string * bool);
  versions : list (string * SupportValue);
  title : option string;
  id : option string
}.

(** The tracked browsers; [Object.keys(BROWSER_SUPPORT_MAP)] is the list
    of first components.  A later revision of the service tracks
    [chrome_android], [firefox_android] and [safari_ios] as well; the loop
    over the keys is the same, and it is stated below for any key list. *)
Definition BROWSER_SUPPORT_MAP : list (string * string) := [
  ("chrome", "chrome");
  ("edge", "edge");
  ("firefox", "firefox");
  ("safari", "safari")
].

Record MockFeature := { mock_status : FeatureStatus }.

Definition mockFeatures : list (string * MockFeature) := [
  ("css.properties.display", {| mock_status := {| baseline := BaselineBool true;
        WebFeaturesData.support := [("chrome", VString "1"); ("firefox", VString "1"); ("safari", VString "1"); ("edge", VString "12")] |} |});
  ("css.properties.grid", {| mock_status := {| baseline := BaselineBool true;
        WebFeaturesData.support := [("chrome", VString "57"); ("firefox", VString "52"); ("safari", VString "10.1"); ("edge", VString "16")] |} |});
  ("css.properties.flexbox", {| mock_status := {| baseline := BaselineBool true;
        WebFeaturesData.support := [("chrome", VString "29"); ("firefox", VString "28"); ("safari", VString "9"); ("edge", VString "12")] |} |});
  ("css.properties.container-query", {| mock_status := {| baseline := BaselineBool false;
        WebFeaturesData.support := [("chrome", VString "105"); ("firefox", VString "110"); ("safari", VString "16"); ("edge", VString "105")] |} |});
  ("css.properties.aspect-ratio", {| mock_status := {| baseline := BaselineString "low";
        WebFeaturesData.support := [("chrome", VString "88"); ("firefox", VString "89"); ("safari", VString "15"); ("edge", VString "88")] |} |});
  ("css.media.prefers-color-scheme", {| mock_status := {| baseline := BaselineBool true;
        WebFeaturesData.support := [("chrome", VString "76"); ("firefox", VString "67"); ("safari", VString "12.1"); ("edge", VString "79")] |} |});
  ("css.properties.color-scheme", {| mock_status := {| baseline := BaselineBool true;
        WebFeaturesData.support := [("chrome", VString "81"); ("firefox", VString "96"); ("safari", VString "15"); ("edge", VString "81")] |} |});
  ("css.custom-properties", {| mock_status := {| baseline := BaselineBool true;
        WebFeaturesData.support := [("chrome", VString "49"); ("firefox", VString "31"); ("safari", VString "9.1"); ("edge", VString "15")] |} |})
].

Definition manualAlias : list (string * string) := [
  ("dark mode", "css.media.prefers-color-scheme");
  ("dark mode/theming", "css.media.prefers-color-scheme");
  ("theming", "css.media.prefers-color-scheme");
  ("theme", "css.media.prefers-color-scheme");
  ("prefers color scheme", "css.media.prefers-color-scheme");
  ("prefers-color-scheme", "css.media.prefers-color-scheme");
  ("color scheme", "css.properties.color-scheme");
  ("color-scheme", "css.properties.color-scheme");
  ("css variables", "css.custom-properties");
  ("variables", "css.custom-properties");
  ("custom properties", "css.custom-properties");
  ("css custom properties", "css.custom-properties");
  ("flexbox", "css.properties.flexbox");
  ("flexbox layout", "css.properties.flexbox");
  ("css flexbox", "css.properties.flexbox");
  ("flex layout", "css.properties.flexbox");
  ("grid", "css.properties.grid");
  ("grid layout", "css.properties.grid");
  ("css grid", "css.properties.grid");
  ("css grid layout", "css.properties.grid");
  ("fetch", "api.fetch");
  ("websocket", "api.websocket");
  ("websockets", "api.websocket");
  ("abortcontroller", "api.abort-controller");
  ("service worker", "api.service-worker");
  ("web app manifest", "api.web-app-manifest");
  ("manifest", "api.web-app-manifest");
  ("web share", "api.web-share");
  ("indexeddb", "api.indexeddb");
  ("idb", "api.indexeddb");
  ("caches", "api.cache-storage");
  ("csp", "http.csp");
  ("referrer policy", "http.referrer-policy");
  ("webauthn", "api.webauthn");
  ("optional chaining", "js.syntax.optional-chaining");
  ("import maps", "js.import-maps");
  ("view transitions", "api.view-transitions");
  ("navigation api", "api.navigation");
  ("sharedarraybuffer", "js.sharedarraybuffer");
  ("coop", "http.headers.coop");
  ("coep", "http.headers.coep");
  ("corp", "http.headers.corp");
  ("clipboard", "api.clipboard");
  ("clipboard api", "api.clipboard");
  ("navigator.clipboard", "api.clipboard");
  ("element internals", "api.elementinternals");
  ("elementinternals", "api.elementinternals");
  ("resizeobserver", "api.resize-observer");
  ("resize observer", "api.resize-observer");
  ("webcodecs", "api.webcodecs");
  ("web codecs", "api.webcodecs");
  ("webgpu", "api.webgpu");
  ("wgpu", "api.webgpu");
  ("gpu", "api.webgpu");
  ("offscreencanvas", "api.offscreen-canvas");
  ("offscreen canvas", "api.offscreen-canvas")
].

Definition normalize (s : string) : string :=
  Js.trim
    (Js.collapseSpaces false
       (Js.filterChars
          (fun c => Js.isLowerAlpha c || Js.isDigit c || Js.isSpace c
                    || Js.isCode 45 c)
          (Js.toLowerCase s))).

(** The body of the [forEach] over [Object.values(WEB_FEATURES_DATA)]. *)
Definition indexRecord (out : list (string * string)) (rec : WebFeatureRecord)
  : list (string * string) :=
  let out := Js.setProp (normalize (WebFeaturesData.title rec))
                        (WebFeaturesData.id rec) out in
  match aliases rec with
  | Some al =>
      fold_left (fun o a => Js.setProp (normalize a) (WebFeaturesData.id rec) o)
                al out
  | None => out
  end.

Definition buildAliasIndex (manual : list (string * string))
    (data : list (string * WebFeatureRecord)) : list (string * string) :=
  fold_left indexRecord (map snd data) manual.

Definition aliasIndex : list (string * string) :=
  buildAliasIndex manualAlias WEB_FEATURES_DATA.

(** [index[n]]: an own property, else what [Object.prototype] provides.
    A normalised name holds only [a-z0-9 -], and [constructor] is the one
    property of [Object.prototype] spelt that way. *)
Definition getProp (index : list (string * string)) (n : string)
  : option IdValue :=
  match Js.getOwn n index with
  | Some v => Some (IdString v)
  | None => if String.eqb n "constructor" then Some IdObjectConstructor else None
  end.

(** The [for ... of Object.entries(index)] scan. *)
Fixpoint fuzzyScan (n : string) (entries : list (string * string))
  : option IdValue :=
  match entries with
  | [] => None
  | (alias, i) :: rest =>
      if Js.includes n alias || Js.includes alias n
      then Some (IdString i)
      else fuzzyScan n rest
  end.

Definition resolveIn (index : list (string * string)) (name : string)
  : option IdValue :=
  let n := normalize name in
  match getProp index n with
  | Some v => if truthyId v then Some v else fuzzyScan n index
  | None => fuzzyScan n index
  end.

Definition resolveFeatureIdByName (name : string) : option IdValue :=
  resolveIn aliasIndex name.

(** The [status] derived from [feature.status.baseline]. *)
Definition statusBaseline (b : BaselineField) : string :=
  match b with
  | BaselineBool true => "high"
  | BaselineBool false => "low"
  | BaselineString s => s
  | BaselineOther => "unknown"
  end.

(** [support[browser]]: a version string or number counts as supported,
    a boolean is taken as it is, a missing value is unsupported. *)
Definition supportFlag (v : option SupportValue) : bool :=
  match v with
  | Some (VString _) => true
  | Some (VNumber _) => true
  | Some (VBool b) => b
  | None => false
  end.

(** The [forEach] over the browser keys, for the [support] object. *)
Definition supportOf (browsers : list (string * string))
    (sup : list (string * SupportValue)) : list (string * bool) :=
  fold_left
    (fun acc browser =>
       Js.setProp browser (supportFlag (Js.getOwn browser sup)) acc)
    (map fst browsers) [].

(** The same loop, for the [versions] object. *)
Definition versionsOf (browsers : list (string * string))
    (sup : list (string * SupportValue)) : list (string * SupportValue) :=
  fold_left
    (fun acc browser =>
       match Js.getOwn browser sup with
       | Some v => Js.setProp browser v acc
       | None => acc
       end)
    (map fst browsers) [].

Definition snapshot (browsers : list (string * string)) (st : FeatureStatus)
    (t i : option string) : FeatureBaselineStatus :=
  {| status := statusBaseline (baseline st);
     support := supportOf browsers (WebFeaturesData.support st);
     versions := versionsOf browsers (WebFeaturesData.support st);
     title := t;
     id := i |}.

(** The body of [getFeatureBaselineStatus], over the browser keys and the
    two tables: [data[featureId] || mock[featureId]], then the snapshot.
    A mock entry has neither [title] nor [id].  A property that only
    [Object.prototype] provides ([constructor], [toString], ...) is a
    value without a [status], for which the function returns [undefined]
    as it does for a missing one; so does the function [Object] used as a
    key, which reads the property named by its source text. *)
Definition baselineStatusIn (browsers : list (string * string))
    (data : list (string * WebFeatureRecord))
    (mock : list (string * MockFeature)) (featureId : IdValue)
  : option FeatureBaselineStatus :=
  match featureId with
  | IdObjectConstructor => None
  | IdString key =>
      match Js.getOwn key data with
      | Some rec =>
          Some (snapshot browsers (WebFeaturesData.status rec)
                  (Some (WebFeaturesData.title rec))
                  (Some (WebFeaturesData.id rec)))
      | None =>
          match Js.getOwn key mock with
          | Some m => Some (snapshot browsers (mock_status m) None None)
          | None => None
          end
      end
  end.

Definition getFeatureBaselineStatus (featureId : IdValue)
  : option FeatureBaselineStatus :=
  baselineStatusIn BROWSER_SUPPORT_MAP WEB_FEATURES_DATA mockFeatures featureId.

Definition getFeatureBaselineByName (featureName : string)
  : option FeatureBaselineStatus :=
  let i := resolveFeatureIdByName featureName in
  match i return option FeatureBaselineStatus with
  | Some i => if truthyId i then getFeatureBaselineStatus i else None
  | None => None
  end.

End WebFeaturesService.

(** ** The deduplication pass of [analyzeUIDesign] ([geminiService.ts]) *)
Module GeminiService.
Import WebFeaturesData WebFeaturesService.

(** [WebFeature] of [AnalysisDisplay.tsx]; [featureId] may be missing in
    what the model returns, which the pass allows for. *)
Record WebFeature := {
  featureId : option IdValue;
  name : string;
  baseline : option FeatureBaselineStatus
}.

Record AnalysisSection := {
  title : string;
  content : string;
  webFeatures : option (list WebFeature)
}.

Record PoolEntry := { pool_featureId : string; pool_name : string }.

Definition demoPool : list PoolEntry := [
  {| pool_featureId := "css.media.prefers-color-scheme"; pool_name := "Dark Mode (prefers-color-scheme)" |};
  {| pool_featureId := "css.properties.color-scheme"; pool_name := "CSS color-scheme" |};
  {| pool_featureId := "css.custom-properties"; pool_name := "CSS Variables (Custom Properties)" |};
  {| pool_featureId := "css.properties.grid"; pool_name := "CSS Grid Layout" |};
  {| pool_featureId := "css.properties.flexbox"; pool_name := "CSS Flexbox" |};
  {| pool_featureId := "css.properties.container-query"; pool_name := "CSS Container Queries" |};
  {| pool_featureId := "css.properties.aspect-ratio"; pool_name := "CSS Aspect Ratio" |};
  {| pool_featureId := "css.properties.display"; pool_name := "CSS Display Property" |};
  {| pool_featureId := "js.syntax.optional-chaining"; pool_name := "Optional chaining (?.)" |};
  {| pool_featureId := "js.syntax.top-level-await"; pool_name := "Top-level await" |};
  {| pool_featureId := "api.fetch"; pool_name := "Fetch API" |};
  {| pool_featureId := "api.service-worker"; pool_name := "Service Worker" |};
  {| pool_featureId := "html.elements.dialog"; pool_name := "<dialog> element" |};
  {| pool_featureId := "css.selectors.has"; pool_name := ":has() selector" |};
  {| pool_featureId := "api.view-transitions"; pool_name := "View Transitions API" |};
  {| pool_featureId := "css.functions.clamp"; pool_name := "CSS clamp()" |}
].

(** The two sets shared by all sections of one pass. *)
Record Used := {
  allUsedFeatureIds : list IdValue;
  allUsedFeatureNames : list string
}.

Definition noneUsed : Used :=
  {| allUsedFeatureIds := []; allUsedFeatureNames := [] |}.

Definition hasId (i : IdValue) (s : list IdValue) : bool :=
  existsb (IdValue_eqb i) s.

Definition hasName (n : string) (s : list string) : bool :=
  existsb (String.eqb n) s.

(** [Set.prototype.add] *)
Definition addId (i : IdValue) (s : list IdValue) : list IdValue :=
  if hasId i s then s else s ++ [i].

Definition addName (n : string) (s : list string) : list string :=
  if hasName n s then s else s ++ [n].

Definition truthyOpt (o : option IdValue) : bool :=
  match o with
  | Some i => truthyId i
  | None => false
  end.

(** The callback of [existing.map]. *)
Definition enrich (f : WebFeature) : WebFeature :=
  let byId :=
    match featureId f with
    | Some i => if truthyId i then getFeatureBaselineStatus i else None
    | None => None
    end in
  let byName :=
    match byId with
    | Some _ => None
    | None =>
        if Js.truthy (name f) then getFeatureBaselineByName (name f) else None
    end in
  let resolvedId :=
    if truthyOpt (featureId f) then featureId f
    else if Js.truthy (name f) then resolveFeatureIdByName (name f)
         else None in
  {| featureId := if truthyOpt resolvedId then resolvedId else featureId f;
     name := name f;
     baseline :=
       match baseline f with
       | Some b => Some b
       | None => match byId with
                 | Some b => Some b
                 | None => byName
                 end
       end |}.

(** [s.replace(/[^\w\s]/g, "")] *)
Definition stripPunctuation (s : string) : string :=
  Js.filterChars (fun c => Js.isWord c || Js.isSpace c) s.

Definition normalizedNameOf (s : string) : string :=
  Js.trim (Js.toLowerCase s).

Definition isVariation (normalizedName existingName : string) : bool :=
  Js.includes normalizedName existingName
  || Js.includes existingName normalizedName
  || Js.includes (stripPunctuation normalizedName)
                 (stripPunctuation existingName)
  || Js.includes (stripPunctuation existingName)
                 (stripPunctuation normalizedName).

(** [allUsedFeatureIds.add(i)] and [allUsedFeatureNames.add(n)] *)
Definition addUsedId (i : IdValue) (u : Used) : Used :=
  {| allUsedFeatureIds := addId i (allUsedFeatureIds u);
     allUsedFeatureNames := allUsedFeatureNames u |}.

Definition addUsedName (n : string) (u : Used) : Used :=
  {| allUsedFeatureIds := allUsedFeatureIds u;
     allUsedFeatureNames := addName n (allUsedFeatureNames u) |}.

(** The callback of [.filter]: the verdict and the sets after it. *)
Definition keepFeature (f : WebFeature) (u : Used) : bool * Used :=
  let normalizedName := normalizedNameOf (name f) in
  let isVariationOfExisting :=
    existsb (isVariation normalizedName) (allUsedFeatureNames u) in
  if match featureId f with
     | Some i => truthyId i && hasId i (allUsedFeatureIds u)
     | None => false
     end
  then (false, u)
  else if hasName normalizedName (allUsedFeatureNames u)
          || isVariationOfExisting
  then (false, u)
  else
    let u1 :=
      match featureId f with
      | Some i => if truthyId i then addUsedId i u else u
      | None => u
      end in
    (true, addUsedName normalizedName u1).

(** [.filter] over the enriched mentions, threading the sets. *)
Fixpoint filterFeatures (fs : list WebFeature) (u : Used)
  : list WebFeature * Used :=
  match fs with
  | [] => ([], u)
  | f :: rest =>
      let (keep, u1) := keepFeature f u in
      let (kept, u2) := filterFeatures rest u1 in
      (if keep then f :: kept else kept, u2)
  end.

Definition poolUsed (u : Used) (pick : PoolEntry) : bool :=
  hasId (IdString (pool_featureId pick)) (allUsedFeatureIds u)
  || hasName (normalizedNameOf (pool_name pick)) (allUsedFeatureNames u).

Definition poolAt (k : nat) : PoolEntry :=
  nth (k mod List.length demoPool) demoPool
      {| pool_featureId := ""; pool_name := "" |}.

(** The [do ... while] that looks for an unused pool entry, from
    [attempts] on; [more] is [demoPool.length - 1 - attempts], the number
    of further rounds the loop condition still allows. *)
Fixpoint pickLoop (u : Used) (base attempts more : nat) : PoolEntry :=
  let pick := poolAt (base + attempts) in
  match more with
  | O => pick
  | S more' =>
      if poolUsed u pick then pickLoop u base (S attempts) more' else pick
  end.

Definition filler (pick : PoolEntry) : WebFeature :=
  {| featureId := Some (IdString (pool_featureId pick));
     name := pool_name pick;
     baseline := getFeatureBaselineStatus (IdString (pool_featureId pick)) |}.

(** The two [add] calls for a chosen pool entry. *)
Definition markPick (pick : PoolEntry) (u : Used) : Used :=
  addUsedName (normalizedNameOf (pool_name pick))
              (addUsedId (IdString (pool_featureId pick)) u).

(** The [for (let i = 0; i < needed; i++)] loop; [todo] is [needed - i]. *)
Fixpoint fillLoop (idx i todo : nat) (u : Used)
  : list WebFeature * Used :=
  match todo with
  | O => ([], u)
  | S todo' =>
      let pick := pickLoop u (idx + i) 0 (List.length demoPool - 1) in
      if poolUsed u pick
      then fillLoop idx (S i) todo' u
      else
        let (fillers, u2) := fillLoop idx (S i) todo' (markPick pick u) in
        (filler pick :: fillers, u2)
  end.

(** The callback of [plan.forEach]. *)
Definition processSection (idx : nat) (section : AnalysisSection) (u : Used)
  : AnalysisSection * Used :=
  let existing :=
    match webFeatures section with
    | Some l => l
    | None => []
    end in
  let (enrichedExisting, u1) := filterFeatures (map enrich existing) u in
  let needed := 2 - List.length enrichedExisting in
  let (fillers, u2) := fillLoop idx 0 needed u1 in
  ({| title := title section;
      content := content section;
      webFeatures := Some (enrichedExisting ++ fillers) |}, u2).

Fixpoint processPlan (idx : nat) (plan : list AnalysisSection) (u : Used)
  : list AnalysisSection * Used :=
  match plan with
  | [] => ([], u)
  | section :: rest =>
      let (section', u1) := processSection idx section u in
      let (rest', u2) := processPlan (S idx) rest u1 in
      (section' :: rest', u2)
  end.

(** The plan that [analyzeUIDesign] returns for a parsed plan. *)
Definition deduplicate (plan : list AnalysisSection) : list AnalysisSection :=
  fst (processPlan 0 plan noneUsed).

End GeminiService.

(** ** Vocabulary of the statements *)
Import WebFeaturesData WebFeaturesService GeminiService.

Definition aliasesOf (rec : WebFeatureRecord) : list string :=
  match aliases rec with
  | Some al => al
  | None => []
  end.

(** The strings a dataset record declares for itself: its title, then its
    aliases. *)
Definition declaredNames (rec : WebFeatureRecord) : list string :=
  WebFeaturesData.title rec :: aliasesOf rec.

(** Every declaration [(string, id)] of the two shipped tables. *)
Definition declaredAliases : list (string * string) :=
  manualAlias
  ++ flat_map (fun rec => map (fun a => (a, WebFeaturesData.id rec))
                              (declaredNames rec))
              (map snd WEB_FEATURES_DATA).

(** The assignments [out[key] = id] that the dataset contributes to the
    index, in the order they are made. *)
Definition datasetWrites (data : list (string * WebFeatureRecord))
  : list (string * string) :=
  flat_map (fun rec => map (fun a => (normalize a, WebFeaturesData.id rec))
                           (declaredNames rec))
           (map snd data).

(** The value of the last assignment to [k] in a sequence of assignments. *)
Fixpoint lastWrite (k : string) (writes : list (string * string))
  : option string :=
  match writes with
  | [] => None
  | (k', v) :: rest =>
      match lastWrite k rest with
      | Some v' => Some v'
      | None => if String.eqb k' k then Some v else None
      end
  end.

(** One assignment [out[key] = id]. *)
Definition assign (o : list (string * string)) (w : string * string)
  : list (string * string) :=
  Js.setProp (fst w) (snd w) o.

Definition matchesFuzzily (n : string) (entry : string * string) : bool :=
  Js.includes n (fst entry) || Js.includes (fst entry) n.

(** The mentions of a section ([section.webFeatures || []]) and of a plan. *)
Definition features (s : AnalysisSection) : list WebFeature :=
  match webFeatures s with
  | Some l => l
  | None => []
  end.

Definition allFeatures (plan : list AnalysisSection) : list WebFeature :=
  flat_map features plan.

Definition mention (n : string) : WebFeature :=
  {| featureId := None; name := n; baseline := None |}.

Definition mentionWithId (i n : string) : WebFeature :=
  {| featureId := Some (IdString i); name := n; baseline := None |}.

Definition hasNormalizedName (n : string) (f : WebFeature) : bool :=
  String.eqb (normalizedNameOf (name f)) n.

(** The name under which a mention enters [allUsedFeatureNames], and the
    id (if truthy) under which it enters [allUsedFeatureIds]. *)
Definition keyName (f : WebFeature) : string := normalizedNameOf (name f).

Definition keyIds (f : WebFeature) : list IdValue :=
  match featureId f with
  | Some i => if truthyId i then [i] else []
  | None => []
  end.

Definition idTaken (f : WebFeature) (u : Used) : bool :=
  match featureId f with
  | Some i => truthyId i && hasId i (allUsedFeatureIds u)
  | None => false
  end.

(** Neither the id nor the exact normalised name of [f] is used in [u]. *)
Definition fresh (f : WebFeature) (u : Used) : Prop :=
  idTaken f u = false /\ hasName (keyName f) (allUsedFeatureNames u) = false.

(** The sets after [f] has been marked used. *)
Definition record (f : WebFeature) (u : Used) : Used :=
  addUsedName (keyName f)
    (match featureId f with
     | Some i => if truthyId i then addUsedId i u else u
     | None => u
     end).

(** [adds u l u']: starting from [u], the mentions of [l] were marked used
    one after the other, each fresh when its turn came, ending in [u']. *)
Inductive adds : Used -> list WebFeature -> Used -> Prop :=
| adds_nil (u : Used) : adds u [] u
| adds_cons (u : Used) (f : WebFeature) (l : list WebFeature) (u' : Used) :
    fresh f u -> adds (record f u) l u' -> adds u (f :: l) u'.

(** Two states with the same members. *)
Definition sameUsed (u v : Used) : Prop :=
  (forall i, hasId i (allUsedFeatureIds u) = hasId i (allUsedFeatureIds v))
  /\ (forall n, hasName n (allUsedFeatureNames u)
                = hasName n (allUsedFeatureNames v)).

(** The pool entry the [do ... while] settles on when started at [base]. *)
Definition firstFree (u : Used) (base : nat) : PoolEntry :=
  pickLoop u base 0 (List.length demoPool - 1).

Definition PoolEntry_eqb (p q : PoolEntry) : bool :=
  String.eqb (pool_featureId p) (pool_featureId q)
  && String.eqb (pool_name p) (pool_name q).

Definition sameIdAs (f g : WebFeature) : bool :=
  match featureId f, featureId g with
  | Some i, Some j => IdValue_eqb i j
  | _, _ => false
  end.

(** The ids and names of a plan's mentions, section by section. *)
Definition idsAndNames (plan : list AnalysisSection)
  : list (list (option IdValue * string)) :=
  map (fun s => map (fun f => (featureId f, name f)) (features s)) plan.

Definition sectionOf (t : string) (l : list WebFeature) : AnalysisSection :=
  {| title := t; content := ""; webFeatures := Some l |}.

(** Rewrites with every equation of the context, left to right. *)
Ltac rewrite_known :=
  repeat (cbn [truthyOpt featureId name baseline] in *;
          match goal with
          | H : ?x = _ |- context [?x] => rewrite H
          end).


(** ** Further vocabulary *)

(** [subseq l m]: [l] is [m] with some elements left out, order kept. *)
Inductive subseq {A : Type} : list A -> list A -> Prop :=
| subseq_nil : subseq [] []
| subseq_skip (x : A) (l m : list A) : subseq l m -> subseq l (x :: m)
| subseq_keep (x : A) (l m : list A) : subseq l m -> subseq (x :: l) (x :: m).

(** No pool entry is left for the fill. *)
Definition poolExhausted (u : Used) : bool := forallb (poolUsed u) demoPool.

(** A mention that the fill took from the pool. *)
Definition isFiller (f : WebFeature) : Prop :=
  exists p, In p demoPool /\ f = filler p.

(** The result of the whole pass: the plan and the two sets whose sizes
    the pass logs at its end. *)
Definition runPass (plan : list AnalysisSection)
  : list AnalysisSection * Used :=
  processPlan 0 plan noneUsed.

(** The shape of a normalised name: only [a-z], [0-9], hyphens and single
    spaces, none of them leading or trailing. *)
Fixpoint allChars (P : ascii -> bool) (s : string) : bool :=
  match s with
  | EmptyString => true
  | String c s' => P c && allChars P s'
  end.

Definition isPlain (c : ascii) : bool :=
  Js.isLowerAlpha c || Js.isDigit c || Js.isCode 45 c || Js.isCode 32 c.

Definition startsWithSpace (s : string) : bool :=
  match s with
  | String c _ => Js.isSpace c
  | EmptyString => false
  end.

Fixpoint endsWithSpace (s : string) : bool :=
  match s with
  | EmptyString => false
  | String c EmptyString => Js.isSpace c
  | String _ s' => endsWithSpace s'
  end.

Fixpoint noDoubleSpace (s : string) : bool :=
  match s with
  | EmptyString => true
  | String c s' => negb (Js.isSpace c && startsWithSpace s') && noDoubleSpace s'
  end.

Definition normalForm (s : string) : bool :=
  allChars isPlain s && noDoubleSpace s
  && negb (startsWithSpace s) && negb (endsWithSpace s).

(** The characters [normalize] lets through its first [replace]. *)
Definition isKept (c : ascii) : bool :=
  Js.isLowerAlpha c || Js.isDigit c || Js.isSpace c || Js.isCode 45 c.


(** The two sets after the first [k] pool entries were taken in order. *)
Definition poolTaken (k : nat) : Used :=
  fold_left (fun u p => markPick p u) (firstn k demoPool) noneUsed.

(** A section for which the model gave no mention. *)
Definition bare (s : AnalysisSection) : Prop := features s = [].

(** ** The display list ([AnalysisDisplay.tsx]) *)
Module AnalysisDisplay.
Import WebFeaturesData WebFeaturesService GeminiService.

(** The baseline that [buildEnrichedList] settles on for one mention: the
    snapshot of its id (the given one, else the one its name resolves to)
    when there is one, else the baseline the mention carries, else the
    snapshot by name. *)
Definition displayBaseline (f : WebFeature) : option FeatureBaselineStatus :=
  let baseline := baseline f in
  let id :=
    if truthyOpt (featureId f) then featureId f
    else resolveFeatureIdByName (name f) in
  let baseline :=
    match id with
    | Some i =>
        if truthyId i
        then match getFeatureBaselineStatus i with
             | Some b => Some b
             | None => baseline
             end
        else baseline
    | None => baseline
    end in
  match baseline with
  | Some b => Some b
  | None => getFeatureBaselineByName (name f)
  end.

Definition withBaseline (f : WebFeature) : WebFeature :=
  {| featureId := featureId f;
     name := name f;
     baseline := displayBaseline f |}.

(** The callback of [forEach], on the [Map] kept as the list of its
    entries in insertion order. *)
Definition addUnique (uniqueFeatures : list (string * WebFeature))
    (f : WebFeature) : list (string * WebFeature) :=
  if existsb (fun e => String.eqb (fst e) (name f)) uniqueFeatures
  then uniqueFeatures
  else uniqueFeatures ++ [(name f, withBaseline f)].

(** [given] is the optional argument [list]; without it the list of the
    section at [tabIndex] is used, and the empty list when there is none. *)
Definition buildEnrichedList (implementationPlan : list AnalysisSection)
    (tabIndex : nat) (given : option (list WebFeature)) : list WebFeature :=
  let src :=
    match given with
    | Some l => l
    | None =>
        match nth_error implementationPlan tabIndex with
        | Some section =>
            match webFeatures section with
            | Some l => l
            | None => []
            end
        | None => []
        end
    end in
  map snd (fold_left addUnique src []).

End AnalysisDisplay.

(** ** The badges ([BaselineBadges.tsx]) *)
Module BaselineBadges.
Import WebFeaturesData WebFeaturesService GeminiService.

(** [badgeConfig], reduced to the labels. *)
Definition badgeConfig : list (string * string) := [
  ("high", "Baseline");
  ("low", "Not Baseline");
  ("unknown", "Unknown")
].

(** The baseline the card shows: the one the mention carries, else the
    snapshot of its id when it has one, else the snapshot by name. *)
Definition cardBaseline (feature : WebFeature)
  : option FeatureBaselineStatus :=
  match baseline feature with
  | Some b => Some b
  | None =>
      match featureId feature with
      | Some i =>
          if truthyId i then getFeatureBaselineStatus i
          else getFeatureBaselineByName (name feature)
      | None => getFeatureBaselineByName (name feature)
      end
  end.

(** The status handed to [BaselineBadge]. *)
Definition cardStatus (feature : WebFeature) : string :=
  match cardBaseline feature with
  | Some b => status b
  | None => "unknown"
  end.

(** [badgeConfig[status].label], for a status that is an own key of
    [badgeConfig]; [None] when it is not. *)
Definition badgeLabel (st : string) : option string :=
  Js.getOwn st badgeConfig.

(** The heading of the card: [baseline?.title || feature.name]. *)
Definition cardTitle (feature : WebFeature) : string :=
  match cardBaseline feature with
  | Some b =>
      match WebFeaturesService.title b with
      | Some t => if Js.truthy t then t else name feature
      | None => name feature
      end
  | None => name feature
  end.

End BaselineBadges.

(** ** The text of the response ([analyzeUIDesign], before [JSON.parse]) *)
Module ResponseText.

(** What is left of [s] after the prefix [p], when [s] starts with it. *)
Fixpoint afterPrefix (p s : string) : option string :=
  match p, s with
  | EmptyString, _ => Some s
  | String a p', String b s' =>
      if Ascii.eqb a b then afterPrefix p' s' else None
  | String _ _, EmptyString => None
  end.

(** The scan for the second alternative of the pattern, a fence that
    ends the text: the text is copied up to the position where exactly
    the fence is left. *)
Fixpoint dropClosingFence (s : string) : string :=
  match s with
  | EmptyString => EmptyString
  | String c s' =>
      if String.eqb s "```" then EmptyString
      else String c (dropClosingFence s')
  end.

(** [result.response.text().trim()] *)
Definition jsonText (text : string) : string := Js.trim text.

(** [jsonText.replace(/^```json\s*|```$/g, "")]: the first alternative
    can match at the start only and takes the white space that follows the
    tag; the search for the second goes on behind it. *)
Definition cleanedJson (jsonText : string) : string :=
  match afterPrefix "```json" jsonText with
  | Some rest => dropClosingFence (Js.trimStart rest)
  | None => dropClosingFence jsonText
  end.

End ResponseText.

(** ** The mock fallback ([codeGenerationService.ts]) *)
Module CodeGenerationService.

(** [featureName.replace(/[^a-zA-Z0-9_]/g, "_")] *)
Definition sanitized (featureName : string) : string :=
  Js.mapChars (fun c => if Js.isWord c then c else "_"%char) featureName.

(** The name of the function in the mock code. *)
Definition mockFunctionName (featureName : string) : string :=
  String.append (sanitized featureName) "_fallback".

End CodeGenerationService.
Import AnalysisDisplay BaselineBadges ResponseText CodeGenerationService.


(** * Properties *)

(** ** The string primitives on examples *)

Example normalize_example :
  normalize "  CSS   Grid (Layout)!  " = "css grid layout".
Proof. vm_compute. reflexivity. Qed.

Example normalizedNameOf_example :
  normalizedNameOf "  Optional chaining (?.) " = "optional chaining (?.)".
Proof. vm_compute. reflexivity. Qed.

Example stripPunctuation_example :
  stripPunctuation "optional chaining (?.)" = "optional chaining ".
Proof. vm_compute. reflexivity. Qed.

Example includes_example :
  Js.includes "does-not-exist-xyz" "is" = true
  /\ Js.includes "is" "does-not-exist-xyz" = false.
Proof. split; vm_compute; reflexivity. Qed.

(** The scenario of the specification: [CSS Grid] resolves to
    [css.properties.grid], whose status is [high] with Chrome supported. *)
Example css_grid_scenario :
  resolveFeatureIdByName "CSS Grid" = Some (IdString "css.properties.grid")
  /\ option_map status (getFeatureBaselineByName "CSS Grid") = Some "high"
  /\ option_map (fun r => Js.getOwn "chrome" (support r))
                (getFeatureBaselineByName "CSS Grid") = Some (Some true).
Proof. repeat split; vm_compute; reflexivity. Qed.

(** ** Objects as insertion-ordered association lists *)
Section Objects.
Context {V : Type}.

Lemma getOwn_setProp (k k' : string) (v : V) (o : list (string * V)) :
  Js.getOwn k (Js.setProp k' v o)
  = if String.eqb k' k then Some v else Js.getOwn k o.
Proof.
  induction o as [|[k0 v0] o IH]; simpl.
  - destruct (String.eqb k' k); reflexivity.
  - destruct (String.eqb k0 k') eqn:E0; simpl.
    + apply String.eqb_eq in E0; subst k0.
      destruct (String.eqb k' k); reflexivity.
    + destruct (String.eqb k0 k) eqn:E1.
      * apply String.eqb_eq in E1; subst k0.
        rewrite String.eqb_sym, E0. reflexivity.
      * exact IH.
Qed.

Lemma getOwn_In (k : string) (v : V) (o : list (string * V)) :
  Js.getOwn k o = Some v -> In (k, v) o.
Proof.
  induction o as [|[k0 v0] o IH]; simpl; [discriminate|].
  destruct (String.eqb k0 k) eqn:E.
  - apply String.eqb_eq in E; subst. intros [= ->]. now left.
  - intros H. right. auto.
Qed.

Lemma getOwn_None_not_In (k : string) (o : list (string * V)) :
  Js.getOwn k o = None -> forall v, ~ In (k, v) o.
Proof.
  induction o as [|[k0 v0] o IH]; simpl; intros H v; [tauto|].
  destruct (String.eqb k0 k) eqn:E; [discriminate|].
  intros [[= -> ->]|Hin].
  - rewrite String.eqb_refl in E. discriminate.
  - exact (IH H v Hin).
Qed.

End Objects.


Lemma In_declared (p : string * string) (l : list (string * string)) :
  existsb (fun d => String.eqb (fst d) (fst p) && String.eqb (snd d) (snd p))
          l = true ->
  In p l.
Proof.
  intros H. apply existsb_exists in H. destruct H as [[a b] [Hin H]].
  apply andb_true_iff in H. destruct H as [Ha Hb].
  apply String.eqb_eq in Ha, Hb. simpl in Ha, Hb. destruct p; simpl in *.
  now subst.
Qed.

(** ** The alias index *)

Lemma fold_assign_map (f : string -> string * string) (l : list string)
    (o : list (string * string)) :
  fold_left (fun o a => Js.setProp (fst (f a)) (snd (f a)) o) l o
  = fold_left assign (map f l) o.
Proof.
  revert o. induction l as [|a l IH]; intros o; simpl; [reflexivity|].
  apply IH.
Qed.

Lemma indexRecord_writes (out : list (string * string))
    (rec : WebFeatureRecord) :
  indexRecord out rec
  = fold_left assign
      (map (fun a => (normalize a, WebFeaturesData.id rec))
           (declaredNames rec)) out.
Proof.
  unfold indexRecord, declaredNames, aliasesOf.
  destruct (aliases rec) as [al|]; simpl; [|reflexivity].
  exact (fold_assign_map (fun a => (normalize a, WebFeaturesData.id rec))
           al _).
Qed.

Lemma buildAliasIndex_writes (manual : list (string * string))
    (data : list (string * WebFeatureRecord)) :
  buildAliasIndex manual data = fold_left assign (datasetWrites data) manual.
Proof.
  unfold buildAliasIndex, datasetWrites.
  revert manual. induction (map snd data) as [|rec recs IH]; intros manual.
  - reflexivity.
  - cbn [fold_left flat_map]. rewrite fold_left_app, IH.
    now rewrite indexRecord_writes.
Qed.

Lemma getOwn_fold_assign (k : string) (writes o : list (string * string)) :
  Js.getOwn k (fold_left assign writes o)
  = match lastWrite k writes with
    | Some v => Some v
    | None => Js.getOwn k o
    end.
Proof.
  revert o. induction writes as [|[k' v] writes IH]; intros o; simpl.
  - reflexivity.
  - rewrite IH. destruct (lastWrite k writes); [reflexivity|].
    unfold assign; simpl. rewrite getOwn_setProp.
    destruct (String.eqb k' k); reflexivity.
Qed.

(** The values of the shipped index are all truthy, and none of its keys
    is an array index, so [Object.entries] lists it in insertion order. *)
Lemma aliasIndex_values_truthy :
  forallb (fun e => Js.truthy (snd e)) aliasIndex = true.
Proof. vm_compute. reflexivity. Qed.

Lemma aliasIndex_no_array_index :
  existsb (fun e => Js.allDigits (fst e)) aliasIndex = false.
Proof. vm_compute. reflexivity. Qed.

Lemma aliasIndex_empty_key :
  Js.getOwn "" aliasIndex = Some "js.syntax.optional-chaining".
Proof. vm_compute. reflexivity. Qed.

Lemma includes_empty (s : string) : Js.includes s "" = true.
Proof. destruct s; reflexivity. Qed.

Lemma fuzzyScan_none (n : string) (index : list (string * string)) :
  existsb (matchesFuzzily n) index = false -> fuzzyScan n index = None.
Proof.
  induction index as [|[alias i] index IH]; simpl; [reflexivity|].
  unfold matchesFuzzily at 1; simpl.
  destruct (Js.includes n alias || Js.includes alias n); simpl;
    [discriminate|exact IH].
Qed.

Lemma fuzzyScan_some (n : string) (index : list (string * string)) :
  existsb (matchesFuzzily n) index = true -> fuzzyScan n index <> None.
Proof.
  induction index as [|[alias i] index IH]; simpl; [discriminate|].
  unfold matchesFuzzily at 1; simpl.
  destruct (Js.includes n alias || Js.includes alias n); simpl;
    [discriminate|exact IH].
Qed.

(** An exact hit decides the result; the scan is not consulted. *)
Lemma resolveIn_exact (index : list (string * string)) (name v : string) :
  Js.getOwn (normalize name) index = Some v ->
  Js.truthy v = true ->
  resolveIn index name = Some (IdString v).
Proof.
  intros Hget Hv. unfold resolveIn, getProp.
  rewrite Hget. simpl. rewrite Hv. reflexivity.
Qed.

Lemma aliasIndex_truthy (k v : string) :
  Js.getOwn k aliasIndex = Some v -> Js.truthy v = true.
Proof.
  intros H. apply getOwn_In in H.
  pose proof aliasIndex_values_truthy as Hall.
  rewrite forallb_forall in Hall. exact (Hall _ H).
Qed.

(** On the shipped index the scan always finds an entry, the empty key
    being contained in every name: no input resolves to [undefined]. *)
Lemma resolveFeatureIdByName_defined (name : string) :
  resolveFeatureIdByName name <> None.
Proof.
  unfold resolveFeatureIdByName, resolveIn.
  assert (Hscan : fuzzyScan (normalize name) aliasIndex <> None).
  { apply fuzzyScan_some. apply existsb_exists.
    exists ("", "js.syntax.optional-chaining"). split.
    - apply getOwn_In. exact aliasIndex_empty_key.
    - unfold matchesFuzzily; simpl. now rewrite includes_empty. }
  destruct (getProp aliasIndex (normalize name)) as [v|]; [|exact Hscan].
  destruct (truthyId v); [discriminate|exact Hscan].
Qed.

(** The construction: the manual table is copied first and every dataset
    title and alias is then assigned over it, so for a key that the dataset
    writes the index holds the id of the last dataset record writing it. *)
Lemma buildAliasIndex_last_write (manual : list (string * string))
    (data : list (string * WebFeatureRecord)) (k v : string) :
  lastWrite k (datasetWrites data) = Some v ->
  Js.getOwn k (buildAliasIndex manual data) = Some v.
Proof.
  intros Hwritten.
  rewrite buildAliasIndex_writes, getOwn_fold_assign, Hwritten.
  reflexivity.
Qed.

Lemma lastWrite_In (k : string) (writes : list (string * string)) :
  In k (map fst writes) -> exists v, lastWrite k writes = Some v.
Proof.
  induction writes as [|[k' v] writes IH]; cbn [map In fst lastWrite].
  - intros [].
  - intros [E|Hin].
    + destruct (lastWrite k writes) as [v'|]; [now exists v'|].
      exists v. rewrite E, String.eqb_refl. reflexivity.
    + destruct (IH Hin) as [v' ->]. now exists v'.
Qed.

(** Where the two shipped tables write the same key they name the same
    id. *)
Lemma manual_agrees_with_dataset :
  forallb
    (fun e => match lastWrite (fst e) (datasetWrites WEB_FEATURES_DATA) with
              | Some w => String.eqb (snd e) w
              | None => true
              end) manualAlias = true.
Proof. vm_compute. reflexivity. Qed.

(** C8.  Manual entries on key collision.  For every key that the manual
    table has and that is also the normalised title or alias of a dataset
    record, the index maps the key to the manual table's id.  The dataset
    assignments come after the copy of the manual table, and the id the
    last of them leaves under such a key is, in the shipped tables, the
    manual one. *)
Theorem alias_index_manual_precedence (k m : string)
    (Hmanual : Js.getOwn k manualAlias = Some m)
    (Hdata : In k (map fst (datasetWrites WEB_FEATURES_DATA))) :
  Js.getOwn k aliasIndex = Some m
  /\ lastWrite k (datasetWrites WEB_FEATURES_DATA) = Some m.
Proof.
  destruct (lastWrite_In k _ Hdata) as [v Hv].
  pose proof manual_agrees_with_dataset as Hall.
  rewrite forallb_forall in Hall.
  specialize (Hall _ (getOwn_In _ _ _ Hmanual)).
  cbv beta iota delta [fst snd] in Hall.
  rewrite Hv in Hall. apply String.eqb_eq in Hall. subst v.
  split; [|exact Hv].
  exact (buildAliasIndex_last_write manualAlias WEB_FEATURES_DATA k m Hv).
Qed.

Lemma alias_index_manual_precedence_witness :
  Js.getOwn "css grid" manualAlias = Some "css.properties.grid"
  /\ In "css grid" (map fst (datasetWrites WEB_FEATURES_DATA))
  /\ Js.getOwn "css grid" aliasIndex = Some "css.properties.grid"
  /\ lastWrite "css grid" (datasetWrites WEB_FEATURES_DATA)
     = Some "css.properties.grid".
Proof.
  assert (H1 : Js.getOwn "css grid" manualAlias
               = Some "css.properties.grid") by (vm_compute; reflexivity).
  assert (H2 : In "css grid" (map fst (datasetWrites WEB_FEATURES_DATA))).
  { assert (E : existsb (String.eqb "css grid")
                     (map fst (datasetWrites WEB_FEATURES_DATA)) = true)
      by (vm_compute; reflexivity).
    apply existsb_exists in E. destruct E as [x [Hx Ex]].
    apply String.eqb_eq in Ex. rewrite Ex. exact Hx. }
  split; [exact H1|]. split; [exact H2|].
  exact (alias_index_manual_precedence "css grid" "css.properties.grid"
           H1 H2).
Defined.

(** ** The resolver *)

Lemma declaredAliases_resolve :
  forallb
    (fun d =>
       (String.eqb (fst d) "responsive images"
        && String.eqb (snd d) "html.elements.img.srcset")
       || match resolveFeatureIdByName (fst d) with
          | Some (IdString i) => String.eqb i (snd d)
          | _ => false
          end)
    declaredAliases = true.
Proof. vm_compute. reflexivity. Qed.

(** C3.  Alias round trip.  Every string declared by the manual table or
    by a dataset record (title or alias) resolves to the id that declared
    it, one declaration excepted: [responsive images] is declared by
    [html.elements.img.srcset] and again by [html.elements.img.sizes],
    whose later assignment is the one the index keeps.  Whenever the index
    has the normalised string as a key, that entry is the result. *)
Theorem alias_round_trip (a i : string)
    (Hdeclared : In (a, i) declaredAliases)
    (Hkept : (a, i) <> ("responsive images", "html.elements.img.srcset")) :
  resolveFeatureIdByName a = Some (IdString i)
  /\ (forall v, Js.getOwn (normalize a) aliasIndex = Some v ->
                resolveFeatureIdByName a = Some (IdString v)).
Proof.
  split.
  - pose proof declaredAliases_resolve as Hall.
    rewrite forallb_forall in Hall. specialize (Hall _ Hdeclared).
    cbv beta iota delta [fst snd] in Hall.
    apply orb_true_iff in Hall. destruct Hall as [Hex|Hres].
    + apply andb_true_iff in Hex. destruct Hex as [Ha Hi].
      apply String.eqb_eq in Ha, Hi. subst. now elim Hkept.
    + destruct (resolveFeatureIdByName a) as [[j|]|]; try discriminate.
      apply String.eqb_eq in Hres. now subst.
  - intros v Hv. apply resolveIn_exact; [exact Hv|].
    exact (aliasIndex_truthy _ _ Hv).
Qed.

Lemma alias_round_trip_witness :
  In ("?.", "js.syntax.optional-chaining") declaredAliases
  /\ ("?.", "js.syntax.optional-chaining")
     <> ("responsive images", "html.elements.img.srcset")
  /\ resolveFeatureIdByName "?." = Some (IdString "js.syntax.optional-chaining")
  /\ (forall v, Js.getOwn (normalize "?.") aliasIndex = Some v ->
                resolveFeatureIdByName "?." = Some (IdString v)).
Proof.
  assert (Hin : In ("?.", "js.syntax.optional-chaining") declaredAliases).
  { apply In_declared. vm_compute. reflexivity. }
  assert (Hne : ("?.", "js.syntax.optional-chaining")
                <> ("responsive images", "html.elements.img.srcset"))
    by discriminate.
  split; [exact Hin|]. split; [exact Hne|].
  exact (alias_round_trip "?." "js.syntax.optional-chaining" Hin Hne).
Defined.

(** C3, as stated, fails for the alias that two records declare. *)
Lemma alias_round_trip_counterexample :
  In ("responsive images", "html.elements.img.srcset") declaredAliases
  /\ resolveFeatureIdByName "responsive images"
     = Some (IdString "html.elements.img.sizes")
  /\ resolveFeatureIdByName "responsive images"
     <> Some (IdString "html.elements.img.srcset").
Proof.
  split; [|split].
  - apply In_declared. vm_compute. reflexivity.
  - vm_compute. reflexivity.
  - vm_compute. discriminate.
Qed.

(** For an index none of whose keys matches, the result is [undefined]:
    when the normalised name is not a key, is not [constructor] (which
    every object inherits) and neither contains nor is contained in a key.
    The shipped index has the empty key, which every name contains, so no
    input is in that case there. *)
Lemma resolveIn_unmatched
    (index : list (string * string)) (name : string)
    (Hkey : Js.getOwn (normalize name) index = None)
    (Hown : normalize name <> "constructor")
    (Hscan : existsb (matchesFuzzily (normalize name)) index = false) :
  resolveIn index name = None.
Proof.
  unfold resolveIn, getProp. rewrite Hkey.
  destruct (String.eqb (normalize name) "constructor") eqn:E.
  - apply String.eqb_eq in E. contradiction.
  - now apply fuzzyScan_none.
Qed.

(** The scan stops at the first entry, in the order of the index, whose
    key the name contains or is contained in. *)
Lemma fuzzyScan_first (n : string) (index : list (string * string)) :
  existsb (matchesFuzzily n) index = true ->
  exists before alias i after,
    index = before ++ (alias, i) :: after
    /\ existsb (matchesFuzzily n) before = false
    /\ matchesFuzzily n (alias, i) = true
    /\ fuzzyScan n index = Some (IdString i).
Proof.
  induction index as [|[alias i] index IH]; cbn [existsb fuzzyScan];
    [discriminate|].
  unfold matchesFuzzily at 1. cbn [fst].
  destruct (Js.includes n alias || Js.includes alias n) eqn:E; cbn [orb].
  - intros _. exists [], alias, i, index. repeat split. exact E.
  - intros H. destruct (IH H) as [before [a [j [after [-> [Hb [Hm Hs]]]]]]].
    exists ((alias, i) :: before), a, j, after. repeat split.
    + cbn [existsb]. unfold matchesFuzzily at 1. cbn [fst].
      rewrite E. exact Hb.
    + exact Hm.
    + exact Hs.
Qed.

(** C4.  A name without an exact alias.  With the shipped index such a
    name does not resolve to [undefined]: when the normalised name is not
    a key of the index and is not [constructor], the result is the id of
    the first entry of the index, in insertion order, whose key the
    normalised name contains or is contained in.  There always is one, the
    alias [?.] having left the empty key in the index. *)
Theorem resolve_unmatched_first_match (name : string)
    (Hkey : Js.getOwn (normalize name) aliasIndex = None)
    (Hown : normalize name <> "constructor") :
  exists before alias i after,
    aliasIndex = before ++ (alias, i) :: after
    /\ existsb (matchesFuzzily (normalize name)) before = false
    /\ matchesFuzzily (normalize name) (alias, i) = true
    /\ Js.truthy i = true
    /\ resolveFeatureIdByName name = Some (IdString i).
Proof.
  assert (Hany : existsb (matchesFuzzily (normalize name)) aliasIndex = true).
  { apply existsb_exists.
    exists ("", "js.syntax.optional-chaining"). split.
    - apply getOwn_In. exact aliasIndex_empty_key.
    - unfold matchesFuzzily. cbn [fst]. now rewrite includes_empty. }
  destruct (fuzzyScan_first _ _ Hany)
    as [before [alias [i [after [Hsplit [Hb [Hm Hs]]]]]]].
  exists before, alias, i, after.
  split; [exact Hsplit|]. split; [exact Hb|]. split; [exact Hm|]. split.
  - pose proof aliasIndex_values_truthy as Hall.
    rewrite forallb_forall in Hall.
    apply (Hall (alias, i)). rewrite Hsplit. apply in_or_app. right.
    now left.
  - unfold resolveFeatureIdByName, resolveIn, getProp. rewrite Hkey.
    destruct (String.eqb (normalize name) "constructor") eqn:E.
    + apply String.eqb_eq in E. contradiction.
    + exact Hs.
Qed.

Lemma resolve_unmatched_first_match_witness :
  Js.getOwn (normalize "does-not-exist-xyz") aliasIndex = None
  /\ normalize "does-not-exist-xyz" <> "constructor"
  /\ exists before alias i after,
       aliasIndex = before ++ (alias, i) :: after
       /\ existsb (matchesFuzzily (normalize "does-not-exist-xyz")) before
          = false
       /\ matchesFuzzily (normalize "does-not-exist-xyz") (alias, i) = true
       /\ Js.truthy i = true
       /\ resolveFeatureIdByName "does-not-exist-xyz" = Some (IdString i).
Proof.
  assert (H1 : Js.getOwn (normalize "does-not-exist-xyz") aliasIndex = None)
    by (vm_compute; reflexivity).
  assert (H2 : normalize "does-not-exist-xyz" <> "constructor")
    by (vm_compute; discriminate).
  split; [exact H1|]. split; [exact H2|].
  exact (resolve_unmatched_first_match "does-not-exist-xyz" H1 H2).
Defined.

(** Why [constructor] is set apart: it is no key of the index, yet the
    property read finds what every plain object inherits under that name,
    and that value, being truthy, is returned. *)
Example resolveIn_constructor_inherited :
  Js.getOwn (normalize "constructor") aliasIndex = None
  /\ resolveFeatureIdByName "constructor" = Some IdObjectConstructor.
Proof. split; vm_compute; reflexivity. Qed.

(** C4, as stated, fails at its own example: the normalised name is no
    key of the index, but it contains the key [is], which the alias [:is]
    of [css.selectors.is] leaves there. *)
Lemma resolve_unmatched_counterexample :
  Js.getOwn (normalize "does-not-exist-xyz") aliasIndex = None
  /\ Js.getOwn "is" aliasIndex = Some "css.selectors.is"
  /\ Js.includes (normalize "does-not-exist-xyz") "is" = true
  /\ resolveFeatureIdByName "does-not-exist-xyz"
     = Some (IdString "css.selectors.is")
  /\ resolveFeatureIdByName "does-not-exist-xyz" <> None.
Proof.
  repeat split; try (vm_compute; reflexivity).
  vm_compute; discriminate.
Qed.

(** The scan returns the first entry for an empty normalised name when
    the index has no empty key. *)
Lemma resolveIn_empty_first (alias i : string)
    (rest : list (string * string)) (name : string) :
  normalize name = "" ->
  Js.getOwn "" ((alias, i) :: rest) = None ->
  resolveIn ((alias, i) :: rest) name = Some (IdString i).
Proof.
  intros Hn Hkey. unfold resolveIn, getProp. rewrite Hn, Hkey.
  cbn [String.eqb fuzzyScan]. now rewrite includes_empty, orb_true_r.
Qed.

(** C9.  Inputs whose normalisation is empty do not resolve to
    [undefined]: the alias [?.] of [js.syntax.optional-chaining]
    normalises to the empty string, so the index has the empty key and the
    exact lookup returns that id before any scan. *)
Theorem resolve_empty_normalization (name : string)
    (Hempty : normalize name = "") :
  resolveFeatureIdByName name = Some (IdString "js.syntax.optional-chaining").
Proof.
  apply resolveIn_exact.
  - rewrite Hempty. exact aliasIndex_empty_key.
  - reflexivity.
Qed.

Lemma resolve_empty_normalization_witness :
  normalize "???" = ""
  /\ resolveFeatureIdByName "???"
     = Some (IdString "js.syntax.optional-chaining").
Proof.
  assert (H : normalize "???" = "") by (vm_compute; reflexivity).
  split; [exact H|]. exact (resolve_empty_normalization "???" H).
Defined.

(** C9, as stated, fails: the result is not the first entry of the
    index. *)
Lemma resolve_empty_counterexample :
  normalize "" = ""
  /\ hd_error aliasIndex = Some ("dark mode", "css.media.prefers-color-scheme")
  /\ resolveFeatureIdByName ""
     <> Some (IdString "css.media.prefers-color-scheme").
Proof.
  split; [|split]; vm_compute; try reflexivity. discriminate.
Qed.

(** ** The enricher *)

Lemma getOwn_fold_setProp {V : Type} (f : string -> V) (keys : list string)
    (acc : list (string * V)) (b : string) :
  Js.getOwn b (fold_left (fun acc k => Js.setProp k (f k) acc) keys acc)
  = if existsb (String.eqb b) keys then Some (f b) else Js.getOwn b acc.
Proof.
  revert acc. induction keys as [|k keys IH]; intros acc; simpl.
  - reflexivity.
  - rewrite IH, getOwn_setProp, (String.eqb_sym b k).
    destruct (String.eqb k b) eqn:E; simpl.
    + apply String.eqb_eq in E; subst k.
      destruct (existsb (String.eqb b) keys); reflexivity.
    + reflexivity.
Qed.

Lemma getOwn_supportOf (browsers : list (string * string))
    (sup : list (string * SupportValue)) (b : string) :
  In b (map fst browsers) ->
  Js.getOwn b (supportOf browsers sup)
  = Some (supportFlag (Js.getOwn b sup)).
Proof.
  intros Hin. unfold supportOf.
  rewrite (getOwn_fold_setProp (fun k => supportFlag (Js.getOwn k sup))).
  replace (existsb (String.eqb b) (map fst browsers)) with true;
    [reflexivity|].
  symmetry. apply existsb_exists. exists b. split; [exact Hin|].
  apply String.eqb_refl.
Qed.

Lemma dataset_status_values :
  forallb
    (fun e =>
       let s := statusBaseline
                  (WebFeaturesData.baseline (WebFeaturesData.status (snd e))) in
       String.eqb s "high" || String.eqb s "low" || String.eqb s "unknown")
    WEB_FEATURES_DATA = true.
Proof. vm_compute. reflexivity. Qed.

(** C7.  The enricher is defined on every key of the curated dataset.
    The status of the result follows the record's [baseline] field
    ([true] gives [high], [false] gives [low], a string is passed through,
    anything else gives [unknown]) and is one of [high], [low], [unknown];
    the [support] object has a boolean under every tracked browser key: a
    version string or number gives [true], a boolean is kept, a missing
    value gives [false]. *)
Theorem baseline_status_of_dataset_key (key : string) (rec : WebFeatureRecord)
    (Hkey : Js.getOwn key WEB_FEATURES_DATA = Some rec) :
  exists r,
    getFeatureBaselineStatus (IdString key) = Some r
    /\ match WebFeaturesData.baseline (WebFeaturesData.status rec) with
       | BaselineBool true => status r = "high"
       | BaselineBool false => status r = "low"
       | BaselineString s => status r = s
       | BaselineOther => status r = "unknown"
       end
    /\ (status r = "high" \/ status r = "low" \/ status r = "unknown")
    /\ forall browser, In browser (map fst BROWSER_SUPPORT_MAP) ->
         exists flag,
           Js.getOwn browser (support r) = Some flag
           /\ match Js.getOwn browser
                      (WebFeaturesData.support (WebFeaturesData.status rec))
              with
              | Some (VString _) => flag = true
              | Some (VNumber _) => flag = true
              | Some (VBool b) => flag = b
              | None => flag = false
              end.
Proof.
  unfold getFeatureBaselineStatus, baselineStatusIn. rewrite Hkey.
  eexists. split; [reflexivity|]. cbn [status support snapshot].
  split; [|split].
  - destruct (WebFeaturesData.baseline (WebFeaturesData.status rec))
      as [[|]|s|]; reflexivity.
  - pose proof dataset_status_values as Hall.
    rewrite forallb_forall in Hall.
    specialize (Hall _ (getOwn_In _ _ _ Hkey)).
    cbv beta zeta iota delta [snd] in Hall.
    apply orb_true_iff in Hall. destruct Hall as [Hall|Hall].
    + apply orb_true_iff in Hall. destruct Hall as [Hall|Hall];
        apply String.eqb_eq in Hall; auto.
    + apply String.eqb_eq in Hall; auto.
  - intros browser Hin. eexists. split.
    + apply getOwn_supportOf. exact Hin.
    + destruct (Js.getOwn browser _) as [[s|n|b]|]; reflexivity.
Qed.

Lemma baseline_status_of_dataset_key_witness :
  exists rec,
    Js.getOwn "html.attributes.popover" WEB_FEATURES_DATA = Some rec
    /\ exists r,
      getFeatureBaselineStatus (IdString "html.attributes.popover") = Some r
      /\ match WebFeaturesData.baseline (WebFeaturesData.status rec) with
         | BaselineBool true => status r = "high"
         | BaselineBool false => status r = "low"
         | BaselineString s => status r = s
         | BaselineOther => status r = "unknown"
         end
      /\ (status r = "high" \/ status r = "low" \/ status r = "unknown")
      /\ forall browser, In browser (map fst BROWSER_SUPPORT_MAP) ->
           exists flag,
             Js.getOwn browser (support r) = Some flag
             /\ match Js.getOwn browser
                        (WebFeaturesData.support (WebFeaturesData.status rec))
                with
                | Some (VString _) => flag = true
                | Some (VNumber _) => flag = true
                | Some (VBool b) => flag = b
                | None => flag = false
                end.
Proof.
  eexists. split; [vm_compute; reflexivity|].
  apply (baseline_status_of_dataset_key "html.attributes.popover").
  vm_compute; reflexivity.
Defined.

(** ** The deduplication pass: what it leaves alone *)

Lemma processSection_frame (idx : nat) (s : AnalysisSection) (u : Used) :
  title (fst (processSection idx s u)) = title s
  /\ content (fst (processSection idx s u)) = content s
  /\ webFeatures (fst (processSection idx s u)) <> None.
Proof.
  unfold processSection.
  destruct (filterFeatures _ u) as [kept u1].
  destruct (fillLoop idx 0 _ u1) as [fillers u2].
  cbn [fst title content webFeatures]. repeat split. discriminate.
Qed.

Lemma processPlan_frame (plan : list AnalysisSection) :
  forall idx u,
    Forall2 (fun s s' => title s' = title s /\ content s' = content s
                         /\ webFeatures s' <> None)
            plan (fst (processPlan idx plan u)).
Proof.
  induction plan as [|s rest IH]; intros idx u; cbn [processPlan].
  - constructor.
  - pose proof (processSection_frame idx s u) as Hs.
    destruct (processSection idx s u) as [s' u1].
    specialize (IH (S idx) u1).
    destruct (processPlan (S idx) rest u1) as [rest' u2].
    cbn [fst] in *. constructor; assumption.
Qed.

(** C10.  Frame of the pass.  The returned plan has the sections of the
    parsed plan, as many and in the same order, each with its title and
    content unchanged; only [webFeatures] is written, and it is always an
    array afterwards. *)
Theorem deduplicate_frame (plan : list AnalysisSection) :
  List.length (deduplicate plan) = List.length plan
  /\ map title (deduplicate plan) = map title plan
  /\ map content (deduplicate plan) = map content plan
  /\ Forall (fun s => webFeatures s <> None) (deduplicate plan).
Proof.
  unfold deduplicate.
  pose proof (processPlan_frame plan 0 noneUsed) as H.
  induction H as [|s s' l l' [Ht [Hc Hw]] _ IH]; cbn [List.length map].
  - repeat split. constructor.
  - destruct IH as [IHl [IHt [IHc IHw]]].
    rewrite IHl, IHt, IHc, Ht, Hc. repeat split. now constructor.
Qed.

(** ** The used sets *)

Lemma IdValue_eqb_eq (a b : IdValue) : IdValue_eqb a b = true <-> a = b.
Proof.
  destruct a as [x|], b as [y|]; simpl; split; intros H;
    try discriminate; try reflexivity.
  - apply String.eqb_eq in H. now subst.
  - injection H as ->. apply String.eqb_refl.
Qed.

Lemma IdValue_eqb_refl (a : IdValue) : IdValue_eqb a a = true.
Proof. now apply IdValue_eqb_eq. Qed.

Lemma IdValue_eqb_neq (a b : IdValue) : IdValue_eqb a b = false <-> a <> b.
Proof.
  split.
  - intros H ->. rewrite IdValue_eqb_refl in H. discriminate.
  - intros H. destruct (IdValue_eqb a b) eqn:E; [|reflexivity].
    apply IdValue_eqb_eq in E. contradiction.
Qed.

Lemma hasName_In (n : string) (s : list string) :
  hasName n s = true <-> In n s.
Proof.
  unfold hasName. rewrite existsb_exists. split.
  - intros [x [Hin Hx]]. apply String.eqb_eq in Hx. now subst.
  - intros Hin. exists n. split; [exact Hin|apply String.eqb_refl].
Qed.

Lemma hasId_In (i : IdValue) (s : list IdValue) :
  hasId i s = true <-> In i s.
Proof.
  unfold hasId. rewrite existsb_exists. split.
  - intros [x [Hin Hx]]. apply IdValue_eqb_eq in Hx. now subst.
  - intros Hin. exists i. split; [exact Hin|apply IdValue_eqb_refl].
Qed.

Lemma existsb_addName (P : string -> bool) (n : string) (s : list string) :
  existsb P (addName n s) = existsb P s || P n.
Proof.
  unfold addName. destruct (hasName n s) eqn:E.
  - destruct (P n) eqn:EP; [|now rewrite orb_false_r].
    rewrite orb_true_r. apply existsb_exists. exists n.
    split; [now apply hasName_In|exact EP].
  - rewrite existsb_app. simpl. now rewrite orb_false_r.
Qed.

Lemma hasName_addName (m n : string) (s : list string) :
  hasName m (addName n s) = hasName m s || String.eqb m n.
Proof. apply existsb_addName. Qed.

Lemma hasId_addId (j i : IdValue) (s : list IdValue) :
  hasId j (addId i s) = hasId j s || IdValue_eqb j i.
Proof.
  unfold addId. destruct (hasId i s) eqn:E.
  - destruct (IdValue_eqb j i) eqn:Ej; [|now rewrite orb_false_r].
    apply IdValue_eqb_eq in Ej. subst j. now rewrite E.
  - unfold hasId. rewrite existsb_app. simpl. now rewrite orb_false_r.
Qed.

Lemma existsb_same_members (P : string -> bool) (s t : list string) :
  (forall n, hasName n s = hasName n t) -> existsb P s = existsb P t.
Proof.
  intros H. apply eq_true_iff_eq. rewrite !existsb_exists.
  split; intros [x [Hin Hx]]; exists x; split; try exact Hx;
    apply hasName_In; [rewrite <- H|rewrite H]; now apply hasName_In.
Qed.

Lemma record_names (f : WebFeature) (u : Used) (n : string) :
  hasName n (allUsedFeatureNames (record f u))
  = hasName n (allUsedFeatureNames u) || String.eqb n (keyName f).
Proof.
  unfold record, addUsedName. cbn [allUsedFeatureNames].
  rewrite hasName_addName.
  destruct (featureId f) as [i|]; [destruct (truthyId i)|]; reflexivity.
Qed.

Lemma record_ids (f : WebFeature) (u : Used) (i : IdValue) :
  hasId i (allUsedFeatureIds (record f u))
  = hasId i (allUsedFeatureIds u) || existsb (IdValue_eqb i) (keyIds f).
Proof.
  unfold record, addUsedName, keyIds. cbn [allUsedFeatureIds].
  destruct (featureId f) as [j|]; [destruct (truthyId j)|];
    cbn [addUsedId allUsedFeatureIds existsb];
    rewrite ?hasId_addId, ?orb_false_r; reflexivity.
Qed.

Lemma idTaken_keyIds (f : WebFeature) (u : Used) :
  idTaken f u = existsb (fun i => hasId i (allUsedFeatureIds u)) (keyIds f).
Proof.
  unfold idTaken, keyIds.
  destruct (featureId f) as [i|]; [destruct (truthyId i)|]; simpl;
    rewrite ?orb_false_r; reflexivity.
Qed.

(** ** Runs of fresh additions *)

Lemma adds_app (u u1 u2 : Used) (l1 l2 : list WebFeature) :
  adds u l1 u1 -> adds u1 l2 u2 -> adds u (l1 ++ l2) u2.
Proof.
  induction 1 as [u|u f l u' Hf _ IH]; intros H2; simpl.
  - exact H2.
  - constructor; [exact Hf|exact (IH H2)].
Qed.

Lemma adds_names (u u' : Used) (l : list WebFeature) :
  adds u l u' ->
  forall n, hasName n (allUsedFeatureNames u')
            = hasName n (allUsedFeatureNames u)
              || existsb (String.eqb n) (map keyName l).
Proof.
  induction 1 as [u|u f l u' Hf _ IH]; intros n; simpl.
  - now rewrite orb_false_r.
  - rewrite IH, record_names, orb_assoc. reflexivity.
Qed.

Lemma adds_ids (u u' : Used) (l : list WebFeature) :
  adds u l u' ->
  forall i, hasId i (allUsedFeatureIds u')
            = hasId i (allUsedFeatureIds u)
              || existsb (IdValue_eqb i) (flat_map keyIds l).
Proof.
  induction 1 as [u|u f l u' Hf _ IH]; intros i; simpl.
  - now rewrite orb_false_r.
  - rewrite IH, record_ids, existsb_app, orb_assoc. reflexivity.
Qed.

Lemma adds_names_new (u u' : Used) (l : list WebFeature) :
  adds u l u' ->
  (forall n, In n (map keyName l) ->
             hasName n (allUsedFeatureNames u) = false)
  /\ NoDup (map keyName l).
Proof.
  induction 1 as [u|u f l u' [_ Hf] _ [IHnew IHnd]]; simpl.
  - split; [intros n []|constructor].
  - assert (Hl : forall n, In n (map keyName l) ->
                   hasName n (allUsedFeatureNames u) = false
                   /\ n <> keyName f).
    { intros n Hn. specialize (IHnew n Hn). rewrite record_names in IHnew.
      apply orb_false_iff in IHnew. destruct IHnew as [H1 H2].
      split; [exact H1|]. intros ->. rewrite String.eqb_refl in H2.
      discriminate. }
    split.
    + intros n [<-|Hn]; [exact Hf|exact (proj1 (Hl n Hn))].
    + constructor; [|exact IHnd].
      intros Hin. exact (proj2 (Hl _ Hin) eq_refl).
Qed.

Lemma adds_ids_new (u u' : Used) (l : list WebFeature) :
  adds u l u' ->
  (forall i, In i (flat_map keyIds l) ->
             hasId i (allUsedFeatureIds u) = false)
  /\ NoDup (flat_map keyIds l).
Proof.
  induction 1 as [u|u f l u' [Hf _] _ [IHnew IHnd]]; simpl.
  - split; [intros n []|constructor].
  - assert (Hl : forall i, In i (flat_map keyIds l) ->
                   hasId i (allUsedFeatureIds u) = false
                   /\ ~ In i (keyIds f)).
    { intros i Hi. specialize (IHnew i Hi). rewrite record_ids in IHnew.
      apply orb_false_iff in IHnew. destruct IHnew as [H1 H2].
      split; [exact H1|]. intros Hin.
      assert (existsb (IdValue_eqb i) (keyIds f) = true)
        by (apply existsb_exists; exists i; split;
            [exact Hin|apply IdValue_eqb_refl]).
      congruence. }
    assert (Hk : forall i, In i (keyIds f) ->
                   hasId i (allUsedFeatureIds u) = false).
    { intros i Hi. rewrite idTaken_keyIds in Hf.
      destruct (hasId i (allUsedFeatureIds u)) eqn:E; [|reflexivity].
      assert (existsb (fun i => hasId i (allUsedFeatureIds u)) (keyIds f)
              = true)
        by (apply existsb_exists; exists i; split; assumption).
      congruence. }
    split.
    + intros i Hi. apply in_app_or in Hi.
      destruct Hi as [Hi|Hi]; [exact (Hk i Hi)|exact (proj1 (Hl i Hi))].
    + apply NoDup_app; [| exact IHnd |].
      * unfold keyIds. destruct (featureId f) as [j|];
          [destruct (truthyId j)|]; repeat constructor; simpl; tauto.
      * intros i Hi Hi'. exact (proj2 (Hl i Hi') Hi).
Qed.

(** ** The filter *)

Lemma keepFeature_cases (f : WebFeature) (u : Used) :
  keepFeature f u = (false, u)
  \/ (keepFeature f u = (true, record f u)
      /\ fresh f u
      /\ existsb (isVariation (keyName f)) (allUsedFeatureNames u) = false).
Proof.
  unfold keepFeature, fresh, idTaken, record, keyName.
  destruct (match featureId f with
            | Some i => truthyId i && hasId i (allUsedFeatureIds u)
            | None => false
            end); [now left|].
  destruct (hasName _ _) eqn:Hn; [now left|].
  destruct (existsb _ _) eqn:Hv; [now left|].
  right. cbn [orb]. repeat split.
Qed.

Lemma filterFeatures_adds (fs : list WebFeature) :
  forall u kept u', filterFeatures fs u = (kept, u') -> adds u kept u'.
Proof.
  induction fs as [|f fs IH]; intros u kept u' H; cbn [filterFeatures] in H.
  - injection H as <- <-. constructor.
  - destruct (keepFeature_cases f u) as [Hk|[Hk [Hf _]]]; rewrite Hk in H;
      destruct (filterFeatures fs _) as [kept' u2] eqn:E;
      injection H as <- <-.
    + exact (IH _ _ _ E).
    + constructor; [exact Hf|exact (IH _ _ _ E)].
Qed.

Lemma filterFeatures_sublist (fs : list WebFeature) :
  forall u kept u', filterFeatures fs u = (kept, u') ->
                    forall f, In f kept -> In f fs.
Proof.
  induction fs as [|f fs IH]; intros u kept u' H g Hg;
    cbn [filterFeatures] in H.
  - injection H as <- <-. exact Hg.
  - destruct (keepFeature f u) as [[|] u1];
      destruct (filterFeatures fs u1) as [kept' u2] eqn:E;
      injection H as <- <-.
    + destruct Hg as [->|Hg]; [now left|right; exact (IH _ _ _ E _ Hg)].
    + right. exact (IH _ _ _ E _ Hg).
Qed.

(** A kept mention is no variation of any name used before the filter
    started. *)
Lemma filterFeatures_no_variation (fs : list WebFeature) :
  forall u kept u', filterFeatures fs u = (kept, u') ->
    forall f e, In f kept ->
                hasName e (allUsedFeatureNames u) = true ->
                isVariation (keyName f) e = false.
Proof.
  induction fs as [|f fs IH]; intros u kept u' H g e Hg He;
    cbn [filterFeatures] in H.
  - injection H as <- <-. destruct Hg.
  - destruct (keepFeature_cases f u) as [Hk|[Hk [Hf Hv]]]; rewrite Hk in H;
      destruct (filterFeatures fs _) as [kept' u2] eqn:E;
      injection H as <- <-.
    + exact (IH _ _ _ E _ _ Hg He).
    + destruct Hg as [<-|Hg].
      * destruct (isVariation (keyName f) e) eqn:Ev; [|reflexivity].
        assert (existsb (isVariation (keyName f)) (allUsedFeatureNames u)
                = true)
          by (apply existsb_exists; exists e; split;
              [now apply hasName_In|exact Ev]).
        congruence.
      * apply (IH _ _ _ E _ _ Hg). rewrite record_names, He. reflexivity.
Qed.

Lemma filterFeatures_app (fs gs : list WebFeature) :
  forall u, filterFeatures (fs ++ gs) u
            = let (k1, u1) := filterFeatures fs u in
              let (k2, u2) := filterFeatures gs u1 in
              (k1 ++ k2, u2).
Proof.
  induction fs as [|f fs IH]; intros u; cbn [filterFeatures app].
  - destruct (filterFeatures gs u); reflexivity.
  - destruct (keepFeature f u) as [b u1]. rewrite IH.
    destruct (filterFeatures fs u1) as [k1 u2].
    destruct (filterFeatures gs u2) as [k2 u3].
    destruct b; reflexivity.
Qed.

(** Filtering what the filter kept, from the same sets, keeps it all. *)
Lemma filterFeatures_kept_again (fs : list WebFeature) :
  forall u kept u', filterFeatures fs u = (kept, u') ->
                    filterFeatures kept u = (kept, u').
Proof.
  induction fs as [|f fs IH]; intros u kept u' H; cbn [filterFeatures] in H.
  - injection H as <- <-. reflexivity.
  - destruct (keepFeature_cases f u) as [Hk|[Hk _]]; rewrite Hk in H;
      destruct (filterFeatures fs _) as [kept' u2] eqn:E;
      injection H as <- <-.
    + exact (IH _ _ _ E).
    + cbn [filterFeatures]. rewrite Hk, (IH _ _ _ E). reflexivity.
Qed.

(** ** The fallback pool *)

Lemma pool_ids_truthy :
  forallb (fun p => Js.truthy (pool_featureId p)) demoPool = true.
Proof. vm_compute. reflexivity. Qed.

Lemma pool_distinct :
  forallb
    (fun p =>
       forallb
         (fun q =>
            PoolEntry_eqb p q
            || negb (String.eqb (pool_featureId p) (pool_featureId q)
                     || String.eqb (normalizedNameOf (pool_name p))
                                   (normalizedNameOf (pool_name q))))
         demoPool)
    demoPool = true.
Proof. vm_compute. reflexivity. Qed.

Lemma pool_enrich_fixed :
  forall p, In p demoPool -> enrich (filler p) = filler p.
Proof.
  intros p Hin. unfold demoPool in Hin. cbn [In] in Hin.
  repeat (destruct Hin as [<-|Hin]; [vm_compute; reflexivity|]).
  destruct Hin.
Qed.

Lemma PoolEntry_eqb_eq (p q : PoolEntry) : PoolEntry_eqb p q = true -> p = q.
Proof.
  unfold PoolEntry_eqb. intros H. apply andb_true_iff in H.
  destruct H as [H1 H2]. apply String.eqb_eq in H1, H2.
  destruct p, q; simpl in *. now subst.
Qed.

Lemma pool_injective (p q : PoolEntry) :
  In p demoPool -> In q demoPool -> p <> q ->
  pool_featureId p <> pool_featureId q
  /\ normalizedNameOf (pool_name p) <> normalizedNameOf (pool_name q).
Proof.
  intros Hp Hq Hne. pose proof pool_distinct as H.
  rewrite forallb_forall in H. specialize (H p Hp).
  rewrite forallb_forall in H. specialize (H q Hq).
  apply orb_true_iff in H. destruct H as [H|H].
  - apply PoolEntry_eqb_eq in H. contradiction.
  - apply negb_true_iff, orb_false_iff in H. destruct H as [H1 H2].
    split; intros E; rewrite E, String.eqb_refl in *; discriminate.
Qed.

Lemma pool_truthy (p : PoolEntry) :
  In p demoPool -> Js.truthy (pool_featureId p) = true.
Proof.
  intros Hp. pose proof pool_ids_truthy as H.
  rewrite forallb_forall in H. exact (H p Hp).
Qed.

Lemma poolAt_In (k : nat) : In (poolAt k) demoPool.
Proof.
  unfold poolAt. apply nth_In. apply Nat.mod_upper_bound.
  vm_compute. discriminate.
Qed.

Lemma poolAt_periodic (k k' : nat) :
  k mod 16 = k' mod 16 -> poolAt k = poolAt k'.
Proof.
  unfold poolAt. change (List.length demoPool) with 16. now intros ->.
Qed.

(** Every pool entry is reached within sixteen steps from any base. *)
Lemma poolAt_reach (base m : nat) :
  exists j, j < 16 /\ poolAt (base + j) = poolAt m.
Proof.
  pose proof (Nat.div_mod_eq base 16) as Hb.
  pose proof (Nat.mod_upper_bound base 16 ltac:(discriminate)) as Hb'.
  pose proof (Nat.mod_upper_bound m 16 ltac:(discriminate)) as Hm'.
  destruct (le_lt_dec (base mod 16) (m mod 16)) as [Hle|Hlt].
  - exists (m mod 16 - base mod 16). split; [lia|].
    apply poolAt_periodic. symmetry.
    apply (Nat.mod_unique _ 16 (base / 16)); [exact Hm'|lia].
  - exists (16 + m mod 16 - base mod 16). split; [lia|].
    apply poolAt_periodic. symmetry.
    apply (Nat.mod_unique _ 16 (S (base / 16))); [exact Hm'|lia].
Qed.

Lemma fresh_filler (p : PoolEntry) (u : Used) :
  In p demoPool -> (fresh (filler p) u <-> poolUsed u p = false).
Proof.
  intros Hp. unfold fresh, idTaken, poolUsed, keyName, filler.
  cbn [featureId name truthyId]. rewrite (pool_truthy p Hp). cbn [andb].
  rewrite orb_false_iff. reflexivity.
Qed.

Lemma record_filler (p : PoolEntry) (u : Used) :
  In p demoPool -> record (filler p) u = markPick p u.
Proof.
  intros Hp. unfold record, markPick, keyName, filler.
  cbn [featureId name truthyId]. now rewrite (pool_truthy p Hp).
Qed.

(** ** The search for an unused pool entry *)

Lemma pickLoop_spec (u : Used) (base more : nat) :
  forall attempts,
    exists k,
      k <= more
      /\ pickLoop u base attempts more = poolAt (base + attempts + k)
      /\ (forall j, j < k ->
                    poolUsed u (poolAt (base + attempts + j)) = true)
      /\ (k < more ->
          poolUsed u (poolAt (base + attempts + k)) = false).
Proof.
  induction more as [|more IH]; intros attempts; cbn [pickLoop].
  - exists 0. rewrite Nat.add_0_r. repeat split; intros; lia.
  - destruct (poolUsed u (poolAt (base + attempts))) eqn:E.
    + destruct (IH (S attempts)) as [k [Hk [Hp [Hbefore Hat]]]].
      exists (S k). split; [lia|].
      replace (base + attempts + S k) with (base + S attempts + k) by lia.
      split; [exact Hp|]. split.
      * intros [|j] Hj.
        -- now rewrite Nat.add_0_r.
        -- replace (base + attempts + S j) with (base + S attempts + j)
             by lia.
           apply Hbefore. lia.
      * intros Hlt. apply Hat. lia.
    + exists 0. rewrite Nat.add_0_r. repeat split; try lia; auto.
Qed.

Lemma pickLoop_In (u : Used) (base attempts more : nat) :
  In (pickLoop u base attempts more) demoPool.
Proof.
  destruct (pickLoop_spec u base more attempts) as [k [_ [-> _]]].
  apply poolAt_In.
Qed.

(** The search settles on the first unused entry at or after [base], in
    pool order with wrap-around. *)
Lemma firstFree_spec (u : Used) (base : nat) :
  exists k,
    k < 16
    /\ firstFree u base = poolAt (base + k)
    /\ (forall j, j < k -> poolUsed u (poolAt (base + j)) = true)
    /\ (poolUsed u (firstFree u base) = true ->
        forall m, poolUsed u (poolAt m) = true).
Proof.
  unfold firstFree. change (List.length demoPool - 1) with 15.
  destruct (pickLoop_spec u base 15 0) as [k [Hk [Hp [Hbefore Hat]]]].
  rewrite Nat.add_0_r in *.
  exists k. split; [lia|]. split; [exact Hp|]. split.
  - exact Hbefore.
  - intros Hused m. rewrite Hp in Hused.
    assert (k = 15).
    { destruct (Nat.eq_dec k 15) as [|Hne]; [assumption|].
      rewrite Hat in Hused by lia. discriminate. }
    subst k. destruct (poolAt_reach base m) as [j [Hj <-]].
    destruct (Nat.eq_dec j 15) as [->|Hne]; [exact Hused|].
    apply Hbefore. lia.
Qed.

Lemma firstFree_In (u : Used) (base : nat) : In (firstFree u base) demoPool.
Proof. apply pickLoop_In. Qed.

Lemma firstFree_finds (u : Used) (base : nat) (p : PoolEntry) :
  In p demoPool -> poolUsed u p = false ->
  poolUsed u (firstFree u base) = false.
Proof.
  intros Hp Hfree.
  destruct (poolUsed u (firstFree u base)) eqn:E; [|reflexivity].
  destruct (firstFree_spec u base) as [_ [_ [_ [_ Hall]]]].
  apply In_nth with (d := {| pool_featureId := ""; pool_name := "" |}) in Hp.
  destruct Hp as [m [Hm Hnth]].
  specialize (Hall E m). unfold poolAt in Hall.
  rewrite Nat.mod_small in Hall by exact Hm.
  rewrite Hnth in Hall. congruence.
Qed.

(** ** Filling up a section *)

Lemma fillLoop_step (idx i todo : nat) (u : Used) :
  fillLoop idx i (S todo) u
  = if poolUsed u (firstFree u (idx + i))
    then fillLoop idx (S i) todo u
    else let (fillers, u2) :=
           fillLoop idx (S i) todo (markPick (firstFree u (idx + i)) u) in
         (filler (firstFree u (idx + i)) :: fillers, u2).
Proof. reflexivity. Qed.

Lemma fillLoop_adds (idx : nat) (todo : nat) :
  forall i u fillers u',
    fillLoop idx i todo u = (fillers, u') ->
    adds u fillers u'
    /\ Forall (fun f => exists p, In p demoPool /\ f = filler p) fillers.
Proof.
  induction todo as [|todo IH]; intros i u fillers u' H.
  - cbn [fillLoop] in H. injection H as <- <-. split; constructor.
  - rewrite fillLoop_step in H.
    destruct (poolUsed u (firstFree u (idx + i))) eqn:E.
    + exact (IH _ _ _ _ H).
    + destruct (fillLoop idx (S i) todo _) as [fs u2] eqn:E2.
      injection H as <- <-. destruct (IH _ _ _ _ E2) as [Ha Hf].
      pose proof (firstFree_In u (idx + i)) as Hin. split.
      * constructor.
        -- now apply fresh_filler.
        -- now rewrite record_filler.
      * constructor; [|exact Hf]. eexists. split; [exact Hin|reflexivity].
Qed.

Lemma poolUsed_markPick (p x : PoolEntry) (u : Used) :
  poolUsed (markPick p u) x
  = poolUsed u x
    || String.eqb (pool_featureId x) (pool_featureId p)
    || String.eqb (normalizedNameOf (pool_name x))
                  (normalizedNameOf (pool_name p)).
Proof.
  unfold poolUsed, markPick, addUsedName, addUsedId.
  cbn [allUsedFeatureIds allUsedFeatureNames].
  rewrite hasId_addId, hasName_addName. cbn [IdValue_eqb].
  destruct (hasId _ _), (hasName _ _), (String.eqb _ _), (String.eqb _ _);
    reflexivity.
Qed.

Lemma poolUsed_markPick_self (p : PoolEntry) (u : Used) :
  poolUsed (markPick p u) p = true.
Proof.
  rewrite poolUsed_markPick, String.eqb_refl, orb_true_r. reflexivity.
Qed.

Lemma poolUsed_markPick_other (p x : PoolEntry) (u : Used) :
  In p demoPool -> In x demoPool -> x <> p ->
  poolUsed (markPick p u) x = poolUsed u x.
Proof.
  intros Hp Hx Hne. rewrite poolUsed_markPick.
  destruct (pool_injective x p Hx Hp Hne) as [Hi Hn].
  apply String.eqb_neq in Hi, Hn. rewrite Hi, Hn, !orb_false_r.
  reflexivity.
Qed.

Lemma poolUsed_markPick_mono (p x : PoolEntry) (u : Used) :
  poolUsed u x = true -> poolUsed (markPick p u) x = true.
Proof. intros H. rewrite poolUsed_markPick, H. reflexivity. Qed.

Lemma processSection_unfold (idx : nat) (s : AnalysisSection) (u : Used) :
  processSection idx s u
  = let (kept, u1) := filterFeatures (map enrich (features s)) u in
    let (fillers, u2) := fillLoop idx 0 (2 - List.length kept) u1 in
    ({| title := title s; content := content s;
        webFeatures := Some (kept ++ fillers) |}, u2).
Proof. reflexivity. Qed.

Lemma processSection_adds (idx : nat) (s s' : AnalysisSection) (u u' : Used) :
  processSection idx s u = (s', u') -> adds u (features s') u'.
Proof.
  rewrite processSection_unfold. intros H.
  destruct (filterFeatures _ u) as [kept u1] eqn:E1.
  destruct (fillLoop idx 0 _ u1) as [fillers u2] eqn:E2.
  injection H as <- <-. cbn [features webFeatures].
  eapply adds_app.
  - exact (filterFeatures_adds _ _ _ _ E1).
  - exact (proj1 (fillLoop_adds _ _ _ _ _ _ E2)).
Qed.

Lemma processPlan_adds (plan : list AnalysisSection) :
  forall idx u out u',
    processPlan idx plan u = (out, u') -> adds u (allFeatures out) u'.
Proof.
  induction plan as [|s rest IH]; intros idx u out u' H;
    cbn [processPlan] in H.
  - injection H as <- <-. constructor.
  - destruct (processSection idx s u) as [s' u1] eqn:E1.
    destruct (processPlan (S idx) rest u1) as [rest' u2] eqn:E2.
    injection H as <- <-. cbn [allFeatures flat_map].
    eapply adds_app.
    + exact (processSection_adds _ _ _ _ _ E1).
    + exact (IH _ _ _ _ E2).
Qed.

(** Marking an unused pool entry appends its id to the one set and its
    lower-cased, trimmed name to the other. *)
Lemma markPick_fresh (p : PoolEntry) (u : Used) :
  poolUsed u p = false ->
  allUsedFeatureIds (markPick p u)
  = allUsedFeatureIds u ++ [IdString (pool_featureId p)]
  /\ allUsedFeatureNames (markPick p u)
     = allUsedFeatureNames u ++ [normalizedNameOf (pool_name p)].
Proof.
  unfold poolUsed. intros H. apply orb_false_iff in H. destruct H as [Hi Hn].
  unfold markPick, addUsedName, addUsedId, addId, addName.
  cbn [allUsedFeatureIds allUsedFeatureNames]. rewrite Hi, Hn. split;
    reflexivity.
Qed.

(** C5.  Minimum fill.  A section without AI-supplied mentions, processed
    while two different pool entries are still unused, ends with exactly
    two mentions.  Filler number [i] is the pool entry at index
    [(idx + i + k) mod 16] for the least [k] below 16 whose entry is
    unused when the filler is chosen.  It is marked used at once: its id
    is added to the used ids and its lower-cased, trimmed name to the used
    names, before the next filler is looked for, so the two fillers differ
    in id and in name and the sets end as the ones the section started
    with followed by the two ids and the two names.  Each filler carries
    the pool's id and name with the baseline snapshot of that id. *)
Theorem minimum_fill (idx : nat) (section : AnalysisSection) (u : Used)
    (p q : PoolEntry)
    (Hempty : features section = [])
    (Hp : In p demoPool) (Hq : In q demoPool) (Hpq : p <> q)
    (Hpfree : poolUsed u p = false) (Hqfree : poolUsed u q = false) :
  exists k0 k1,
    let p0 := poolAt (idx + 0 + k0) in
    let p1 := poolAt (idx + 1 + k1) in
    let u' := snd (processSection idx section u) in
    features (fst (processSection idx section u)) = [filler p0; filler p1]
    /\ u' = markPick p1 (markPick p0 u)
    /\ allUsedFeatureIds u'
       = allUsedFeatureIds u
         ++ [IdString (pool_featureId p0); IdString (pool_featureId p1)]
    /\ allUsedFeatureNames u'
       = allUsedFeatureNames u
         ++ [normalizedNameOf (pool_name p0); normalizedNameOf (pool_name p1)]
    /\ pool_featureId p0 <> pool_featureId p1
    /\ normalizedNameOf (pool_name p0) <> normalizedNameOf (pool_name p1)
    /\ k0 < 16 /\ k1 < 16
    /\ (forall j, j < k0 -> poolUsed u (poolAt (idx + 0 + j)) = true)
    /\ poolUsed u p0 = false
    /\ (forall j, j < k1 ->
                  poolUsed (markPick p0 u) (poolAt (idx + 1 + j)) = true)
    /\ poolUsed (markPick p0 u) p1 = false
    /\ Forall (fun f =>
                 exists e, In e demoPool
                   /\ featureId f = Some (IdString (pool_featureId e))
                   /\ name f = pool_name e
                   /\ baseline f
                      = getFeatureBaselineStatus
                          (IdString (pool_featureId e))
                   /\ hasId (IdString (pool_featureId e))
                            (allUsedFeatureIds u') = true
                   /\ hasName (normalizedNameOf (pool_name e))
                              (allUsedFeatureNames u') = true)
              (features (fst (processSection idx section u))).
Proof.
  destruct (firstFree_spec u (idx + 0)) as [k0 [Hk0 [E0 [Hb0 _]]]].
  pose proof (firstFree_finds u (idx + 0) p Hp Hpfree) as Hf0.
  pose proof (firstFree_In u (idx + 0)) as Hin0.
  set (u1 := markPick (firstFree u (idx + 0)) u).
  assert (Hfree1 : exists x, In x demoPool /\ poolUsed u1 x = false).
  { destruct (PoolEntry_eqb p (firstFree u (idx + 0))) eqn:Ep.
    - apply PoolEntry_eqb_eq in Ep. exists q. split; [exact Hq|].
      unfold u1. rewrite poolUsed_markPick_other; try assumption.
      congruence.
    - exists p. split; [exact Hp|].
      unfold u1. rewrite poolUsed_markPick_other; try assumption.
      intros ->. unfold PoolEntry_eqb in Ep.
      now rewrite !String.eqb_refl in Ep. }
  destruct Hfree1 as [x [Hx Hxfree]].
  destruct (firstFree_spec u1 (idx + 1)) as [k1 [Hk1 [E1 [Hb1 _]]]].
  pose proof (firstFree_finds u1 (idx + 1) x Hx Hxfree) as Hf1.
  pose proof (firstFree_In u1 (idx + 1)) as Hin1.
  assert (Hrun : processSection idx section u
                 = ({| title := title section; content := content section;
                       webFeatures :=
                         Some [filler (firstFree u (idx + 0));
                               filler (firstFree u1 (idx + 1))] |},
                    markPick (firstFree u1 (idx + 1)) u1)).
  { rewrite processSection_unfold, Hempty. cbn [map filterFeatures].
    change (2 - List.length (@nil WebFeature)) with 2.
    rewrite fillLoop_step, Hf0, fillLoop_step. fold u1. rewrite Hf1.
    reflexivity. }
  destruct (markPick_fresh _ _ Hf0) as [Hi0 Hn0]. fold u1 in Hi0, Hn0.
  destruct (markPick_fresh _ _ Hf1) as [Hi1 Hn1].
  rewrite Hi0, <- app_assoc in Hi1. rewrite Hn0, <- app_assoc in Hn1.
  cbn [app] in Hi1, Hn1.
  assert (Hparts : hasId (IdString (pool_featureId (firstFree u1 (idx + 1))))
                         (allUsedFeatureIds u1) = false
                   /\ hasName (normalizedNameOf
                                 (pool_name (firstFree u1 (idx + 1))))
                              (allUsedFeatureNames u1) = false).
  { unfold poolUsed in Hf1. now apply orb_false_iff in Hf1. }
  destruct Hparts as [Hid1 Hnm1].
  exists k0, k1. cbv zeta. rewrite Hrun, <- E0. fold u1. rewrite <- E1.
  cbn [fst snd features webFeatures].
  split; [reflexivity|]. split; [reflexivity|].
  split; [exact Hi1|]. split; [exact Hn1|]. split.
  { intros E. rewrite Hi0 in Hid1. unfold hasId in Hid1.
    rewrite existsb_app in Hid1. apply orb_false_iff in Hid1.
    destruct Hid1 as [_ Hid1]. cbn [existsb] in Hid1.
    rewrite <- E, IdValue_eqb_refl in Hid1. discriminate. }
  split.
  { intros E. rewrite Hn0 in Hnm1. unfold hasName in Hnm1.
    rewrite existsb_app in Hnm1. apply orb_false_iff in Hnm1.
    destruct Hnm1 as [_ Hnm1]. cbn [existsb] in Hnm1.
    rewrite <- E, String.eqb_refl in Hnm1. discriminate. }
  split; [exact Hk0|]. split; [exact Hk1|]. split; [exact Hb0|].
  split; [exact Hf0|]. split; [exact Hb1|]. split; [exact Hf1|].
  constructor; [|constructor; [|constructor]].
  - exists (firstFree u (idx + 0)).
    split; [exact Hin0|]. split; [reflexivity|]. split; [reflexivity|].
    split; [reflexivity|]. rewrite Hi1, Hn1. split.
    + unfold hasId. rewrite existsb_app. apply orb_true_iff. right.
      cbn [existsb]. now rewrite IdValue_eqb_refl.
    + unfold hasName. rewrite existsb_app. apply orb_true_iff. right.
      cbn [existsb]. now rewrite String.eqb_refl.
  - exists (firstFree u1 (idx + 1)).
    split; [exact Hin1|]. split; [reflexivity|]. split; [reflexivity|].
    split; [reflexivity|]. rewrite Hi1, Hn1. split.
    + unfold hasId. rewrite existsb_app. apply orb_true_iff. right.
      cbn [existsb]. now rewrite IdValue_eqb_refl, orb_true_r.
    + unfold hasName. rewrite existsb_app. apply orb_true_iff. right.
      cbn [existsb]. now rewrite String.eqb_refl, orb_true_r.
Qed.

Lemma minimum_fill_witness :
  let section := {| title := "Layout"; content := ""; webFeatures := None |} in
  let u := {| allUsedFeatureIds := [IdString "css.properties.grid"];
              allUsedFeatureNames := ["css grid layout"] |} in
  features section = []
  /\ In (poolAt 0) demoPool /\ In (poolAt 1) demoPool
  /\ poolAt 0 <> poolAt 1
  /\ poolUsed u (poolAt 0) = false /\ poolUsed u (poolAt 1) = false
  /\ List.length (features (fst (processSection 3 section u))) = 2.
Proof.
  cbv zeta.
  set (section := {| title := "Layout"; content := "";
                     webFeatures := None |}).
  set (u := {| allUsedFeatureIds := [IdString "css.properties.grid"];
               allUsedFeatureNames := ["css grid layout"] |}).
  assert (H1 : features section = []) by reflexivity.
  assert (H2 : In (poolAt 0) demoPool) by apply poolAt_In.
  assert (H3 : In (poolAt 1) demoPool) by apply poolAt_In.
  assert (H4 : poolAt 0 <> poolAt 1) by (vm_compute; discriminate).
  assert (H5 : poolUsed u (poolAt 0) = false) by (vm_compute; reflexivity).
  assert (H6 : poolUsed u (poolAt 1) = false) by (vm_compute; reflexivity).
  repeat (split; [assumption|]).
  destruct (minimum_fill 3 section u (poolAt 0) (poolAt 1)
              H1 H2 H3 H4 H5 H6) as [k0 [k1 [Hfeat _]]].
  rewrite Hfeat. reflexivity.
Defined.

(** ** Uniqueness across the plan *)

Lemma processSection_parts (idx : nat) (s s' : AnalysisSection) (u u' : Used) :
  processSection idx s u = (s', u') ->
  exists kept fillers u1,
    filterFeatures (map enrich (features s)) u = (kept, u1)
    /\ fillLoop idx 0 (2 - List.length kept) u1 = (fillers, u')
    /\ features s' = kept ++ fillers
    /\ title s' = title s /\ content s' = content s.
Proof.
  rewrite processSection_unfold. intros H.
  destruct (filterFeatures _ u) as [kept u1] eqn:E1.
  destruct (fillLoop idx 0 _ u1) as [fillers u2] eqn:E2.
  injection H as <- <-. exists kept, fillers, u1. repeat split.
  exact E2.
Qed.

Lemma filter_none {A : Type} (f : A -> bool) (l : list A) :
  (forall x, In x l -> f x = false) -> filter f l = [].
Proof.
  induction l as [|a l IH]; intros H; simpl; [reflexivity|].
  rewrite (H a (or_introl eq_refl)). apply IH. intros x Hx. apply H.
  now right.
Qed.

Lemma count_of_key_once (l : list WebFeature) (x : WebFeature) :
  NoDup (map keyName l) -> In x l ->
  List.length (filter (hasNormalizedName (keyName x)) l) = 1.
Proof.
  induction l as [|a l IH]; intros Hnd Hin; [destruct Hin|].
  cbn [map] in Hnd. inversion Hnd as [|k ks Hnotin Hnd' [Hk Hks]].
  cbn [filter]. unfold hasNormalizedName at 1.
  destruct Hin as [->|Hin].
  - rewrite String.eqb_refl. cbn [List.length]. f_equal.
    rewrite filter_none; [reflexivity|].
    intros y Hy. unfold hasNormalizedName. apply String.eqb_neq.
    intros E. apply Hnotin.
    change (normalizedNameOf (name y)) with (keyName y) in E.
    rewrite <- E. now apply in_map.
  - change (normalizedNameOf (name a)) with (keyName a).
    destruct (String.eqb (keyName a) (keyName x)) eqn:E.
    + apply String.eqb_eq in E. exfalso. apply Hnotin. rewrite E.
      now apply in_map.
    + exact (IH Hnd' Hin).
Qed.

Lemma keyIds_truthy (f : WebFeature) (i : IdValue) :
  featureId f = Some i -> truthyId i = true -> keyIds f = [i].
Proof. unfold keyIds. intros -> ->. reflexivity. Qed.

Lemma deduplicate_cons (s0 : AnalysisSection) (rest : list AnalysisSection)
    (o0 : AnalysisSection) (orest : list AnalysisSection) :
  deduplicate (s0 :: rest) = o0 :: orest ->
  exists u1 u2,
    processSection 0 s0 noneUsed = (o0, u1)
    /\ processPlan 1 rest u1 = (orest, u2).
Proof.
  unfold deduplicate. cbn [processPlan]. intros H.
  destruct (processSection 0 s0 noneUsed) as [o0' u1] eqn:E1.
  destruct (processPlan 1 rest u1) as [orest' u2] eqn:E2.
  cbn [fst] in H. injection H as <- <-. now exists u1, u2.
Qed.

(** Whatever the plan, no two mentions of the output share a normalised
    name or a truthy id. *)
Lemma deduplicate_unique (plan : list AnalysisSection) :
  NoDup (map keyName (allFeatures (deduplicate plan)))
  /\ NoDup (flat_map keyIds (allFeatures (deduplicate plan))).
Proof.
  unfold deduplicate.
  destruct (processPlan 0 plan noneUsed) as [out u] eqn:E. cbn [fst].
  pose proof (processPlan_adds _ _ _ _ _ E) as A. split.
  - exact (proj2 (adds_names_new _ _ _ A)).
  - exact (proj2 (adds_ids_new _ _ _ A)).
Qed.

(** C1.  Cross-section uniqueness.  In a plan whose every section has an
    AI mention named [X], if a mention named [X] is in the output of the
    first section (the mention passed the duplicate test there) then the
    whole output holds exactly one mention with the normalised name of
    [X]; no mention of a later section, kept or filler, has that
    normalised name or, when the id is truthy, the id of that mention. *)
Theorem cross_section_uniqueness (X : string)
    (s0 : AnalysisSection) (rest : list AnalysisSection)
    (o0 : AnalysisSection) (orest : list AnalysisSection) (m0 : WebFeature)
    (Hsupplied : forall s, In s (s0 :: rest) ->
                           exists m, In m (features s) /\ name m = X)
    (Hout : deduplicate (s0 :: rest) = o0 :: orest)
    (Hkept : In m0 (features o0))
    (Hname : name m0 = X) :
  List.length (filter (hasNormalizedName (normalizedNameOf X))
                      (allFeatures (o0 :: orest))) = 1
  /\ (forall s m, In s orest -> In m (features s) ->
        normalizedNameOf (name m) <> normalizedNameOf X
        /\ (truthyOpt (featureId m0) = true ->
            featureId m <> featureId m0)).
Proof.
  destruct (deduplicate_cons _ _ _ _ Hout) as [u1 [u2 [H0 Hrest]]].
  pose proof (processSection_adds _ _ _ _ _ H0) as A0.
  pose proof (processPlan_adds _ _ _ _ _ Hrest) as Arest.
  assert (Hkey : keyName m0 = normalizedNameOf X)
    by (unfold keyName; now rewrite Hname).
  split.
  - rewrite <- Hkey. apply count_of_key_once.
    + exact (proj2 (adds_names_new _ _ _ (adds_app _ _ _ _ _ A0 Arest))).
    + cbn [allFeatures flat_map]. apply in_or_app. now left.
  - intros s m Hs Hm.
    assert (Hin : In m (allFeatures orest))
      by (apply in_flat_map; exists s; split; assumption).
    split.
    + intros E.
      pose proof (proj1 (adds_names_new _ _ _ Arest) (keyName m)
                    (in_map keyName _ _ Hin)) as Hnew.
      rewrite (adds_names _ _ _ A0) in Hnew.
      apply orb_false_iff in Hnew. destruct Hnew as [_ Hnew].
      assert (existsb (String.eqb (keyName m)) (map keyName (features o0))
              = true).
      { apply existsb_exists. exists (keyName m0). split.
        - now apply in_map.
        - apply String.eqb_eq. unfold keyName at 1. now rewrite E. }
      congruence.
    + intros Htruthy E.
      destruct (featureId m0) as [i|] eqn:Ei; [|discriminate].
      cbn [truthyOpt] in Htruthy.
      assert (Hi : In i (flat_map keyIds (allFeatures orest))).
      { apply in_flat_map. exists m. split; [exact Hin|].
        rewrite (keyIds_truthy m i E Htruthy). now left. }
      pose proof (proj1 (adds_ids_new _ _ _ Arest) i Hi) as Hnew.
      rewrite (adds_ids _ _ _ A0) in Hnew.
      apply orb_false_iff in Hnew. destruct Hnew as [_ Hnew].
      assert (existsb (IdValue_eqb i) (flat_map keyIds (features o0)) = true).
      { apply existsb_exists. exists i. split; [|apply IdValue_eqb_refl].
        apply in_flat_map. exists m0. split; [exact Hkept|].
        rewrite (keyIds_truthy m0 i Ei Htruthy). now left. }
      congruence.
Qed.

Lemma cross_section_uniqueness_witness :
  let s0 := sectionOf "Layout" [mention "CSS Grid"] in
  let rest := [sectionOf "Data" [mention "CSS Grid"; mention "Fetch API"];
               sectionOf "Polish" [mention "CSS Grid"]] in
  let out := deduplicate (s0 :: rest) in
  let m0 := enrich (mention "CSS Grid") in
  (forall s, In s (s0 :: rest) ->
             exists m, In m (features s) /\ name m = "CSS Grid")
  /\ deduplicate (s0 :: rest) = hd s0 out :: tl out
  /\ In m0 (features (hd s0 out))
  /\ name m0 = "CSS Grid"
  /\ List.length (filter (hasNormalizedName (normalizedNameOf "CSS Grid"))
                         (allFeatures (hd s0 out :: tl out))) = 1
  /\ (forall s m, In s (tl out) -> In m (features s) ->
        normalizedNameOf (name m) <> normalizedNameOf "CSS Grid"
        /\ (truthyOpt (featureId m0) = true ->
            featureId m <> featureId m0)).
Proof.
  cbv zeta.
  set (s0 := sectionOf "Layout" [mention "CSS Grid"]).
  set (rest := [sectionOf "Data" [mention "CSS Grid"; mention "Fetch API"];
                sectionOf "Polish" [mention "CSS Grid"]]).
  assert (H1 : forall s, In s (s0 :: rest) ->
                 exists m, In m (features s) /\ name m = "CSS Grid").
  { intros s [<-|[<-|[<-|[]]]]; exists (mention "CSS Grid");
      (split; [now left|reflexivity]). }
  assert (H2 : deduplicate (s0 :: rest)
               = hd s0 (deduplicate (s0 :: rest))
                 :: tl (deduplicate (s0 :: rest)))
    by (vm_compute; reflexivity).
  assert (H3 : In (enrich (mention "CSS Grid"))
                  (features (hd s0 (deduplicate (s0 :: rest)))))
    by (vm_compute; now left).
  assert (H4 : name (enrich (mention "CSS Grid")) = "CSS Grid")
    by reflexivity.
  repeat (split; [assumption|]).
  exact (cross_section_uniqueness "CSS Grid" s0 rest _ _ _ H1 H2 H3 H4).
Defined.

(** C1, as stated, fails when the mention does not pass the duplicate
    test in the first section: here [CSS Grid Layout] is dropped there as
    a variation of [CSS], dropped again in the two later sections, and a
    filler of the third section brings in that very name under the id the
    name resolves to. *)
Lemma cross_section_uniqueness_counterexample :
  let plan :=
    [sectionOf "Layout" [mention "CSS"; mention "CSS Grid Layout"];
     sectionOf "Data" [mention "CSS Grid Layout"];
     sectionOf "Polish" [mention "CSS Grid Layout"]] in
  (forall s, In s plan ->
             exists m, In m (features s) /\ name m = "CSS Grid Layout")
  /\ resolveFeatureIdByName "CSS Grid Layout"
     = Some (IdString "css.properties.grid")
  /\ idsAndNames (deduplicate plan)
     = [[(Some (IdString "css.custom-properties"), "CSS");
         (Some (IdString "css.media.prefers-color-scheme"),
          "Dark Mode (prefers-color-scheme)")];
        [(Some (IdString "css.properties.color-scheme"), "CSS color-scheme");
         (Some (IdString "css.properties.grid"), "CSS Grid Layout")];
        [(Some (IdString "css.properties.flexbox"), "CSS Flexbox");
         (Some (IdString "css.properties.container-query"),
          "CSS Container Queries")]].
Proof.
  cbv zeta. split; [|split].
  - intros s [<-|[<-|[<-|[]]]]; exists (mention "CSS Grid Layout");
      (split; [cbn; tauto|reflexivity]).
  - vm_compute. reflexivity.
  - vm_compute. reflexivity.
Qed.

Lemma pool_optional_chaining :
  forallb
    (fun p => negb (String.eqb (pool_name p) "Optional chaining (?.)")
              || String.eqb (pool_featureId p) "js.syntax.optional-chaining")
    demoPool = true.
Proof. vm_compute. reflexivity. Qed.

(** C6.  Punctuation variant.  When a mention named [optional
    chaining] is in the output of section 1, the filter of section 2 lets
    no AI mention named [Optional chaining (?.)] through, whatever id it
    carries: its lower-cased name contains the used name.  Nor does it let
    through one named [Optional (chaining)], which differs from the used
    name by punctuation only and which the comparison of the stripped
    names alone catches.  What follows the kept mentions in the output of
    section 2 are pool entries.  If the mention of section 1 carries the
    id [js.syntax.optional-chaining], as it does after enrichment when the
    AI gave no id, the pool entry named [Optional chaining (?.)] is passed
    over too, its id being used, and the output of section 2 has no
    mention of that name at all. *)
Theorem punctuation_variant_dropped
    (s1 s2 : AnalysisSection) (rest : list AnalysisSection)
    (o1 o2 : AnalysisSection) (orest : list AnalysisSection)
    (k : WebFeature)
    (Hout : deduplicate (s1 :: s2 :: rest) = o1 :: o2 :: orest)
    (Hkept : In k (features o1))
    (Hname : name k = "optional chaining") :
  exists u1 kept u2 fillers,
    processSection 0 s1 noneUsed = (o1, u1)
    /\ filterFeatures (map enrich (features s2)) u1 = (kept, u2)
    /\ features o2 = kept ++ fillers
    /\ Forall (fun f => exists p, In p demoPool /\ f = filler p) fillers
    /\ (forall m, In m kept ->
          name m <> "Optional chaining (?.)"
          /\ name m <> "Optional (chaining)")
    /\ (featureId k = Some (IdString "js.syntax.optional-chaining") ->
        forall m, In m (features o2) -> name m <> "Optional chaining (?.)").
Proof.
  destruct (deduplicate_cons _ _ _ _ Hout) as [u1 [u3 [H1 Hrest]]].
  cbn [processPlan] in Hrest.
  destruct (processSection 1 s2 u1) as [o2' u2] eqn:H2.
  destruct (processPlan 2 rest u2) as [orest' u3'].
  injection Hrest as -> _ _.
  pose proof (processSection_adds _ _ _ _ _ H1) as A1.
  assert (Hn : hasName "optional chaining" (allUsedFeatureNames u1) = true).
  { rewrite (adds_names _ _ _ A1). apply orb_true_iff. right.
    apply existsb_exists. exists "optional chaining". split.
    - replace "optional chaining" with (keyName k) at 1
        by (unfold keyName; rewrite Hname; reflexivity).
      now apply in_map.
    - reflexivity. }
  destruct (processSection_parts _ _ _ _ _ H2)
    as [kept [fillers [uk [Hf [Hfill [Hfeat _]]]]]].
  destruct (fillLoop_adds _ _ _ _ _ _ Hfill) as [Afill Hpool].
  assert (Hdrop : forall m, In m kept ->
            name m <> "Optional chaining (?.)"
            /\ name m <> "Optional (chaining)").
  { intros m Hm.
    pose proof (filterFeatures_no_variation _ _ _ _ Hf m _ Hm Hn) as Hv.
    unfold keyName in Hv.
    split; intros Hnm; rewrite Hnm in Hv; vm_compute in Hv; discriminate. }
  exists u1, kept, uk, fillers.
  split; [exact H1|]. split; [exact Hf|]. split; [exact Hfeat|].
  split; [exact Hpool|]. split; [exact Hdrop|].
  intros Hid.
  assert (Hi : hasId (IdString "js.syntax.optional-chaining")
                     (allUsedFeatureIds u1) = true).
  { rewrite (adds_ids _ _ _ A1). apply orb_true_iff. right.
    apply existsb_exists. exists (IdString "js.syntax.optional-chaining").
    split; [|reflexivity]. apply in_flat_map.
    exists k. split; [exact Hkept|].
    unfold keyIds. rewrite Hid. vm_compute. now left. }
  intros m Hm Hnm. rewrite Hfeat in Hm. apply in_app_or in Hm.
  destruct Hm as [Hm|Hm].
  - exact (proj1 (Hdrop m Hm) Hnm).
  - rewrite Forall_forall in Hpool.
    destruct (Hpool m Hm) as [p [Hp ->]].
    cbn [name filler] in Hnm.
    pose proof pool_optional_chaining as Hoc.
    rewrite forallb_forall in Hoc. specialize (Hoc p Hp).
    rewrite Hnm in Hoc. cbn [negb orb] in Hoc.
    rewrite String.eqb_refl in Hoc. cbn [negb orb] in Hoc.
    apply String.eqb_eq in Hoc.
    assert (Hk : In (IdString "js.syntax.optional-chaining")
                    (flat_map keyIds fillers)).
    { apply in_flat_map. exists (filler p). split; [exact Hm|].
      unfold keyIds, filler. cbn [featureId truthyId].
      rewrite (pool_truthy p Hp), Hoc. now left. }
    pose proof (proj1 (adds_ids_new _ _ _ Afill) _ Hk) as Hnew.
    rewrite (adds_ids _ _ _ (filterFeatures_adds _ _ _ _ Hf)), Hi in Hnew.
    discriminate.
Qed.

Lemma punctuation_variant_dropped_witness :
  let s1 := sectionOf "Data access" [mention "optional chaining"] in
  let s2 := sectionOf "Error handling" [mention "Optional chaining (?.)"] in
  let out := deduplicate [s1; s2] in
  let k := enrich (mention "optional chaining") in
  deduplicate [s1; s2] = hd s1 out :: hd s2 (tl out) :: tl (tl out)
  /\ In k (features (hd s1 out))
  /\ name k = "optional chaining"
  /\ exists u1 kept u2 fillers,
       processSection 0 s1 noneUsed = (hd s1 out, u1)
       /\ filterFeatures (map enrich (features s2)) u1 = (kept, u2)
       /\ features (hd s2 (tl out)) = kept ++ fillers
       /\ Forall (fun f => exists p, In p demoPool /\ f = filler p) fillers
       /\ (forall m, In m kept ->
             name m <> "Optional chaining (?.)"
             /\ name m <> "Optional (chaining)")
       /\ (featureId k = Some (IdString "js.syntax.optional-chaining") ->
           forall m, In m (features (hd s2 (tl out))) ->
                     name m <> "Optional chaining (?.)").
Proof.
  cbv zeta.
  set (s1 := sectionOf "Data access" [mention "optional chaining"]).
  set (s2 := sectionOf "Error handling" [mention "Optional chaining (?.)"]).
  assert (H1 : deduplicate [s1; s2]
               = hd s1 (deduplicate [s1; s2])
                 :: hd s2 (tl (deduplicate [s1; s2]))
                 :: tl (tl (deduplicate [s1; s2])))
    by (vm_compute; reflexivity).
  assert (H2 : In (enrich (mention "optional chaining"))
                  (features (hd s1 (deduplicate [s1; s2]))))
    by (vm_compute; now left).
  assert (H3 : name (enrich (mention "optional chaining"))
               = "optional chaining") by reflexivity.
  split; [exact H1|]. split; [exact H2|]. split; [exact H3|].
  exact (punctuation_variant_dropped s1 s2 [] _ _ _ _ H1 H2 H3).
Defined.

(** C6, as stated, fails when the mention kept in section 1 came with
    another id: the fill compares ids and exact names only, finds neither
    the id nor the name of the pool entry [Optional chaining (?.)] among
    the used ones, and puts that entry into section 2, where the AI
    mention of the same name was dropped. *)
Lemma punctuation_variant_counterexample :
  let k := mentionWithId "javascript.operators.optional_chaining"
                         "optional chaining" in
  let s1 :=
    sectionOf "Data access"
      [k;
       mentionWithId "css.custom-properties"
                     "CSS Variables (Custom Properties)";
       mentionWithId "css.properties.grid" "CSS Grid Layout";
       mentionWithId "css.properties.flexbox" "CSS Flexbox";
       mentionWithId "css.properties.container-query"
                     "CSS Container Queries";
       mentionWithId "css.properties.aspect-ratio" "CSS Aspect Ratio";
       mentionWithId "css.properties.display" "CSS Display Property"] in
  let s2 := sectionOf "Error handling" [mention "Optional chaining (?.)"] in
  exists o1 o2,
    deduplicate [s1; s2] = [o1; o2]
    /\ In (enrich k) (features o1)
    /\ name (enrich k) = "optional chaining"
    /\ map name (features o2) = ["CSS color-scheme"; "Optional chaining (?.)"]
    /\ In (filler (poolAt 8)) (features o2)
    /\ name (filler (poolAt 8)) = "Optional chaining (?.)".
Proof.
  cbv zeta. eexists. eexists.
  split; [vm_compute; reflexivity|].
  split; [vm_compute; now left|].
  split; [reflexivity|].
  split; [vm_compute; reflexivity|].
  split; [vm_compute; right; now left|reflexivity].
Qed.


(** ** States with the same members *)

Lemma sameUsed_refl (u : Used) : sameUsed u u.
Proof. split; reflexivity. Qed.

Lemma sameUsed_sym (u v : Used) : sameUsed u v -> sameUsed v u.
Proof. intros [H1 H2]. split; intros x; symmetry; auto. Qed.

Lemma sameUsed_trans (u v w : Used) :
  sameUsed u v -> sameUsed v w -> sameUsed u w.
Proof.
  intros [H1 H2] [H3 H4]. split; intros x; [rewrite H1|rewrite H2]; auto.
Qed.

Lemma record_same (f : WebFeature) (u v : Used) :
  sameUsed u v -> sameUsed (record f u) (record f v).
Proof.
  intros [Hi Hn]. split.
  - intros i. now rewrite !record_ids, Hi.
  - intros n. now rewrite !record_names, Hn.
Qed.

Lemma keepFeature_same (f : WebFeature) (u v : Used) :
  sameUsed u v ->
  fst (keepFeature f u) = fst (keepFeature f v)
  /\ sameUsed (snd (keepFeature f u)) (snd (keepFeature f v)).
Proof.
  intros Huv. pose proof Huv as [Hi Hn].
  assert (Hrec := record_same f u v Huv).
  unfold keepFeature. fold (keyName f). fold (record f u). fold (record f v).
  rewrite (existsb_same_members _ _ _ Hn), (Hn (keyName f)).
  replace (match featureId f with
           | Some i => truthyId i && hasId i (allUsedFeatureIds u)
           | None => false
           end)
    with (match featureId f with
          | Some i => truthyId i && hasId i (allUsedFeatureIds v)
          | None => false
          end)
    by (destruct (featureId f) as [i|]; [now rewrite Hi|reflexivity]).
  destruct (match featureId f with
            | Some i => truthyId i && hasId i (allUsedFeatureIds v)
            | None => false
            end); [now split|].
  destruct (hasName _ _ || existsb _ _); now split.
Qed.

Lemma filterFeatures_same (fs : list WebFeature) :
  forall u v, sameUsed u v ->
    fst (filterFeatures fs u) = fst (filterFeatures fs v)
    /\ sameUsed (snd (filterFeatures fs u)) (snd (filterFeatures fs v)).
Proof.
  induction fs as [|f fs IH]; intros u v Huv; cbn [filterFeatures].
  - now split.
  - destruct (keepFeature_same f u v Huv) as [Hb Hs].
    destruct (keepFeature f u) as [b u1], (keepFeature f v) as [b' v1].
    cbn [fst snd] in Hb, Hs. subst b'.
    destruct (IH u1 v1 Hs) as [Hk Hs'].
    destruct (filterFeatures fs u1) as [k u2],
             (filterFeatures fs v1) as [k' v2].
    cbn [fst snd] in *. subst k'. now split.
Qed.

Lemma poolUsed_same (u v : Used) (p : PoolEntry) :
  sameUsed u v -> poolUsed u p = poolUsed v p.
Proof. intros [Hi Hn]. unfold poolUsed. now rewrite Hi, Hn. Qed.

Lemma pickLoop_same (u v : Used) (base more : nat) :
  sameUsed u v ->
  forall attempts, pickLoop u base attempts more
                   = pickLoop v base attempts more.
Proof.
  intros Huv. induction more as [|more IH]; intros attempts;
    cbn [pickLoop]; [reflexivity|].
  rewrite (poolUsed_same u v _ Huv), IH. reflexivity.
Qed.

Lemma markPick_same (p : PoolEntry) (u v : Used) :
  sameUsed u v -> sameUsed (markPick p u) (markPick p v).
Proof.
  intros [Hi Hn]. unfold markPick, addUsedName, addUsedId. split.
  - intros i. cbn [allUsedFeatureIds]. now rewrite !hasId_addId, Hi.
  - intros n. cbn [allUsedFeatureNames]. now rewrite !hasName_addName, Hn.
Qed.

Lemma fillLoop_same (idx todo : nat) :
  forall i u v, sameUsed u v ->
    fst (fillLoop idx i todo u) = fst (fillLoop idx i todo v)
    /\ sameUsed (snd (fillLoop idx i todo u)) (snd (fillLoop idx i todo v)).
Proof.
  induction todo as [|todo IH]; intros i u v Huv.
  - cbn [fillLoop fst snd]. now split.
  - rewrite !fillLoop_step. unfold firstFree.
    rewrite <- (pickLoop_same u v _ _ Huv), <- (poolUsed_same u v _ Huv).
    destruct (poolUsed u _).
    + exact (IH _ _ _ Huv).
    + destruct (IH (S i) _ _ (markPick_same (pickLoop u (idx + i) 0
                  (List.length demoPool - 1)) u v Huv)) as [Hf Hs].
      destruct (fillLoop idx (S i) todo (markPick _ u)) as [fu u2],
               (fillLoop idx (S i) todo (markPick _ v)) as [fv v2].
      cbn [fst snd] in *. subst fv. now split.
Qed.

Lemma processSection_same (idx : nat) (s : AnalysisSection) (u v : Used) :
  sameUsed u v ->
  fst (processSection idx s u) = fst (processSection idx s v)
  /\ sameUsed (snd (processSection idx s u)) (snd (processSection idx s v)).
Proof.
  intros Huv. rewrite !processSection_unfold.
  destruct (filterFeatures_same (map enrich (features s)) u v Huv)
    as [Hk Hs].
  destruct (filterFeatures _ u) as [k u1], (filterFeatures _ v) as [k' v1].
  cbn [fst snd] in Hk, Hs. subst k'.
  destruct (fillLoop_same idx (2 - List.length k) 0 u1 v1 Hs) as [Hf Hs'].
  destruct (fillLoop idx 0 _ u1) as [f u2], (fillLoop idx 0 _ v1) as [f' v2].
  cbn [fst snd] in *. subst f'. now split.
Qed.

(** ** Enriching twice *)

Lemma enrich_idempotent (f : WebFeature) : enrich (enrich f) = enrich f.
Proof.
  destruct f as [o n b]. unfold enrich, getFeatureBaselineByName.
  cbn [featureId name baseline].
  generalize resolveFeatureIdByName as resolve.
  generalize getFeatureBaselineStatus as status. intros status resolve.
  destruct (Js.truthy n) eqn:Tn;
    destruct (resolve n) as [r|] eqn:Er;
    try (destruct (truthyId r) eqn:Tr;
         destruct (status r) eqn:Gr);
    destruct o as [i|];
    try (destruct (truthyId i) eqn:Ti;
         destruct (status i) eqn:Gi);
    destruct b; rewrite_known; reflexivity.
Qed.

(** ** Searching again after a change of the sets *)

Lemma first_free_unique (u : Used) (base k k' : nat) :
  (forall j, j < k -> poolUsed u (poolAt (base + j)) = true) ->
  poolUsed u (poolAt (base + k)) = false ->
  (forall j, j < k' -> poolUsed u (poolAt (base + j)) = true) ->
  poolUsed u (poolAt (base + k')) = false ->
  k = k'.
Proof.
  intros Hb Hf Hb' Hf'.
  destruct (Nat.lt_trichotomy k k') as [H|[H|H]]; [|exact H|].
  - rewrite (Hb' k H) in Hf. discriminate.
  - rewrite (Hb k' H) in Hf'. discriminate.
Qed.

(** With the entry at [base] used and some entry free, the search from
    [base] and the search from [base + 1] settle on the same entry. *)
Lemma firstFree_shift (u : Used) (base : nat) :
  poolUsed u (poolAt base) = true ->
  poolUsed u (firstFree u (S base)) = false ->
  firstFree u base = firstFree u (S base).
Proof.
  intros Hused Hfree.
  pose proof (firstFree_finds u base _ (firstFree_In u (S base)) Hfree)
    as Hfree0.
  destruct (firstFree_spec u base) as [k [_ [E [Hb _]]]].
  destruct (firstFree_spec u (S base)) as [k' [_ [E' [Hb' _]]]].
  rewrite E in Hfree0. rewrite E' in Hfree. rewrite E, E'.
  replace (S base + k') with (base + S k') in * by lia.
  f_equal. f_equal.
  apply (first_free_unique u base); try assumption.
  intros [|j] Hj.
  - now rewrite Nat.add_0_r.
  - replace (base + S j) with (S base + j) by lia. apply Hb'. lia.
Qed.

(** The search gives the same entry under larger sets that leave it
    free. *)
Lemma firstFree_mono (u v : Used) (base : nat) :
  (forall x, poolUsed u x = true -> poolUsed v x = true) ->
  poolUsed v (firstFree u base) = false ->
  firstFree v base = firstFree u base.
Proof.
  intros Hsub Hfree.
  pose proof (firstFree_finds v base _ (firstFree_In u base) Hfree) as Hv.
  destruct (firstFree_spec u base) as [k [_ [E [Hb _]]]].
  destruct (firstFree_spec v base) as [k' [_ [E' [Hb' _]]]].
  rewrite E in Hfree. rewrite E' in Hv. rewrite E, E'.
  f_equal. f_equal.
  apply (first_free_unique v base); try assumption.
  intros j Hj. apply Hsub, Hb, Hj.
Qed.

Lemma firstFree_all_used (u : Used) (base base' : nat) :
  poolUsed u (firstFree u base) = true ->
  poolUsed u (firstFree u base') = true.
Proof.
  intros H. destruct (firstFree_spec u base) as [_ [_ [_ [_ Hall]]]].
  destruct (firstFree_spec u base') as [k [_ [-> _]]]. exact (Hall H _).
Qed.

Lemma firstFree_at_base (u : Used) (base : nat) :
  poolUsed u (poolAt base) = false -> firstFree u base = poolAt base.
Proof.
  intros Hfree. destruct (firstFree_spec u base) as [k [_ [E [Hb _]]]].
  destruct k as [|k].
  - now rewrite Nat.add_0_r in E.
  - specialize (Hb 0 ltac:(lia)). rewrite Nat.add_0_r in Hb. congruence.
Qed.

Lemma firstFree_after_mark (u : Used) (base : nat) :
  poolUsed (markPick (firstFree u base) u) (poolAt base) = true.
Proof.
  destruct (poolUsed u (poolAt base)) eqn:E.
  - now apply poolUsed_markPick_mono.
  - rewrite (firstFree_at_base u base E). apply poolUsed_markPick_self.
Qed.

Lemma keepFeature_filler (p : PoolEntry) (u : Used) :
  In p demoPool ->
  keepFeature (filler p) u = (false, u)
  \/ keepFeature (filler p) u = (true, markPick p u).
Proof.
  intros Hp. destruct (keepFeature_cases (filler p) u) as [H|[H _]].
  - now left.
  - right. now rewrite H, record_filler.
Qed.

Lemma fillLoop_one (idx : nat) (u : Used) :
  fillLoop idx 0 1 u
  = if poolUsed u (firstFree u (idx + 0)) then ([], u)
    else ([filler (firstFree u (idx + 0))],
          markPick (firstFree u (idx + 0)) u).
Proof. rewrite fillLoop_step. reflexivity. Qed.

Lemma fillLoop_two (idx : nat) (u : Used) :
  fillLoop idx 0 2 u
  = if poolUsed u (firstFree u (idx + 0)) then ([], u)
    else
      let u1 := markPick (firstFree u (idx + 0)) u in
      if poolUsed u1 (firstFree u1 (idx + 1))
      then ([filler (firstFree u (idx + 0))], u1)
      else ([filler (firstFree u (idx + 0));
             filler (firstFree u1 (idx + 1))],
            markPick (firstFree u1 (idx + 1)) u1).
Proof.
  rewrite fillLoop_step.
  destruct (poolUsed u (firstFree u (idx + 0))) eqn:E0.
  - rewrite fillLoop_step.
    now rewrite (firstFree_all_used u (idx + 0) (idx + 1) E0).
  - rewrite fillLoop_step. cbv zeta.
    destruct (poolUsed _ (firstFree _ (idx + 1))); reflexivity.
Qed.

(** What the fillers of a section become when the section is processed
    again from the sets it was filled under: those that pass the filter
    stay, the others are chosen again by the fill. *)
Lemma refill (idx todo : nat) (u u1 uS : Used) (F S : list WebFeature) :
  todo <= 2 ->
  fillLoop idx 0 todo u = (F, u1) ->
  filterFeatures F u = (S, uS) ->
  Permutation F (S ++ fst (fillLoop idx 0 (todo - List.length S) uS)).
Proof.
  intros Htodo Hfill Hfilter.
  destruct todo as [|[|[|todo]]]; [| | |lia].
  - cbn [fillLoop] in Hfill. injection Hfill as <- <-.
    cbn [filterFeatures] in Hfilter. injection Hfilter as <- <-.
    constructor.
  - rewrite fillLoop_one in Hfill.
    destruct (poolUsed u (firstFree u (idx + 0))) eqn:E0.
    + injection Hfill as <- <-.
      cbn [filterFeatures] in Hfilter. injection Hfilter as <- <-.
      cbn [List.length Nat.sub app]. rewrite fillLoop_one, E0. constructor.
    + injection Hfill as <- <-. cbn [filterFeatures] in Hfilter.
      destruct (keepFeature_filler _ u (firstFree_In u (idx + 0)))
        as [Hk|Hk]; rewrite Hk in Hfilter; injection Hfilter as <- <-.
      * cbn [List.length Nat.sub app]. rewrite fillLoop_one, E0.
        apply Permutation_refl.
      * cbn [List.length Nat.sub fillLoop fst]. rewrite app_nil_r.
        apply Permutation_refl.
  - rewrite fillLoop_two in Hfill.
    set (p0 := firstFree u (idx + 0)) in *.
    destruct (poolUsed u p0) eqn:E0.
    + injection Hfill as <- <-.
      cbn [filterFeatures] in Hfilter. injection Hfilter as <- <-.
      cbn [List.length Nat.sub app]. rewrite fillLoop_two. fold p0.
      rewrite E0. constructor.
    + cbv zeta in Hfill.
      remember (markPick p0 u) as u' eqn:Hu'.
      remember (firstFree u' (idx + 1)) as p1 eqn:Hp1.
      pose proof (firstFree_In u (idx + 0)) as Hin0. fold p0 in Hin0.
      pose proof (firstFree_In u' (idx + 1)) as Hin1. rewrite <- Hp1 in Hin1.
      destruct (poolUsed u' p1) eqn:E1.
      * injection Hfill as <- <-. cbn [filterFeatures] in Hfilter.
        destruct (keepFeature_filler _ u Hin0) as [Hk|Hk];
          rewrite Hk in Hfilter; injection Hfilter as <- <-.
        -- cbn [List.length Nat.sub app]. rewrite fillLoop_two. fold p0.
           rewrite E0. cbv zeta. rewrite <- Hu', <- Hp1, E1.
           apply Permutation_refl.
        -- cbn [List.length Nat.sub]. rewrite <- Hu', fillLoop_one.
           rewrite Hp1 in E1.
           rewrite (firstFree_all_used u' (idx + 1) (idx + 0) E1).
           apply Permutation_refl.
      * injection Hfill as <- <-. cbn [filterFeatures] in Hfilter.
        pose proof E1 as E1'.
        rewrite Hu', poolUsed_markPick in E1'.
        apply orb_false_iff in E1'. destruct E1' as [E1' En].
        apply orb_false_iff in E1'. destruct E1' as [E1' Ei].
        destruct (keepFeature_filler _ u Hin0) as [Hk|Hk];
          rewrite Hk in Hfilter.
        -- destruct (keepFeature_filler _ u Hin1) as [Hk1|Hk1];
             rewrite Hk1 in Hfilter; injection Hfilter as <- <-.
           ++ cbn [List.length Nat.sub app]. rewrite fillLoop_two. fold p0.
              rewrite E0. cbv zeta. rewrite <- Hu', <- Hp1, E1.
              apply Permutation_refl.
           ++ cbn [List.length Nat.sub]. rewrite fillLoop_one.
              assert (Hfree0 : poolUsed (markPick p1 u) p0 = false).
              { rewrite poolUsed_markPick, E0.
                rewrite String.eqb_sym, Ei, String.eqb_sym, En.
                reflexivity. }
              assert (Hp0 : firstFree (markPick p1 u) (idx + 0) = p0).
              { apply firstFree_mono.
                - intros x. apply poolUsed_markPick_mono.
                - exact Hfree0. }
              rewrite Hp0, Hfree0. cbn [fst app]. apply perm_swap.
        -- rewrite <- Hu' in Hfilter.
           destruct (keepFeature_filler _ u' Hin1) as [Hk1|Hk1];
             rewrite Hk1 in Hfilter; injection Hfilter as <- <-.
           ++ cbn [List.length Nat.sub]. rewrite fillLoop_one.
              assert (Hshift : firstFree u' (idx + 0) = p1).
              { rewrite Hp1.
                replace (idx + 1) with (S (idx + 0)) by lia.
                apply firstFree_shift.
                - rewrite Hu'. apply firstFree_after_mark.
                - replace (S (idx + 0)) with (idx + 1) by lia.
                  rewrite <- Hp1. exact E1. }
              rewrite Hshift, E1. cbn [fst app]. apply Permutation_refl.
           ++ cbn [List.length Nat.sub fillLoop fst]. rewrite app_nil_r.
              apply Permutation_refl.
Qed.

(** ** Running the pass on its own output *)

Lemma map_fixed {A : Type} (f : A -> A) (l : list A) :
  (forall x, In x l -> f x = x) -> map f l = l.
Proof.
  induction l as [|a l IH]; intros H; cbn [map]; [reflexivity|].
  rewrite (H a (or_introl eq_refl)), IH; [reflexivity|].
  intros x Hx. apply H. now right.
Qed.

Lemma processSection_again (idx : nat) (s s1 : AnalysisSection) (u u1 : Used) :
  processSection idx s u = (s1, u1) ->
  Permutation (features s1) (features (fst (processSection idx s1 u))).
Proof.
  intros H.
  destruct (processSection_parts _ _ _ _ _ H)
    as [K [F [uK [HK [HF [Hfeat _]]]]]].
  assert (Henr : map enrich (features s1) = K ++ F).
  { rewrite Hfeat. apply map_fixed. intros x Hx.
    apply in_app_or in Hx. destruct Hx as [Hx|Hx].
    - apply (filterFeatures_sublist _ _ _ _ HK) in Hx.
      apply in_map_iff in Hx. destruct Hx as [g [<- _]].
      apply enrich_idempotent.
    - destruct (fillLoop_adds _ _ _ _ _ _ HF) as [_ Hpool].
      rewrite Forall_forall in Hpool. destruct (Hpool x Hx) as [p [Hp ->]].
      now apply pool_enrich_fixed. }
  rewrite processSection_unfold, Henr, filterFeatures_app.
  rewrite (filterFeatures_kept_again _ _ _ _ HK).
  destruct (filterFeatures F uK) as [S uS] eqn:HS.
  pose proof (refill idx (2 - List.length K) uK u1 uS F S
                ltac:(lia) HF HS) as Hperm.
  replace (2 - List.length (K ++ S))
    with (2 - List.length K - List.length S)
    by (rewrite length_app; lia).
  destruct (fillLoop idx 0 (2 - List.length K - List.length S) uS)
    as [F' u2].
  cbn [fst features webFeatures] in *. rewrite Hfeat, <- app_assoc.
  now apply Permutation_app_head.
Qed.

Lemma existsb_Permutation {A : Type} (P : A -> bool) (l l' : list A) :
  Permutation l l' -> existsb P l = existsb P l'.
Proof.
  intros H. apply eq_true_iff_eq. rewrite !existsb_exists.
  split; intros [x [Hin Hx]]; exists x; split; try exact Hx.
  - exact (Permutation_in _ H Hin).
  - exact (Permutation_in _ (Permutation_sym H) Hin).
Qed.

Lemma flat_map_Permutation {A B : Type} (g : A -> list B) (l l' : list A) :
  Permutation l l' -> Permutation (flat_map g l) (flat_map g l').
Proof.
  induction 1 as [|x l l' _ IH|x y l|l l' l'' _ IH1 _ IH2]; cbn [flat_map].
  - constructor.
  - now apply Permutation_app_head.
  - rewrite !app_assoc. apply Permutation_app_tail.
    apply Permutation_app_comm.
  - now transitivity (flat_map g l').
Qed.

(** Two runs of additions from states with the same members, adding the
    same mentions in some order, end in states with the same members. *)
Lemma adds_same (u v u' v' : Used) (l l' : list WebFeature) :
  sameUsed u v -> Permutation l l' ->
  adds u l u' -> adds v l' v' -> sameUsed u' v'.
Proof.
  intros [Hi Hn] Hperm Au Av. split.
  - intros i. rewrite (adds_ids _ _ _ Au), (adds_ids _ _ _ Av), Hi.
    f_equal. apply existsb_Permutation. now apply flat_map_Permutation.
  - intros n. rewrite (adds_names _ _ _ Au), (adds_names _ _ _ Av), Hn.
    f_equal. apply existsb_Permutation. now apply Permutation_map.
Qed.

Lemma processPlan_again (plan : list AnalysisSection) :
  forall idx u v, sameUsed u v ->
    Forall2 (fun s1 s2 => title s2 = title s1 /\ content s2 = content s1
                          /\ Permutation (features s1) (features s2))
            (fst (processPlan idx plan u))
            (fst (processPlan idx (fst (processPlan idx plan u)) v)).
Proof.
  induction plan as [|s rest IH]; intros idx u v Huv; cbn [processPlan].
  - cbn [fst processPlan]. constructor.
  - destruct (processSection idx s u) as [s1 ua] eqn:E1.
    specialize (IH (S idx) ua).
    destruct (processPlan (S idx) rest ua) as [r1 ub] eqn:E2.
    cbn [fst processPlan] in *.
    pose proof (processSection_again _ _ _ _ _ E1) as Hperm.
    destruct (processSection_same idx s1 u v Huv) as [Hfst _].
    rewrite Hfst in Hperm.
    pose proof (processSection_frame idx s1 v) as [Ht [Hc _]].
    destruct (processSection idx s1 v) as [s2 va] eqn:E3.
    cbn [fst] in Hperm, Ht, Hc.
    assert (Hsame : sameUsed ua va).
    { exact (adds_same _ _ _ _ _ _ Huv Hperm
               (processSection_adds _ _ _ _ _ E1)
               (processSection_adds _ _ _ _ _ E3)). }
    specialize (IH va Hsame).
    destruct (processPlan (S idx) r1 va) as [r2 vb].
    cbn [fst] in *. constructor; [now repeat split|exact IH].
Qed.

Lemma allFeatures_Permutation (l l' : list AnalysisSection) :
  Forall2 (fun s1 s2 => title s2 = title s1 /\ content s2 = content s1
                        /\ Permutation (features s1) (features s2)) l l' ->
  Permutation (allFeatures l) (allFeatures l').
Proof.
  induction 1 as [|s s' l l' [_ [_ Hp]] _ IH]; cbn [allFeatures flat_map].
  - constructor.
  - now apply Permutation_app.
Qed.

(** C2.  Idempotence.  Running the pass on its own output returns, section
    by section, the same mentions up to their order inside the section
    (a filler that fails the variation test on the second run is chosen
    again by the fill).  So the ids and the names present are the same
    after the second run as after the first, and the second output has no
    two mentions with the same normalised name or the same truthy id. *)
Theorem deduplicate_idempotent (plan : list AnalysisSection) :
  Forall2 (fun s1 s2 => title s2 = title s1 /\ content s2 = content s1
                        /\ Permutation (features s1) (features s2))
          (deduplicate plan) (deduplicate (deduplicate plan))
  /\ (forall i, In i (map featureId (allFeatures (deduplicate plan)))
                <-> In i (map featureId
                            (allFeatures (deduplicate (deduplicate plan)))))
  /\ (forall n, In n (map name (allFeatures (deduplicate plan)))
                <-> In n (map name
                            (allFeatures (deduplicate (deduplicate plan)))))
  /\ NoDup (map keyName (allFeatures (deduplicate (deduplicate plan))))
  /\ NoDup (flat_map keyIds (allFeatures (deduplicate (deduplicate plan)))).
Proof.
  pose proof (processPlan_again plan 0 noneUsed noneUsed
                (sameUsed_refl noneUsed)) as H.
  fold (deduplicate plan) in H. fold (deduplicate (deduplicate plan)) in H.
  pose proof (allFeatures_Permutation _ _ H) as Hperm.
  split; [exact H|]. split; [|split; [|split]].
  - intros i. split; apply Permutation_in; [|apply Permutation_sym];
      now apply Permutation_map.
  - intros n. split; apply Permutation_in; [|apply Permutation_sym];
      now apply Permutation_map.
  - exact (proj1 (deduplicate_unique (deduplicate plan))).
  - exact (proj2 (deduplicate_unique (deduplicate plan))).
Qed.

(** * Further properties of the pass *)

Lemma filterFeatures_subseq (fs : list WebFeature) :
  forall u, subseq (fst (filterFeatures fs u)) fs.
Proof.
  induction fs as [|f fs IH]; intros u; cbn [filterFeatures].
  - constructor.
  - destruct (keepFeature f u) as [[|] u1]; specialize (IH u1);
      destruct (filterFeatures fs u1) as [kept u2]; cbn [fst] in *;
      now constructor.
Qed.

Lemma adds_poolUsed_mono (u u' : Used) (l : list WebFeature)
    (p : PoolEntry) :
  adds u l u' -> poolUsed u p = true -> poolUsed u' p = true.
Proof.
  intros A H. unfold poolUsed in *.
  rewrite (adds_ids _ _ _ A), (adds_names _ _ _ A).
  apply orb_true_iff in H. destruct H as [H|H]; rewrite H;
    rewrite ?orb_true_r; reflexivity.
Qed.

Lemma poolExhausted_spec (u : Used) :
  poolExhausted u = true <-> forall m, poolUsed u (poolAt m) = true.
Proof.
  unfold poolExhausted. rewrite forallb_forall. split.
  - intros H m. apply H, poolAt_In.
  - intros H p Hp.
    apply In_nth with (d := {| pool_featureId := ""; pool_name := "" |})
      in Hp.
    destruct Hp as [m [Hm <-]]. specialize (H m). unfold poolAt in H.
    now rewrite Nat.mod_small in H by exact Hm.
Qed.

Lemma poolExhausted_mono (u u' : Used) (l : list WebFeature) :
  adds u l u' -> poolExhausted u = true -> poolExhausted u' = true.
Proof.
  unfold poolExhausted. rewrite !forallb_forall. intros A H p Hp.
  exact (adds_poolUsed_mono _ _ _ _ A (H p Hp)).
Qed.

Lemma fillLoop_length (idx todo : nat) :
  forall i u,
    List.length (fst (fillLoop idx i todo u)) <= todo
    /\ (List.length (fst (fillLoop idx i todo u)) = todo
        \/ poolExhausted (snd (fillLoop idx i todo u)) = true).
Proof.
  induction todo as [|todo IH]; intros i u.
  - cbn [fillLoop fst List.length]. split; [lia|now left].
  - rewrite fillLoop_step.
    destruct (poolUsed u (firstFree u (idx + i))) eqn:E.
    + destruct (IH (S i) u) as [Hle _]. split; [lia|]. right.
      destruct (fillLoop idx (S i) todo u) as [F u'] eqn:EF. cbn [snd].
      apply (poolExhausted_mono u u' F).
      * exact (proj1 (fillLoop_adds _ _ _ _ _ _ EF)).
      * apply poolExhausted_spec.
        destruct (firstFree_spec u (idx + i)) as [_ [_ [_ [_ Hall]]]].
        exact (Hall E).
    + destruct (IH (S i) (markPick (firstFree u (idx + i)) u))
        as [Hle Hfull].
      destruct (fillLoop idx (S i) todo _) as [F u'].
      cbn [fst snd List.length] in *. split; [lia|].
      destruct Hfull as [Hfull|Hfull]; [left; lia|now right].
Qed.

(** The shape of a processed section: the AI mentions that passed the
    filter, enriched and in their order, then at most [2 - kept] fillers,
    each a pool entry. *)
Theorem section_output_shape (idx : nat) (s : AnalysisSection) (u : Used) :
  exists kept fillers,
    features (fst (processSection idx s u)) = kept ++ fillers
    /\ subseq kept (map enrich (features s))
    /\ List.length fillers <= 2 - List.length kept
    /\ Forall isFiller fillers
    /\ (2 <= List.length kept -> fillers = []).
Proof.
  destruct (processSection idx s u) as [s' u'] eqn:E.
  destruct (processSection_parts _ _ _ _ _ E)
    as [kept [fillers [u1 [Hk [Hf [Hfeat _]]]]]].
  exists kept, fillers. cbn [fst].
  pose proof (filterFeatures_subseq (map enrich (features s)) u) as Hsub.
  rewrite Hk in Hsub.
  pose proof (fillLoop_length idx (2 - List.length kept) 0 u1) as [Hle _].
  rewrite Hf in Hle. cbn [fst] in *.
  repeat split; try assumption.
  - exact (proj2 (fillLoop_adds _ _ _ _ _ _ Hf)).
  - intros H2. destruct fillers; [reflexivity|]. cbn [List.length] in Hle.
    lia.
Qed.

Lemma processSection_min (idx : nat) (s s' : AnalysisSection) (u u' : Used) :
  processSection idx s u = (s', u') ->
  2 <= List.length (features s') \/ poolExhausted u' = true.
Proof.
  intros E.
  destruct (processSection_parts _ _ _ _ _ E)
    as [kept [fillers [u1 [Hk [Hf [Hfeat _]]]]]].
  pose proof (fillLoop_length idx (2 - List.length kept) 0 u1) as [_ Hfull].
  rewrite Hf in Hfull. cbn [fst snd] in Hfull.
  destruct Hfull as [Hfull|Hfull]; [left|now right].
  rewrite Hfeat, length_app. lia.
Qed.

Lemma processPlan_min (plan : list AnalysisSection) :
  forall idx u out u',
    processPlan idx plan u = (out, u') ->
    forall s', In s' out ->
      2 <= List.length (features s') \/ poolExhausted u' = true.
Proof.
  induction plan as [|s rest IH]; intros idx u out u' H s' Hin;
    cbn [processPlan] in H.
  - injection H as <- <-. destruct Hin.
  - destruct (processSection idx s u) as [s1 u1] eqn:E1.
    destruct (processPlan (S idx) rest u1) as [rest' u2] eqn:E2.
    injection H as <- <-. destruct Hin as [<-|Hin].
    + destruct (processSection_min _ _ _ _ _ E1) as [H2|Hex];
        [now left|right].
      exact (poolExhausted_mono _ _ _ (processPlan_adds _ _ _ _ _ E2) Hex).
    + exact (IH _ _ _ _ E2 _ Hin).
Qed.

(** Every section of the returned plan has at least two mentions, unless
    the pass ended with all sixteen pool entries used. *)
Theorem two_mentions_or_pool_exhausted (plan : list AnalysisSection)
    (s' : AnalysisSection) :
  In s' (deduplicate plan) ->
  2 <= List.length (features s')
  \/ poolExhausted (snd (runPass plan)) = true.
Proof.
  unfold deduplicate, runPass. intros Hin.
  destruct (processPlan 0 plan noneUsed) as [out u'] eqn:E.
  exact (processPlan_min _ _ _ _ _ E _ Hin).
Qed.

Lemma two_mentions_or_pool_exhausted_witness :
  let plan := [sectionOf "Layout" []; sectionOf "Data" [mention "Fetch API"]] in
  In (nth 1 (deduplicate plan) (sectionOf "" [])) (deduplicate plan)
  /\ (2 <= List.length
            (features (nth 1 (deduplicate plan) (sectionOf "" [])))
      \/ poolExhausted (snd (runPass plan)) = true).
Proof.
  cbv zeta.
  set (plan := [sectionOf "Layout" []; sectionOf "Data" [mention "Fetch API"]]).
  assert (H : In (nth 1 (deduplicate plan) (sectionOf "" []))
                 (deduplicate plan))
    by (apply nth_In; vm_compute; lia).
  split; [exact H|].
  exact (two_mentions_or_pool_exhausted plan _ H).
Defined.

(** ** What the two sets hold at the end *)

Lemma record_lists (f : WebFeature) (u : Used) :
  fresh f u ->
  allUsedFeatureNames (record f u) = allUsedFeatureNames u ++ [keyName f]
  /\ allUsedFeatureIds (record f u) = allUsedFeatureIds u ++ keyIds f.
Proof.
  intros [Hid Hname]. unfold record, addUsedName, keyIds, idTaken in *.
  destruct (featureId f) as [i|]; [destruct (truthyId i)|];
    cbn [allUsedFeatureNames allUsedFeatureIds addUsedId andb] in *;
    unfold addName, addId; rewrite ?Hname, ?Hid, ?app_nil_r; now split.
Qed.

Lemma adds_lists (u u' : Used) (l : list WebFeature) :
  adds u l u' ->
  allUsedFeatureNames u' = allUsedFeatureNames u ++ map keyName l
  /\ allUsedFeatureIds u' = allUsedFeatureIds u ++ flat_map keyIds l.
Proof.
  induction 1 as [u|u f l u' Hf _ [IHn IHi]]; cbn [map flat_map].
  - now rewrite !app_nil_r.
  - destruct (record_lists f u Hf) as [Hn Hi].
    rewrite IHn, IHi, Hn, Hi, <- !app_assoc. now split.
Qed.

(** The sets the pass ends with list the mentions of the returned plan:
    the names in plan order, lower-cased and trimmed, and the truthy ids
    in plan order.  So the two sizes the pass logs are the number of
    mentions returned and the number of those with a truthy id. *)
Theorem used_sets_account_for_output (plan : list AnalysisSection) :
  allUsedFeatureNames (snd (runPass plan))
  = map keyName (allFeatures (deduplicate plan))
  /\ allUsedFeatureIds (snd (runPass plan))
     = flat_map keyIds (allFeatures (deduplicate plan))
  /\ List.length (allUsedFeatureNames (snd (runPass plan)))
     = List.length (allFeatures (deduplicate plan))
  /\ List.length (allUsedFeatureIds (snd (runPass plan)))
     = List.length (filter (fun f => truthyOpt (featureId f))
                           (allFeatures (deduplicate plan))).
Proof.
  unfold deduplicate, runPass.
  destruct (processPlan 0 plan noneUsed) as [out u'] eqn:E. cbn [fst snd].
  destruct (adds_lists _ _ _ (processPlan_adds _ _ _ _ _ E)) as [Hn Hi].
  cbn [noneUsed allUsedFeatureNames allUsedFeatureIds app] in Hn, Hi.
  rewrite Hn, Hi. split; [reflexivity|]. split; [reflexivity|]. split.
  - apply length_map.
  - clear. induction (allFeatures out) as [|f l IH]; [reflexivity|].
    cbn [flat_map filter]. rewrite length_app, IH. unfold keyIds, truthyOpt.
    destruct (featureId f) as [i|]; [destruct (truthyId i)|]; reflexivity.
Qed.

(** ** Mentions of the output are told apart by name and by id *)

Lemma NoDup_map_injective {A B : Type} (k : A -> B) (l : list A) (x y : A) :
  NoDup (map k l) -> In x l -> In y l -> k x = k y -> x = y.
Proof.
  induction l as [|a l IH]; intros Hnd Hx Hy E; [destruct Hx|].
  cbn [map] in Hnd. inversion Hnd as [|? ? Hnotin Hnd']; subst.
  destruct Hx as [->|Hx], Hy as [->|Hy]; try reflexivity.
  - exfalso. apply Hnotin. rewrite E. now apply in_map.
  - exfalso. apply Hnotin. rewrite <- E. now apply in_map.
  - exact (IH Hnd' Hx Hy E).
Qed.

Lemma NoDup_flat_map_injective (l : list WebFeature) (x y : WebFeature)
    (i : IdValue) :
  NoDup (flat_map keyIds l) -> In x l -> In y l ->
  In i (keyIds x) -> In i (keyIds y) -> x = y.
Proof.
  induction l as [|a l IH]; intros Hnd Hx Hy Hix Hiy; [destruct Hx|].
  cbn [flat_map] in Hnd.
  assert (Hin : forall z, In z l -> In i (keyIds z) ->
                          In i (flat_map keyIds l))
    by (intros z Hz Hiz; apply in_flat_map; now exists z).
  assert (Hdisj : forall z, In z l -> In i (keyIds a) -> In i (keyIds z) ->
                            False).
  { intros z Hz Hia Hiz. clear IH.
    induction (keyIds a) as [|j ks IHk]; [destruct Hia|].
    cbn [app] in Hnd. inversion Hnd as [|? ? Hnotin Hnd']; subst.
    destruct Hia as [->|Hia].
    - apply Hnotin. apply in_or_app. right. exact (Hin z Hz Hiz).
    - exact (IHk Hnd' Hia). }
  destruct Hx as [->|Hx], Hy as [->|Hy]; try reflexivity.
  - exfalso. exact (Hdisj y Hy Hix Hiy).
  - exfalso. exact (Hdisj x Hx Hiy Hix).
  - apply IH; try assumption.
    clear -Hnd. induction (keyIds a) as [|j ks IHk]; [exact Hnd|].
    cbn [app] in Hnd. inversion Hnd; subst. auto.
Qed.

(** Whatever the plan, two mentions of the returned plan that have the
    same normalised name, or the same truthy id, are one and the same
    mention. *)
Theorem output_mentions_distinct (plan : list AnalysisSection)
    (f g : WebFeature)
    (Hf : In f (allFeatures (deduplicate plan)))
    (Hg : In g (allFeatures (deduplicate plan)))
    (Hsame : normalizedNameOf (name f) = normalizedNameOf (name g)
             \/ (featureId f = featureId g
                 /\ truthyOpt (featureId f) = true)) :
  f = g.
Proof.
  destruct (deduplicate_unique plan) as [Hn Hi].
  destruct Hsame as [E|[E Ht]].
  - exact (NoDup_map_injective keyName _ f g Hn Hf Hg E).
  - destruct (featureId f) as [i|] eqn:Ef; [|discriminate].
    cbn [truthyOpt] in Ht.
    apply (NoDup_flat_map_injective _ f g i Hi Hf Hg).
    + rewrite (keyIds_truthy f i Ef Ht). now left.
    + rewrite (keyIds_truthy g i (eq_sym E) Ht). now left.
Qed.

Lemma output_mentions_distinct_witness :
  let plan := [sectionOf "Layout" [mention "CSS Grid"];
               sectionOf "Data" [mention "Fetch API"]] in
  let f := enrich (mention "CSS Grid") in
  let g := nth 0 (allFeatures (deduplicate plan)) (mention "") in
  In f (allFeatures (deduplicate plan))
  /\ In g (allFeatures (deduplicate plan))
  /\ (normalizedNameOf (name f) = normalizedNameOf (name g)
      \/ (featureId f = featureId g /\ truthyOpt (featureId f) = true))
  /\ f = g.
Proof.
  cbv zeta.
  set (plan := [sectionOf "Layout" [mention "CSS Grid"];
                sectionOf "Data" [mention "Fetch API"]]).
  assert (Hf : In (enrich (mention "CSS Grid"))
                  (allFeatures (deduplicate plan)))
    by (vm_compute; now left).
  assert (Hg : In (nth 0 (allFeatures (deduplicate plan)) (mention ""))
                  (allFeatures (deduplicate plan)))
    by (apply nth_In; vm_compute; lia).
  assert (Hs : normalizedNameOf (name (enrich (mention "CSS Grid")))
               = normalizedNameOf
                   (name (nth 0 (allFeatures (deduplicate plan))
                              (mention "")))
               \/ (featureId (enrich (mention "CSS Grid"))
                   = featureId (nth 0 (allFeatures (deduplicate plan))
                                    (mention ""))
                   /\ truthyOpt (featureId (enrich (mention "CSS Grid")))
                      = true))
    by (left; vm_compute; reflexivity).
  split; [exact Hf|]. split; [exact Hg|]. split; [exact Hs|].
  exact (output_mentions_distinct plan _ _ Hf Hg Hs).
Defined.

(** ** A blank name *)

Lemma keepFeature_after_blank (f : WebFeature) (u : Used) :
  hasName "" (allUsedFeatureNames u) = true -> keepFeature f u = (false, u).
Proof.
  intros H. destruct (keepFeature_cases f u) as [Hk|[_ [_ Hv]]];
    [exact Hk|].
  assert (existsb (isVariation (keyName f)) (allUsedFeatureNames u) = true).
  { apply existsb_exists. exists "". split; [now apply hasName_In|].
    unfold isVariation. now rewrite includes_empty. }
  congruence.
Qed.

Lemma filterFeatures_after_blank (fs : list WebFeature) (u : Used) :
  hasName "" (allUsedFeatureNames u) = true -> filterFeatures fs u = ([], u).
Proof.
  intros H. induction fs as [|f fs IH]; cbn [filterFeatures];
    [reflexivity|].
  now rewrite (keepFeature_after_blank f u H), IH.
Qed.

Lemma processPlan_after_blank (plan : list AnalysisSection) :
  forall idx u,
    hasName "" (allUsedFeatureNames u) = true ->
    Forall isFiller (allFeatures (fst (processPlan idx plan u))).
Proof.
  induction plan as [|s rest IH]; intros idx u H; cbn [processPlan].
  - constructor.
  - destruct (processSection idx s u) as [s1 u1] eqn:E1.
    specialize (IH (S idx) u1).
    destruct (processPlan (S idx) rest u1) as [rest' u2].
    cbn [fst allFeatures flat_map] in *. apply Forall_app. split.
    + destruct (processSection_parts _ _ _ _ _ E1)
        as [kept [fillers [uk [Hk [Hf [Hfeat _]]]]]].
      rewrite (filterFeatures_after_blank _ u H) in Hk.
      injection Hk as <- <-. rewrite Hfeat. cbn [app].
      exact (proj2 (fillLoop_adds _ _ _ _ _ _ Hf)).
    + apply IH.
      rewrite (adds_names _ _ _ (processSection_adds _ _ _ _ _ E1)), H.
      reflexivity.
Qed.

(** A mention whose name is blank (empty once lower-cased and trimmed),
    coming first in the plan, is kept, and from then on every AI mention
    of the plan counts as a variation of it: the returned plan holds that
    mention and, apart from it, pool fillers only. *)
Theorem blank_first_name_blocks_all (s0 : AnalysisSection)
    (rest : list AnalysisSection) (m : WebFeature) (ms : list WebFeature)
    (Hfirst : features s0 = m :: ms)
    (Hblank : normalizedNameOf (name m) = "") :
  exists others,
    allFeatures (deduplicate (s0 :: rest)) = enrich m :: others
    /\ Forall isFiller others.
Proof.
  unfold deduplicate. cbn [processPlan].
  destruct (processSection 0 s0 noneUsed) as [o0 u1] eqn:E0.
  pose proof (processPlan_after_blank rest 1 u1) as Hrest.
  destruct (processPlan 1 rest u1) as [orest u2].
  cbn [fst allFeatures flat_map] in *.
  destruct (processSection_parts _ _ _ _ _ E0)
    as [kept [fillers [uk [Hk [Hf [Hfeat _]]]]]].
  rewrite Hfirst in Hk. cbn [map filterFeatures] in Hk.
  assert (Hkey : keyName (enrich m) = "") by exact Hblank.
  destruct (keepFeature_cases (enrich m) noneUsed) as [Hdrop|[Hkeep _]].
  - exfalso. unfold keepFeature in Hdrop.
    cbn [noneUsed allUsedFeatureIds allUsedFeatureNames hasId hasName
         existsb orb] in Hdrop.
    destruct (featureId (enrich m)) as [i|];
      rewrite ?andb_false_r in Hdrop; discriminate.
  - rewrite Hkeep in Hk.
    assert (Hu : hasName "" (allUsedFeatureNames (record (enrich m) noneUsed))
                 = true)
      by (rewrite record_names, Hkey, String.eqb_refl; apply orb_true_r).
    rewrite (filterFeatures_after_blank _ _ Hu) in Hk.
    injection Hk as <- <-.
    exists (fillers ++ allFeatures orest). split.
    + rewrite Hfeat. reflexivity.
    + apply Forall_app. split.
      * exact (proj2 (fillLoop_adds _ _ _ _ _ _ Hf)).
      * apply Hrest.
        rewrite (adds_names _ _ _ (processSection_adds _ _ _ _ _ E0)).
        rewrite Hfeat. apply orb_true_iff. right. apply existsb_exists.
        exists "". split; [|reflexivity]. cbn [app map]. left. exact Hkey.
Qed.

Lemma blank_first_name_blocks_all_witness :
  let s0 := sectionOf "Layout" [mention "  "; mention "CSS Grid"] in
  let rest := [sectionOf "Data" [mention "Fetch API"; mention "WebSocket"]] in
  features s0 = mention "  " :: [mention "CSS Grid"]
  /\ normalizedNameOf (name (mention "  ")) = ""
  /\ exists others,
       allFeatures (deduplicate (s0 :: rest)) = enrich (mention "  ") :: others
       /\ Forall isFiller others.
Proof.
  cbv zeta. split; [reflexivity|]. split; [vm_compute; reflexivity|].
  apply (blank_first_name_blocks_all
           (sectionOf "Layout" [mention "  "; mention "CSS Grid"])
           [sectionOf "Data" [mention "Fetch API"; mention "WebSocket"]]
           (mention "  ") [mention "CSS Grid"]).
  - reflexivity.
  - vm_compute. reflexivity.
Defined.

(** ** Ids by name on the shipped index *)

Lemma fuzzyScan_value (n : string) (index : list (string * string))
    (r : IdValue) :
  fuzzyScan n index = Some r ->
  exists k v, In (k, v) index /\ r = IdString v.
Proof.
  induction index as [|[alias i] index IH]; cbn [fuzzyScan];
    [discriminate|].
  destruct (Js.includes n alias || Js.includes alias n).
  - intros [= <-]. exists alias, i. split; [now left|reflexivity].
  - intros H. destruct (IH H) as [k [v [Hin ->]]].
    exists k, v. split; [now right|reflexivity].
Qed.

Lemma resolveFeatureIdByName_truthy (n : string) :
  exists r, resolveFeatureIdByName n = Some r /\ truthyId r = true.
Proof.
  pose proof (resolveFeatureIdByName_defined n) as Hdef.
  unfold resolveFeatureIdByName, resolveIn in *.
  assert (Hscan : forall r, fuzzyScan (normalize n) aliasIndex = Some r ->
                            truthyId r = true).
  { intros r Hr. destruct (fuzzyScan_value _ _ _ Hr) as [k [v [Hin ->]]].
    pose proof aliasIndex_values_truthy as Hall.
    rewrite forallb_forall in Hall. exact (Hall _ Hin). }
  destruct (getProp aliasIndex (normalize n)) as [v|].
  - destruct (truthyId v) eqn:Tv.
    + now exists v.
    + destruct (fuzzyScan (normalize n) aliasIndex) as [r|] eqn:Er;
        [|contradiction].
      exists r. split; [reflexivity|exact (Hscan r eq_refl)].
  - destruct (fuzzyScan (normalize n) aliasIndex) as [r|] eqn:Er;
      [|contradiction].
    exists r. split; [reflexivity|exact (Hscan r eq_refl)].
Qed.

Lemma enrich_truthy_id (f : WebFeature) :
  name f <> "" -> truthyOpt (featureId (enrich f)) = true.
Proof.
  intros Hname. unfold enrich. cbn [featureId].
  assert (Tn : Js.truthy (name f) = true).
  { unfold Js.truthy. apply negb_true_iff. now apply String.eqb_neq. }
  rewrite Tn. destruct (resolveFeatureIdByName_truthy (name f))
    as [r [Er Tr]].
  rewrite Er. destruct (truthyOpt (featureId f)) eqn:Tf.
  - now rewrite Tf.
  - cbn [truthyOpt]. now rewrite Tr.
Qed.

(** With the shipped tables every mention of the returned plan is a fixed
    point of the enrichment, and every one with a non-empty name carries a
    truthy id: a name that matches no alias still gets the id of the first
    index entry it contains or is contained in, the empty key at the
    latest. *)
Theorem output_mentions_enriched (plan : list AnalysisSection)
    (f : WebFeature)
    (Hf : In f (allFeatures (deduplicate plan))) :
  enrich f = f
  /\ (name f <> "" -> truthyOpt (featureId f) = true).
Proof.
  unfold allFeatures in Hf. apply in_flat_map in Hf.
  destruct Hf as [s' [Hs' Hf]]. unfold deduplicate in Hs'.
  assert (Hsec : forall pl idx u s', In s' (fst (processPlan idx pl u)) ->
            exists s i v, s' = fst (processSection i s v)).
  { induction pl as [|s rest IH]; intros idx u t Hin;
      cbn [processPlan] in Hin; [destruct Hin|].
    destruct (processSection idx s u) as [s1 u1] eqn:E1.
    specialize (IH (S idx) u1 t).
    destruct (processPlan (S idx) rest u1) as [rest' u2].
    cbn [fst] in *. destruct Hin as [<-|Hin]; [|exact (IH Hin)].
    exists s, idx, u. now rewrite E1. }
  destruct (Hsec _ _ _ _ Hs') as [s [i [v ->]]].
  destruct (processSection i s v) as [s' u'] eqn:E. cbn [fst] in Hf.
  destruct (processSection_parts _ _ _ _ _ E)
    as [kept [fillers [uk [Hk [Hfl [Hfeat _]]]]]].
  rewrite Hfeat in Hf. apply in_app_or in Hf. destruct Hf as [Hf|Hf].
  - apply (filterFeatures_sublist _ _ _ _ Hk) in Hf.
    apply in_map_iff in Hf. destruct Hf as [g [<- _]]. split.
    + apply enrich_idempotent.
    + cbn [name enrich]. apply enrich_truthy_id.
  - pose proof (proj2 (fillLoop_adds _ _ _ _ _ _ Hfl)) as Hpool.
    rewrite Forall_forall in Hpool. destruct (Hpool f Hf) as [p [Hp ->]].
    split; [now apply pool_enrich_fixed|]. intros _.
    cbn [filler featureId truthyOpt truthyId]. now apply pool_truthy.
Qed.

Lemma output_mentions_enriched_witness :
  let plan := [sectionOf "Layout" [mentionWithId "vendor.widget" "zzz"]] in
  let f := nth 0 (allFeatures (deduplicate plan)) (mention "") in
  In f (allFeatures (deduplicate plan))
  /\ enrich f = f
  /\ (name f <> "" -> truthyOpt (featureId f) = true).
Proof.
  cbv zeta.
  set (plan := [sectionOf "Layout" [mentionWithId "vendor.widget" "zzz"]]).
  assert (H : In (nth 0 (allFeatures (deduplicate plan)) (mention ""))
                 (allFeatures (deduplicate plan)))
    by (apply nth_In; vm_compute; lia).
  split; [exact H|]. exact (output_mentions_enriched plan _ H).
Defined.

(** * Further properties of the enricher *)

Lemma dataset_keys_are_ids :
  forallb (fun e => String.eqb (fst e) (WebFeaturesData.id (snd e)))
          WEB_FEATURES_DATA = true.
Proof. vm_compute. reflexivity. Qed.

Lemma mock_keys_in_dataset :
  forallb (fun e => match Js.getOwn (fst e) WEB_FEATURES_DATA with
                    | Some _ => true
                    | None => false
                    end) mockFeatures = true.
Proof. vm_compute. reflexivity. Qed.

Lemma aliasIndex_values_in_dataset :
  forallb (fun e => match Js.getOwn (snd e) WEB_FEATURES_DATA with
                    | Some _ => true
                    | None => false
                    end) aliasIndex = true.
Proof. vm_compute. reflexivity. Qed.

Lemma status_from_dataset (i : IdValue) (r : FeatureBaselineStatus) :
  getFeatureBaselineStatus i = Some r ->
  exists key rec,
    i = IdString key
    /\ Js.getOwn key WEB_FEATURES_DATA = Some rec
    /\ r = snapshot BROWSER_SUPPORT_MAP (WebFeaturesData.status rec)
             (Some (WebFeaturesData.title rec))
             (Some (WebFeaturesData.id rec)).
Proof.
  intros Hr. unfold getFeatureBaselineStatus, baselineStatusIn in Hr.
  destruct i as [key|]; [|discriminate].
  destruct (Js.getOwn key WEB_FEATURES_DATA) as [rec|] eqn:Ed.
  - injection Hr as <-. exists key, rec.
    split; [reflexivity|]. split; [exact Ed|reflexivity].
  - exfalso. destruct (Js.getOwn key mockFeatures) as [m|] eqn:Em;
      [|discriminate].
    pose proof mock_keys_in_dataset as Hall.
    rewrite forallb_forall in Hall.
    specialize (Hall _ (getOwn_In _ _ _ Em)).
    cbv beta iota delta [fst snd] in Hall. now rewrite Ed in Hall.
Qed.

(** A defined result always comes from the curated dataset, every key of
    the legacy mock table being a dataset key too, and it echoes the key:
    its [id] is the id asked for and its [title] the record's title. *)
Theorem baseline_status_echoes_key (i : IdValue) (r : FeatureBaselineStatus)
    (Hr : getFeatureBaselineStatus i = Some r) :
  exists key rec,
    i = IdString key
    /\ Js.getOwn key WEB_FEATURES_DATA = Some rec
    /\ id r = Some key
    /\ WebFeaturesService.title r = Some (WebFeaturesData.title rec)
    /\ status r
       = statusBaseline
           (WebFeaturesData.baseline (WebFeaturesData.status rec)).
Proof.
  destruct (status_from_dataset i r Hr) as [key [rec [Ei [Ed Er]]]].
  exists key, rec.
  pose proof dataset_keys_are_ids as Hall.
  rewrite forallb_forall in Hall.
  specialize (Hall _ (getOwn_In _ _ _ Ed)).
  cbv beta iota delta [fst snd] in Hall. apply String.eqb_eq in Hall.
  rewrite Er. cbn [snapshot id WebFeaturesService.title status].
  rewrite <- Hall. split; [exact Ei|]. split; [exact Ed|].
  repeat split.
Qed.

Lemma baseline_status_echoes_key_witness :
  exists r,
    getFeatureBaselineStatus (IdString "api.fetch") = Some r
    /\ exists key rec,
         IdString "api.fetch" = IdString key
         /\ Js.getOwn key WEB_FEATURES_DATA = Some rec
         /\ id r = Some key
         /\ WebFeaturesService.title r = Some (WebFeaturesData.title rec)
         /\ status r
            = statusBaseline
                (WebFeaturesData.baseline (WebFeaturesData.status rec)).
Proof.
  eexists. split; [vm_compute; reflexivity|].
  apply (baseline_status_echoes_key (IdString "api.fetch")).
  vm_compute; reflexivity.
Defined.

Lemma supportOf_keys (sup : list (string * SupportValue)) :
  map fst (supportOf BROWSER_SUPPORT_MAP sup)
  = ["chrome"; "edge"; "firefox"; "safari"].
Proof. reflexivity. Qed.

(** The [support] object of a result has exactly the four tracked
    browsers, in the order of [BROWSER_SUPPORT_MAP]; [versions] has no
    other key (the mobile entries of a record are never copied), and a
    browser shown as supported always has its version or flag there. *)
Theorem baseline_status_shape (i : IdValue) (r : FeatureBaselineStatus)
    (Hr : getFeatureBaselineStatus i = Some r) :
  map fst (support r) = ["chrome"; "edge"; "firefox"; "safari"]
  /\ (forall b v, Js.getOwn b (versions r) = Some v ->
                  In b ["chrome"; "edge"; "firefox"; "safari"])
  /\ (forall b, Js.getOwn b (support r) = Some true ->
                Js.getOwn b (versions r) <> None).
Proof.
  assert (Hshape : forall st t k,
            let r := snapshot BROWSER_SUPPORT_MAP st t k in
            map fst (support r) = ["chrome"; "edge"; "firefox"; "safari"]
            /\ (forall b v, Js.getOwn b (versions r) = Some v ->
                            In b ["chrome"; "edge"; "firefox"; "safari"])
            /\ (forall b, Js.getOwn b (support r) = Some true ->
                          Js.getOwn b (versions r) <> None)).
  { intros st t k. cbv zeta. cbn [snapshot support versions].
    generalize (WebFeaturesData.support st) as sup. intros sup.
    split; [reflexivity|].
    unfold versionsOf, supportOf.
    cbn [BROWSER_SUPPORT_MAP map fst fold_left].
    destruct (Js.getOwn "chrome" sup) as [vc|];
      destruct (Js.getOwn "edge" sup) as [ve|];
      destruct (Js.getOwn "firefox" sup) as [vf|];
      destruct (Js.getOwn "safari" sup) as [vs|];
      cbn [Js.setProp String.eqb Ascii.eqb Bool.eqb supportFlag];
      (split;
       [ intros b v Hv; cbn [Js.getOwn] in Hv;
         repeat match type of Hv with
                | (if String.eqb ?k b then _ else _) = _ =>
                    let E := fresh "E" in
                    destruct (String.eqb k b) eqn:E;
                    [apply String.eqb_eq in E; subst b; cbn [In]; tauto|]
                end; discriminate
       | intros b Hb; cbn [Js.getOwn] in Hb |- *;
         repeat match type of Hb with
                | (if String.eqb ?k b then _ else _) = _ =>
                    destruct (String.eqb k b);
                    [try discriminate; try (injection Hb as Hb)|]
                end; try discriminate ]). }
  unfold getFeatureBaselineStatus, baselineStatusIn in Hr.
  destruct i as [key|]; [|discriminate].
  destruct (Js.getOwn key WEB_FEATURES_DATA) as [rec|].
  - injection Hr as <-. apply Hshape.
  - destruct (Js.getOwn key mockFeatures) as [m|]; [|discriminate].
    injection Hr as <-. apply Hshape.
Qed.

Lemma baseline_status_shape_witness :
  exists r,
    getFeatureBaselineStatus (IdString "css.properties.grid") = Some r
    /\ map fst (support r) = ["chrome"; "edge"; "firefox"; "safari"]
    /\ (forall b v, Js.getOwn b (versions r) = Some v ->
                    In b ["chrome"; "edge"; "firefox"; "safari"])
    /\ (forall b, Js.getOwn b (support r) = Some true ->
                  Js.getOwn b (versions r) <> None).
Proof.
  eexists. split; [vm_compute; reflexivity|].
  apply (baseline_status_shape (IdString "css.properties.grid")).
  vm_compute; reflexivity.
Defined.

Lemma aliasIndex_no_constructor :
  Js.getOwn "constructor" aliasIndex = None.
Proof. vm_compute. reflexivity. Qed.

Lemma aliasIndex_value_known (k v : string) :
  In (k, v) aliasIndex -> getFeatureBaselineStatus (IdString v) <> None.
Proof.
  intros Hin. pose proof aliasIndex_values_in_dataset as Hall.
  rewrite forallb_forall in Hall. specialize (Hall _ Hin).
  cbv beta iota delta [fst snd] in Hall.
  unfold getFeatureBaselineStatus, baselineStatusIn.
  destruct (Js.getOwn v WEB_FEATURES_DATA); discriminate.
Qed.

Lemma resolveFeatureIdByName_cases (n : string) :
  (normalize n = "constructor"
   /\ resolveFeatureIdByName n = Some IdObjectConstructor)
  \/ (normalize n <> "constructor"
      /\ exists k v, In (k, v) aliasIndex
                     /\ resolveFeatureIdByName n = Some (IdString v)).
Proof.
  pose proof (resolveFeatureIdByName_defined n) as Hdef.
  unfold resolveFeatureIdByName, resolveIn, getProp in *.
  assert (Hscan : forall r, fuzzyScan (normalize n) aliasIndex = Some r ->
            exists k v, In (k, v) aliasIndex /\ Some r = Some (IdString v)).
  { intros r Hr. destruct (fuzzyScan_value _ _ _ Hr) as [k [v [Hin ->]]].
    exists k, v. split; [exact Hin|reflexivity]. }
   destruct (Js.getOwn (normalize n) aliasIndex) as [v|] eqn:Eown.
  - right. split.
    + intros E. rewrite E, aliasIndex_no_constructor in Eown.
      discriminate.
    + exists (normalize n), v. split; [exact (getOwn_In _ _ _ Eown)|].
      cbn [truthyId]. rewrite (aliasIndex_truthy _ _ Eown). reflexivity.
  - destruct (String.eqb (normalize n) "constructor") eqn:Ec.
    + left. apply String.eqb_eq in Ec. split; [exact Ec|].
      cbn [truthyId]. reflexivity.
    + right. apply String.eqb_neq in Ec. split; [exact Ec|].
      destruct (fuzzyScan (normalize n) aliasIndex) as [r|];
        [exact (Hscan r eq_refl)|contradiction].
Qed.

Lemma byName_none_iff (n : string) :
  getFeatureBaselineByName n = None <-> normalize n = "constructor".
Proof.
  unfold getFeatureBaselineByName.
  destruct (resolveFeatureIdByName_cases n)
    as [[Ec E]|[Ec [k [v [Hin E]]]]]; rewrite E; cbv zeta; cbn [truthyId].
  - split; intros _; [exact Ec|reflexivity].
  - pose proof aliasIndex_values_truthy as Hall.
    rewrite forallb_forall in Hall. specialize (Hall _ Hin).
    cbv beta iota delta [snd] in Hall. rewrite Hall. split.
    + intros H. exfalso. exact (aliasIndex_value_known _ _ Hin H).
    + intros E'. contradiction.
Qed.

(** With the shipped tables the lookup by name fails for one kind of name
    only: those that normalise to [constructor], for which the index read
    yields the inherited function instead of an id.  Every other name, be
    it unrelated to any feature, gets the snapshot of a dataset record,
    the one whose key the resolver returns. *)
Theorem baseline_by_name_unknown_iff (featureName : string) :
  (getFeatureBaselineByName featureName = None
   <-> normalize featureName = "constructor")
  /\ (forall r, getFeatureBaselineByName featureName = Some r ->
        exists key rec,
          resolveFeatureIdByName featureName = Some (IdString key)
          /\ Js.getOwn key WEB_FEATURES_DATA = Some rec
          /\ r = snapshot BROWSER_SUPPORT_MAP (WebFeaturesData.status rec)
                   (Some (WebFeaturesData.title rec))
                   (Some (WebFeaturesData.id rec))).
Proof.
  split; [exact (byName_none_iff featureName)|].
  intros r Hr. unfold getFeatureBaselineByName in Hr. cbv zeta in Hr.
  destruct (resolveFeatureIdByName featureName) as [i|]; [|discriminate].
  destruct (truthyId i); [|discriminate].
  destruct (status_from_dataset i r Hr) as [key [rec [Ei [Ed Er]]]].
  exists key, rec. rewrite Ei. split; [reflexivity|].
  split; [exact Ed|exact Er].
Qed.

(** * The normal form of names *)

Lemma plain_not_upper (c : ascii) : isPlain c = true -> Js.lowerChar c = c.
Proof.
  destruct c as [[|] [|] [|] [|] [|] [|] [|] [|]]; vm_compute;
    intros H; try reflexivity; discriminate.
Qed.

Lemma plain_kept (c : ascii) : isPlain c = true -> isKept c = true.
Proof.
  destruct c as [[|] [|] [|] [|] [|] [|] [|] [|]]; vm_compute;
    intros H; try reflexivity; discriminate.
Qed.

Lemma plain_space (c : ascii) :
  isPlain c = true -> Js.isSpace c = true -> c = " "%char.
Proof.
  destruct c as [[|] [|] [|] [|] [|] [|] [|] [|]]; vm_compute;
    intros H H'; try reflexivity; discriminate.
Qed.

Lemma kept_plain (c : ascii) :
  isKept c = true -> Js.isSpace c = false -> isPlain c = true.
Proof.
  destruct c as [[|] [|] [|] [|] [|] [|] [|] [|]]; vm_compute;
    intros H H'; try reflexivity; discriminate.
Qed.

Lemma allChars_filterChars (P : ascii -> bool) (s : string) :
  allChars P (Js.filterChars P s) = true.
Proof.
  induction s as [|c s IH]; cbn [Js.filterChars allChars]; [reflexivity|].
  destruct (P c) eqn:E; cbn [allChars]; [now rewrite E|exact IH].
Qed.

Lemma collapse_shape (s : string) :
  allChars isKept s = true ->
  forall b,
    allChars isPlain (Js.collapseSpaces b s) = true
    /\ noDoubleSpace (Js.collapseSpaces b s) = true
    /\ (b = true -> startsWithSpace (Js.collapseSpaces b s) = false).
Proof.
  induction s as [|c s IH]; intros Hk b; cbn [Js.collapseSpaces].
  - repeat split.
  - cbn [allChars] in Hk. apply andb_true_iff in Hk. destruct Hk as [Hc Hs].
    destruct (Js.isSpace c) eqn:Ec.
    + destruct (IH Hs true) as [H1 [H2 H3]]. destruct b.
      * repeat split; auto.
      * cbn [allChars noDoubleSpace startsWithSpace].
        rewrite H1, H2, (H3 eq_refl). repeat split; auto; discriminate.
    + destruct (IH Hs false) as [H1 [H2 _]].
      cbn [allChars noDoubleSpace startsWithSpace].
      rewrite H1, H2, Ec, (kept_plain c Hc Ec). repeat split; auto.
Qed.

Lemma trimStart_shape (s : string) :
  allChars isPlain s = true -> noDoubleSpace s = true ->
  allChars isPlain (Js.trimStart s) = true
  /\ noDoubleSpace (Js.trimStart s) = true
  /\ startsWithSpace (Js.trimStart s) = false.
Proof.
  induction s as [|c s IH]; intros Hp Hd; cbn [Js.trimStart].
  - repeat split.
  - cbn [allChars noDoubleSpace] in Hp, Hd.
    apply andb_true_iff in Hp, Hd. destruct Hp as [Hc Hp], Hd as [_ Hd].
    destruct (Js.isSpace c) eqn:Ec; [exact (IH Hp Hd)|].
    cbn [allChars noDoubleSpace startsWithSpace].
    rewrite Hc, Hp, Hd, Ec. repeat split.
Qed.

Lemma trimEnd_shape (s : string) :
  allChars isPlain s = true -> noDoubleSpace s = true ->
  allChars isPlain (Js.trimEnd s) = true
  /\ noDoubleSpace (Js.trimEnd s) = true
  /\ endsWithSpace (Js.trimEnd s) = false
  /\ (startsWithSpace s = false -> startsWithSpace (Js.trimEnd s) = false)
  /\ (startsWithSpace (Js.trimEnd s) = true -> startsWithSpace s = true).
Proof.
  induction s as [|c s IH]; intros Hp Hd; cbn [Js.trimEnd].
  - repeat split; auto.
  - cbn [allChars noDoubleSpace] in Hp, Hd.
    apply andb_true_iff in Hp, Hd. destruct Hp as [Hc Hp], Hd as [Hcd Hd].
    destruct (IH Hp Hd) as [H1 [H2 [H3 [H4 H5]]]].
    destruct (Js.trimEnd s) as [|d t] eqn:Et.
    + destruct (Js.isSpace c) eqn:Ec.
      * repeat split; auto; cbn [startsWithSpace] in *; congruence.
      * cbn [allChars noDoubleSpace startsWithSpace endsWithSpace].
        rewrite Hc, Ec. repeat split; auto.
    + cbn [allChars noDoubleSpace endsWithSpace] in *.
      cbn [startsWithSpace] in *.
      rewrite Hc, H1, H2. cbn [andb].
      assert (Hnd : negb (Js.isSpace c && Js.isSpace d) = true).
      { destruct (Js.isSpace c) eqn:Ec; [|reflexivity].
        destruct (Js.isSpace d) eqn:Ed; [|reflexivity].
        rewrite (H5 eq_refl) in Hcd. discriminate. }
      rewrite Hnd. repeat split; auto.
Qed.

Lemma normalForm_normalize (s : string) :
  normalForm (normalize s) = true.
Proof.
  unfold normalize, Js.trim.
  fold isKept.
  pose proof (allChars_filterChars isKept (Js.toLowerCase s)) as Hk.
  change (fun c => Js.isLowerAlpha c || Js.isDigit c || Js.isSpace c
                   || Js.isCode 45 c) with isKept.
  destruct (collapse_shape _ Hk false) as [H1 [H2 _]].
  destruct (trimStart_shape _ H1 H2) as [H3 [H4 H5]].
  destruct (trimEnd_shape _ H3 H4) as [H6 [H7 [H8 [H9 _]]]].
  unfold normalForm. now rewrite H6, H7, H8, (H9 H5).
Qed.

Lemma mapChars_plain (s : string) :
  allChars isPlain s = true -> Js.toLowerCase s = s.
Proof.
  unfold Js.toLowerCase.
  induction s as [|c s IH]; cbn [allChars Js.mapChars]; [reflexivity|].
  intros H. apply andb_true_iff in H. destruct H as [Hc Hs].
  now rewrite (plain_not_upper c Hc), (IH Hs).
Qed.

Lemma filterChars_plain (s : string) :
  allChars isPlain s = true -> Js.filterChars isKept s = s.
Proof.
  induction s as [|c s IH]; cbn [allChars Js.filterChars]; [reflexivity|].
  intros H. apply andb_true_iff in H. destruct H as [Hc Hs].
  now rewrite (plain_kept c Hc), (IH Hs).
Qed.

Lemma collapse_plain (s : string) :
  allChars isPlain s = true -> noDoubleSpace s = true ->
  forall b, (b = true -> startsWithSpace s = false) ->
            Js.collapseSpaces b s = s.
Proof.
  induction s as [|c s IH]; intros Hp Hd b Hb;
    cbn [Js.collapseSpaces]; [reflexivity|].
  cbn [allChars noDoubleSpace] in Hp, Hd.
  apply andb_true_iff in Hp, Hd. destruct Hp as [Hc Hp], Hd as [Hcd Hd].
  destruct (Js.isSpace c) eqn:Ec.
  - destruct b.
    + specialize (Hb eq_refl). cbn [startsWithSpace] in Hb. congruence.
    + rewrite (plain_space c Hc Ec). f_equal. apply (IH Hp Hd).
      intros _. cbn [andb] in Hcd. now apply negb_true_iff in Hcd.
  - f_equal. apply (IH Hp Hd). discriminate.
Qed.

Lemma trimStart_plain (s : string) :
  startsWithSpace s = false -> Js.trimStart s = s.
Proof. destruct s as [|c s]; cbn; [reflexivity|]. now intros ->. Qed.

Lemma trimEnd_plain (s : string) :
  endsWithSpace s = false -> Js.trimEnd s = s.
Proof.
  induction s as [|c s IH]; cbn [Js.trimEnd endsWithSpace]; [reflexivity|].
  destruct s as [|d t].
  - cbn [Js.trimEnd]. now intros ->.
  - intros H. now rewrite (IH H).
Qed.

Lemma normalize_fixed (s : string) : normalForm s = true -> normalize s = s.
Proof.
  unfold normalForm. intros H.
  apply andb_true_iff in H. destruct H as [H He].
  apply andb_true_iff in H. destruct H as [H Hs].
  apply andb_true_iff in H. destruct H as [Hp Hd].
  apply negb_true_iff in He, Hs.
  unfold normalize, Js.trim.
  change (fun c => Js.isLowerAlpha c || Js.isDigit c || Js.isSpace c
                   || Js.isCode 45 c) with isKept.
  rewrite (mapChars_plain s Hp), (filterChars_plain s Hp).
  rewrite (collapse_plain s Hp Hd false) by discriminate.
  now rewrite (trimStart_plain s Hs), (trimEnd_plain s He).
Qed.

(** Whatever the input, the normalised name holds only lower-case
    letters, digits, hyphens and spaces, with no space at either end and
    no two spaces in a row; and the strings of that shape are exactly the
    ones that normalisation leaves as they are. *)
Theorem normalize_normal_form (s : string) :
  normalForm (normalize s) = true
  /\ (normalize s = s <-> normalForm s = true).
Proof.
  split; [exact (normalForm_normalize s)|]. split.
  - intros E. rewrite <- E. exact (normalForm_normalize s).
  - exact (normalize_fixed s).
Qed.

(** Normalising twice is normalising once. *)
Theorem normalize_idempotent (s : string) :
  normalize (normalize s) = normalize s.
Proof. apply normalize_fixed, normalForm_normalize. Qed.

(** Two keys of the manual table are written with a character that no
    normalised name can hold ([/] and [.]), so the exact lookup never
    reaches them, whatever the input; they are the only such keys of the
    table. *)
Theorem manual_keys_out_of_reach (name : string) :
  normalize name <> "dark mode/theming"
  /\ normalize name <> "navigator.clipboard"
  /\ map fst (filter (fun e => negb (normalForm (fst e))) manualAlias)
     = ["dark mode/theming"; "navigator.clipboard"].
Proof.
  pose proof (normalForm_normalize name) as H.
  split; [|split].
  - intros E. rewrite E in H. vm_compute in H. discriminate.
  - intros E. rewrite E in H. vm_compute in H. discriminate.
  - vm_compute. reflexivity.
Qed.

(** * The display list and the badges *)

Lemma addUnique_fold (src : list WebFeature) :
  forall acc : list (string * WebFeature),
    NoDup (map fst acc) ->
    (forall e, In e acc -> fst e = name (snd e)) ->
    let out := fold_left addUnique src acc in
    NoDup (map fst out)
    /\ (forall e, In e out -> fst e = name (snd e))
    /\ (forall n, In n (map fst out)
                  <-> In n (map fst acc) \/ In n (map name src))
    /\ (forall e, In e out ->
          In e acc
          \/ (~ In (fst e) (map fst acc)
              /\ exists g, find (fun g => String.eqb (name g) (fst e)) src
                           = Some g
                           /\ snd e = withBaseline g)).
Proof.
  induction src as [|f src IH]; intros acc Hnd Hkey; cbv zeta;
    cbn [fold_left].
  - repeat split; auto. intros [H|[]]; exact H.
  - destruct (existsb (fun e => String.eqb (fst e) (name f)) acc) eqn:E.
    + replace (addUnique acc f) with acc
        by (unfold addUnique; now rewrite E).
      apply existsb_exists in E. destruct E as [e0 [Hin0 He0]].
      apply String.eqb_eq in He0.
      destruct (IH acc Hnd Hkey) as [H1 [H2 [H3 H4]]].
      split; [exact H1|]. split; [exact H2|]. split.
      * intros n. rewrite H3. cbn [map In]. split; [tauto|].
        intros [H|[<-|H]]; auto. left. rewrite <- He0. now apply in_map.
      * intros e He. destruct (H4 e He) as [H|[Hn [g [Hg Hs]]]];
          [now left|right].
        split; [exact Hn|]. exists g. split; [|exact Hs].
        cbn [find]. destruct (String.eqb (name f) (fst e)) eqn:Ef;
          [|exact Hg].
        apply String.eqb_eq in Ef. exfalso. apply Hn. rewrite <- Ef, <- He0.
        now apply in_map.
    + replace (addUnique acc f) with (acc ++ [(name f, withBaseline f)])
        by (unfold addUnique; now rewrite E).
      assert (Hnew : ~ In (name f) (map fst acc)).
      { intros Hin. apply in_map_iff in Hin. destruct Hin as [e [He Hin]].
        assert (existsb (fun e => String.eqb (fst e) (name f)) acc = true)
          by (apply existsb_exists; exists e; split;
              [exact Hin|now apply String.eqb_eq]).
        congruence. }
      assert (Hnd' : NoDup (map fst (acc ++ [(name f, withBaseline f)]))).
      { rewrite map_app. apply NoDup_app; [exact Hnd| |].
        - repeat constructor. intros [].
        - intros a Ha [<-|[]]. exact (Hnew Ha). }
      assert (Hkey' : forall e, In e (acc ++ [(name f, withBaseline f)]) ->
                                fst e = name (snd e)).
      { intros e He. apply in_app_or in He.
        destruct He as [He|[<-|[]]]; [exact (Hkey e He)|reflexivity]. }
      destruct (IH _ Hnd' Hkey') as [H1 [H2 [H3 H4]]].
      split; [exact H1|]. split; [exact H2|]. split.
      * intros n. rewrite H3, map_app, in_app_iff. cbn [map In fst].
        tauto.
      * intros e He. destruct (H4 e He) as [H|[Hn [g [Hg Hs]]]].
        -- apply in_app_or in H. destruct H as [H|[<-|[]]]; [now left|].
           right. split; [exact Hnew|]. exists f. cbn [find fst snd].
           rewrite String.eqb_refl. now split.
        -- right. rewrite map_app, in_app_iff in Hn. cbn [map In fst] in Hn.
           split; [tauto|]. exists g. split; [|exact Hs].
           cbn [find]. destruct (String.eqb (name f) (fst e)) eqn:Ef;
             [|exact Hg].
           apply String.eqb_eq in Ef. tauto.
Qed.

(** The display list has one entry per name: the first mention of that
    name in the source list, with its display baseline; later mentions of
    the same name are left out, and no name is lost. *)
Theorem buildEnrichedList_first_of_each_name
    (implementationPlan : list AnalysisSection) (tabIndex : nat)
    (src : list WebFeature) :
  let out := buildEnrichedList implementationPlan tabIndex (Some src) in
  NoDup (map name out)
  /\ (forall n, In n (map name out) <-> In n (map name src))
  /\ (forall f, In f out ->
        exists g, find (fun g => String.eqb (name g) (name f)) src = Some g
                  /\ f = withBaseline g).
Proof.
  cbv zeta. unfold buildEnrichedList.
  destruct (addUnique_fold src [] (NoDup_nil _) (fun e H => match H with end))
    as [H1 [H2 [H3 H4]]].
  set (out := fold_left addUnique src []) in *.
  assert (Hnames : map name (map snd out) = map fst out).
  { rewrite map_map. apply map_ext_in. intros e He. symmetry.
    exact (H2 e He). }
  rewrite Hnames. split; [exact H1|]. split.
  - intros n. rewrite H3. cbn [map In]. tauto.
  - intros f Hf. apply in_map_iff in Hf. destruct Hf as [e [<- He]].
    destruct (H4 e He) as [[]|[_ [g [Hg Hs]]]].
    exists g. rewrite <- (H2 e He). now split.
Qed.

(** With the shipped tables a display entry stays without baseline in one
    case only: the mention carries none, its name normalises to
    [constructor], and its id, if it has a truthy one, is in neither
    table.  An id unknown to the tables does not make a mention unknown:
    the entry takes the snapshot its name resolves to. *)
Theorem displayBaseline_unknown_iff (f : WebFeature) :
  displayBaseline f = None
  <-> baseline f = None
      /\ normalize (name f) = "constructor"
      /\ (forall i, featureId f = Some i -> truthyId i = true ->
                    getFeatureBaselineStatus i = None).
Proof.
  unfold displayBaseline.
  pose proof (byName_none_iff (name f)) as Hname.
  destruct (truthyOpt (featureId f)) eqn:Tf.
  - destruct (featureId f) as [i|] eqn:Ef; [|discriminate].
    cbn [truthyOpt] in Tf. rewrite Tf.
    destruct (getFeatureBaselineStatus i) as [b|] eqn:Gi.
    + split; [discriminate|]. intros [_ [_ H]].
      specialize (H i eq_refl Tf). rewrite Gi in H. discriminate.
    + destruct (baseline f) as [b|].
      * split; [discriminate|]. intros [H _]. discriminate.
      * rewrite Hname. split.
        -- intros E. repeat split; auto. intros j [= <-] _. exact Gi.
        -- intros [_ [E _]]. exact E.
  - assert (Hid : forall i, featureId f = Some i -> truthyId i = true ->
                            getFeatureBaselineStatus i = None).
    { intros i Ei Ti. rewrite Ei in Tf. cbn [truthyOpt] in Tf. congruence. }
    destruct (resolveFeatureIdByName_cases (name f))
      as [[Ec E]|[Ec [k [v [Hin E]]]]]; rewrite E; cbn [truthyId].
    + change (getFeatureBaselineStatus IdObjectConstructor)
        with (@None FeatureBaselineStatus).
      destruct (baseline f) as [b|].
      * split; [discriminate|]. intros [H _]. discriminate.
      * rewrite Hname. split; [intros _; repeat split; auto|].
        intros _. exact Ec.
    + pose proof aliasIndex_values_truthy as Hall.
      rewrite forallb_forall in Hall. specialize (Hall _ Hin).
      cbv beta iota delta [snd] in Hall. rewrite Hall.
      destruct (getFeatureBaselineStatus (IdString v)) as [b|] eqn:Gv.
      * split; [discriminate|]. intros [_ [Ec' _]]. contradiction.
      * exfalso. exact (aliasIndex_value_known _ _ Hin Gv).
Qed.

Lemma NoDup_section (out : list AnalysisSection) (s' : AnalysisSection) :
  NoDup (map keyName (allFeatures out)) -> In s' out ->
  NoDup (map name (features s')).
Proof.
  intros Hnd Hin. induction out as [|s out IH]; [destruct Hin|].
  cbn [allFeatures flat_map] in Hnd. rewrite map_app in Hnd.
  destruct Hin as [->|Hin].
  - apply NoDup_app_remove_r in Hnd.
    apply (NoDup_map_inv normalizedNameOf). now rewrite map_map.
  - apply NoDup_app_remove_l in Hnd. exact (IH Hnd Hin).
Qed.

Lemma addUnique_fold_fresh (src : list WebFeature) :
  forall acc : list (string * WebFeature),
    NoDup (map fst acc ++ map name src) ->
    fold_left addUnique src acc
    = acc ++ map (fun f => (name f, withBaseline f)) src.
Proof.
  induction src as [|f src IH]; intros acc Hnd; cbn [fold_left map].
  - now rewrite app_nil_r.
  - cbn [map] in Hnd.
    assert (Hnew : existsb (fun e => String.eqb (fst e) (name f)) acc
                   = false).
    { destruct (existsb _ acc) eqn:E; [|reflexivity].
      apply existsb_exists in E. destruct E as [e [He Hn]].
      apply String.eqb_eq in Hn. exfalso.
      apply NoDup_remove_2 in Hnd. apply Hnd, in_or_app. left.
      rewrite <- Hn. now apply in_map. }
    unfold addUnique at 2. rewrite Hnew, IH.
    + now rewrite <- app_assoc.
    + rewrite map_app, <- app_assoc. cbn [map app fst].
      exact Hnd.
Qed.

(** The display list of a section of the returned plan has every mention
    of the section, in order: the pass leaves no two mentions of a plan
    with the same name, so the display keeps them all. *)
Theorem display_keeps_deduplicated (plan : list AnalysisSection)
    (tabIndex : nat) (s' : AnalysisSection)
    (Htab : nth_error (deduplicate plan) tabIndex = Some s') :
  buildEnrichedList (deduplicate plan) tabIndex None
  = map withBaseline (features s')
  /\ buildEnrichedList (deduplicate plan) tabIndex (webFeatures s')
     = map withBaseline (features s').
Proof.
  assert (Hnd : NoDup (map name (features s'))).
  { apply (NoDup_section (deduplicate plan)).
    - exact (proj1 (deduplicate_unique plan)).
    - exact (nth_error_In _ _ Htab). }
  assert (Hrun : map snd (fold_left addUnique (features s') [])
                 = map withBaseline (features s')).
  { rewrite addUnique_fold_fresh by exact Hnd. cbn [app].
    rewrite map_map. reflexivity. }
  assert (Hsome : webFeatures s' = Some (features s')).
  { assert (Hw : webFeatures s' <> None).
    { pose proof (processPlan_frame plan 0 noneUsed) as Hall.
      fold (deduplicate plan) in Hall. revert tabIndex Htab.
      induction Hall as [|s t l l' [_ [_ Hw]] _ IH]; intros [|k] Hk;
        try discriminate.
      - injection Hk as <-. exact Hw.
      - exact (IH k Hk). }
    unfold features. destruct (webFeatures s'); [reflexivity|contradiction]. }
  unfold buildEnrichedList. rewrite Htab, Hsome. split; exact Hrun.
Qed.

Lemma display_keeps_deduplicated_witness :
  let plan := [sectionOf "Layout" [mention "CSS Grid"; mention "css grid"]] in
  let s' := nth 0 (deduplicate plan) (sectionOf "" []) in
  nth_error (deduplicate plan) 0 = Some s'
  /\ buildEnrichedList (deduplicate plan) 0 None
     = map withBaseline (features s')
  /\ buildEnrichedList (deduplicate plan) 0 (webFeatures s')
     = map withBaseline (features s').
Proof.
  cbv zeta.
  set (plan := [sectionOf "Layout" [mention "CSS Grid"; mention "css grid"]]).
  assert (H : nth_error (deduplicate plan) 0
              = Some (nth 0 (deduplicate plan) (sectionOf "" [])))
    by (vm_compute; reflexivity).
  split; [exact H|]. exact (display_keeps_deduplicated plan 0 _ H).
Defined.

(** ** Badges *)

Lemma dataset_baseline_values :
  forallb
    (fun e =>
       match WebFeaturesData.baseline (WebFeaturesData.status (snd e)) with
       | BaselineBool _ => true
       | BaselineString s => String.eqb s "low"
       | BaselineOther => false
       end
       && Js.truthy (WebFeaturesData.title (snd e)))
    WEB_FEATURES_DATA = true.
Proof. vm_compute. reflexivity. Qed.

(** The card of a mention that carries no baseline, with the shipped
    tables.  When a snapshot is found the heading is the title of a
    dataset record, not the name the mention came with, and the badge reads
    [Baseline] exactly when that record's [baseline] is [true]; a record
    marked [false] and one marked ["low"] both read [Not Baseline].  The
    badge reads [Unknown] only when no snapshot is found. *)
Theorem card_of_mention (feature : WebFeature)
    (Hbare : baseline feature = None) :
  match cardBaseline feature with
  | Some b =>
      exists key rec,
        Js.getOwn key WEB_FEATURES_DATA = Some rec
        /\ cardTitle feature = WebFeaturesData.title rec
        /\ match WebFeaturesData.baseline (WebFeaturesData.status rec) with
           | BaselineBool true =>
               badgeLabel (cardStatus feature) = Some "Baseline"
           | _ => badgeLabel (cardStatus feature) = Some "Not Baseline"
           end
  | None =>
      cardTitle feature = name feature
      /\ badgeLabel (cardStatus feature) = Some "Unknown"
  end.
Proof.
  unfold cardTitle, cardStatus.
  destruct (cardBaseline feature) as [b|] eqn:Eb; [|now split].
  assert (Hsnap : exists i, getFeatureBaselineStatus i = Some b).
  { unfold cardBaseline, getFeatureBaselineByName in Eb. rewrite Hbare in Eb.
    destruct (featureId feature) as [i|].
    - destruct (truthyId i); [now exists i|].
      destruct (resolveFeatureIdByName (name feature)) as [j|];
        [|discriminate].
      destruct (truthyId j); [now exists j|discriminate].
    - destruct (resolveFeatureIdByName (name feature)) as [j|];
        [|discriminate].
      destruct (truthyId j); [now exists j|discriminate]. }
  destruct Hsnap as [i Hi].
  destruct (status_from_dataset i b Hi) as [key [rec [_ [Hrec Hb']]]].
  assert (Ht : WebFeaturesService.title b = Some (WebFeaturesData.title rec))
    by (rewrite Hb'; reflexivity).
  assert (Hs : status b
               = statusBaseline
                   (WebFeaturesData.baseline (WebFeaturesData.status rec)))
    by (rewrite Hb'; reflexivity).
  clear Hb'.
  exists key, rec. split; [exact Hrec|].
  pose proof dataset_baseline_values as Hall.
  rewrite forallb_forall in Hall.
  specialize (Hall _ (getOwn_In _ _ _ Hrec)).
  cbv beta iota delta [snd] in Hall.
  apply andb_true_iff in Hall. destruct Hall as [Hb Htitle].
  rewrite Ht, Htitle, Hs. split; [reflexivity|].
  destruct (WebFeaturesData.baseline (WebFeaturesData.status rec))
    as [[|]|s|]; try reflexivity; try discriminate.
  apply String.eqb_eq in Hb. subst s. reflexivity.
Qed.

Lemma card_of_mention_witness :
  baseline (mention "zzz") = None
  /\ match cardBaseline (mention "zzz") with
     | Some b =>
         exists key rec,
           Js.getOwn key WEB_FEATURES_DATA = Some rec
           /\ cardTitle (mention "zzz") = WebFeaturesData.title rec
           /\ match WebFeaturesData.baseline (WebFeaturesData.status rec)
              with
              | BaselineBool true =>
                  badgeLabel (cardStatus (mention "zzz")) = Some "Baseline"
              | _ =>
                  badgeLabel (cardStatus (mention "zzz"))
                  = Some "Not Baseline"
              end
     | None =>
         cardTitle (mention "zzz") = name (mention "zzz")
         /\ badgeLabel (cardStatus (mention "zzz")) = Some "Unknown"
     end.
Proof.
  split; [reflexivity|]. apply (card_of_mention (mention "zzz")).
  reflexivity.
Defined.

(** ** The text handed to [JSON.parse] *)

Lemma length_append (s t : string) :
  String.length (String.append s t) = String.length s + String.length t.
Proof.
  induction s as [|c s IH]; [reflexivity|].
  cbn [String.append String.length]. now rewrite IH.
Qed.

Lemma dropClosingFence_fence (body : string) :
  dropClosingFence (String.append body "```") = body.
Proof.
  induction body as [|c body IH]; [reflexivity|].
  cbn [String.append dropClosingFence].
  assert (E : String.eqb (String c (String.append body "```")) "```" = false).
  { apply String.eqb_neq. intros H.
    apply (f_equal String.length) in H.
    cbn [String.length] in H. rewrite length_append in H.
    cbn [String.length] in H. lia. }
  rewrite E, IH. reflexivity.
Qed.

Lemma dropClosingFence_none (s : string) :
  (forall body, s <> String.append body "```") -> dropClosingFence s = s.
Proof.
  induction s as [|c s IH]; intros H; [reflexivity|].
  cbn [dropClosingFence].
  destruct (String.eqb (String c s) "```") eqn:E.
  - apply String.eqb_eq in E. exfalso. apply (H ""). exact E.
  - rewrite IH; [reflexivity|]. intros body Hb.
    apply (H (String c body)). cbn [String.append]. now rewrite Hb.
Qed.

Lemma trimStart_spaces (ws rest : string) :
  allChars Js.isSpace ws = true -> startsWithSpace rest = false ->
  Js.trimStart (String.append ws rest) = rest.
Proof.
  intros Hws Hrest. induction ws as [|c ws IH]; cbn [String.append].
  - destruct rest as [|d rest]; [reflexivity|].
    cbn [startsWithSpace] in Hrest. cbn [Js.trimStart]. now rewrite Hrest.
  - cbn [allChars] in Hws. apply andb_true_iff in Hws.
    destruct Hws as [Hc Hws]. cbn [Js.trimStart]. rewrite Hc.
    exact (IH Hws).
Qed.

(** A response wrapped in a tagged fence is unwrapped: the opening
    fence with its tag and the white space after it go, and so does the
    closing fence, whatever the text between them, which may itself hold
    fences. *)
Theorem fenced_response_unwrapped (ws body : string)
    (Hws : allChars Js.isSpace ws = true)
    (Hbody : startsWithSpace body = false) :
  cleanedJson
    (String.append "```json" (String.append ws (String.append body "```")))
  = body.
Proof.
  unfold cleanedJson.
  change (afterPrefix "```json"
            (String.append "```json"
               (String.append ws (String.append body "```"))))
    with (Some (String.append ws (String.append body "```"))).
  cbv beta iota. rewrite trimStart_spaces.
  - apply dropClosingFence_fence.
  - exact Hws.
  - destruct body as [|c body]; [reflexivity|exact Hbody].
Qed.

Lemma fenced_response_unwrapped_witness :
  let ws := String "010"%char "" in
  let body := "{}" in
  allChars Js.isSpace ws = true
  /\ startsWithSpace body = false
  /\ cleanedJson
       (String.append "```json"
          (String.append ws (String.append body "```")))
     = body.
Proof.
  cbv zeta. split; [reflexivity|]. split; [reflexivity|].
  apply (fenced_response_unwrapped (String "010"%char "") "{}");
    reflexivity.
Defined.

(** A response is trimmed first.  When the trimmed text has neither the
    opening tag nor a fence at its end, what is handed on is the trimmed
    text: the white space around the response is all that goes, and a
    response without any is handed on as it is. *)
Theorem unfenced_response_unchanged (text : string)
    (Hopen : afterPrefix "```json" (jsonText text) = None)
    (Hclose : forall body, jsonText text <> String.append body "```") :
  cleanedJson (jsonText text) = Js.trim text
  /\ (startsWithSpace text = false -> endsWithSpace text = false ->
      cleanedJson (jsonText text) = text).
Proof.
  assert (E : cleanedJson (jsonText text) = Js.trim text).
  { unfold cleanedJson. rewrite Hopen.
    exact (dropClosingFence_none (jsonText text) Hclose). }
  split; [exact E|]. intros Hs He. rewrite E. unfold Js.trim.
  rewrite (trimStart_plain text Hs). exact (trimEnd_plain text He).
Qed.

Lemma unfenced_response_unchanged_witness :
  let text := String " " (String.append "{}" (String "010" "")) in
  afterPrefix "```json" (jsonText text) = None
  /\ (forall body, jsonText text <> String.append body "```")
  /\ cleanedJson (jsonText text) = Js.trim text
  /\ (startsWithSpace text = false -> endsWithSpace text = false ->
      cleanedJson (jsonText text) = text).
Proof.
  cbv zeta.
  set (text := String " " (String.append "{}" (String "010" ""))).
  assert (Ht : jsonText text = "{}") by reflexivity.
  assert (H : forall body, jsonText text <> String.append body "```").
  { intros body E. rewrite Ht in E. apply (f_equal String.length) in E.
    rewrite length_append in E. cbn [String.length] in E. lia. }
  split; [reflexivity|]. split; [exact H|].
  apply (unfenced_response_unchanged text); [reflexivity|exact H].
Defined.

(** A fence without the tag loses its closing half only: the text handed
    to [JSON.parse] still starts with the three backquotes. *)
Theorem untagged_fence_keeps_opening (body : string)
    (Htag : afterPrefix "json" (String.append body "```") = None) :
  cleanedJson (String.append "```" (String.append body "```"))
  = String.append "```" body.
Proof.
  unfold cleanedJson.
  assert (E : afterPrefix "```json"
                (String.append "```" (String.append body "```")) = None).
  { cbn [String.append afterPrefix Ascii.eqb Bool.eqb]. exact Htag. }
  rewrite E.
  change (String.append "```" (String.append body "```"))
    with (String "`" (String "`" (String "`" (String.append body "```")))).
  replace (String "`" (String "`" (String "`" (String.append body "```"))))
    with (String.append (String.append "```" body) "```") by reflexivity.
  apply dropClosingFence_fence.
Qed.

Lemma untagged_fence_keeps_opening_witness :
  afterPrefix "json" (String.append "{}" "```") = None
  /\ cleanedJson (String.append "```" (String.append "{}" "```"))
     = String.append "```" "{}".
Proof.
  split; [reflexivity|].
  apply (untagged_fence_keeps_opening "{}"). reflexivity.
Defined.

(** ** The mock fallback *)

Lemma sanitized_word (s : string) : allChars Js.isWord (sanitized s) = true.
Proof.
  unfold sanitized. induction s as [|c s IH]; [reflexivity|].
  cbn [Js.mapChars allChars]. rewrite IH, andb_true_r.
  destruct (Js.isWord c) eqn:E; [exact E|reflexivity].
Qed.

Lemma allChars_append (P : ascii -> bool) (s t : string) :
  allChars P (String.append s t) = allChars P s && allChars P t.
Proof.
  induction s as [|c s IH]; [reflexivity|].
  cbn [String.append allChars]. now rewrite IH, andb_assoc.
Qed.

(** The function name of the mock code is made of word characters only
    and is as long as the feature name plus the suffix; a feature name of
    word characters is kept as it is, so the function name starts with a
    digit when the feature name does. *)
Theorem mock_function_name_shape (featureName : string) :
  allChars Js.isWord (mockFunctionName featureName) = true
  /\ String.length (mockFunctionName featureName)
     = String.length featureName + 9
  /\ (allChars Js.isWord featureName = true ->
      mockFunctionName featureName = String.append featureName "_fallback")
  /\ (forall c rest, featureName = String c rest -> Js.isDigit c = true ->
      exists t, mockFunctionName featureName = String c t).
Proof.
  unfold mockFunctionName. split; [|split; [|split]].
  - rewrite allChars_append, sanitized_word. reflexivity.
  - rewrite length_append. f_equal.
    unfold sanitized. induction featureName as [|c s IH]; [reflexivity|].
    cbn [Js.mapChars String.length]. now rewrite IH.
  - intros H. f_equal. unfold sanitized.
    induction featureName as [|c s IH]; [reflexivity|].
    cbn [allChars] in H. apply andb_true_iff in H. destruct H as [Hc Hs].
    cbn [Js.mapChars]. now rewrite Hc, (IH Hs).
  - intros c rest -> Hd. unfold sanitized. cbn [Js.mapChars String.append].
    assert (Hw : Js.isWord c = true).
    { unfold Js.isWord. rewrite Hd. now rewrite !orb_true_r. }
    rewrite Hw. eexists. reflexivity.
Qed.

(** ** Plans without mentions *)

Lemma fillLoop_exhausted (idx todo : nat) (u : Used) :
  poolExhausted u = true ->
  forall i, fillLoop idx i todo u = ([], u).
Proof.
  intros Hex. induction todo as [|todo IH]; intros i; cbn [fillLoop];
    [reflexivity|].
  assert (Hused : poolUsed u
            (pickLoop u (idx + i) 0 (List.length demoPool - 1)) = true).
  { unfold poolExhausted in Hex. rewrite forallb_forall in Hex.
    apply Hex. change (pickLoop u (idx + i) 0 (List.length demoPool - 1))
      with (firstFree u (idx + i)).
    destruct (firstFree_spec u (idx + i)) as [k [_ [-> _]]].
    apply poolAt_In. }
  rewrite Hused. apply IH.
Qed.

Lemma bare_cases (s : AnalysisSection) :
  bare s -> webFeatures s = None \/ webFeatures s = Some [].
Proof.
  unfold bare, features. destruct (webFeatures s) as [l|].
  - intros ->. now right.
  - now left.
Qed.

Lemma processSection_bare_exhausted (idx : nat) (s : AnalysisSection)
    (u : Used) :
  bare s -> poolExhausted u = true ->
  processSection idx s u
  = ({| title := title s; content := content s; webFeatures := Some [] |},
     u).
Proof.
  intros Hs Hex. rewrite processSection_unfold. unfold bare in Hs.
  rewrite Hs. cbn [map filterFeatures List.length].
  rewrite (fillLoop_exhausted idx _ u Hex 0). reflexivity.
Qed.

Lemma processSection_bare_step (k : nat) (s : AnalysisSection) :
  k < 8 -> bare s ->
  processSection k s (poolTaken (2 * k))
  = ({| title := title s; content := content s;
        webFeatures :=
          Some [filler (poolAt (2 * k)); filler (poolAt (2 * k + 1))] |},
     poolTaken (2 * S k)).
Proof.
  intros Hk Hs. rewrite processSection_unfold. unfold bare in Hs.
  rewrite Hs. cbn [map filterFeatures List.length Nat.sub app].
  generalize (title s) as t, (content s) as c. intros t c.
  do 8 (destruct k as [|k]; [vm_compute; reflexivity|]). lia.
Qed.

Lemma poolTaken_exhausted : poolExhausted (poolTaken 16) = true.
Proof. vm_compute. reflexivity. Qed.

Lemma processPlan_bare (plan : list AnalysisSection) :
  Forall bare plan ->
  forall idx k s',
    nth_error (fst (processPlan idx plan (poolTaken (2 * Nat.min idx 8)))) k
    = Some s' ->
    features s'
    = if idx + k <? 8
      then [filler (poolAt (2 * (idx + k)));
            filler (poolAt (2 * (idx + k) + 1))]
      else [].
Proof.
  induction 1 as [|s rest Hs _ IH]; intros idx k s' Hn;
    cbn [processPlan] in Hn.
  - destruct k; discriminate.
  - destruct (Nat.ltb_spec idx 8) as [Hlt|Hge].
    + rewrite (Nat.min_l idx 8) in Hn by lia.
      rewrite (processSection_bare_step idx s Hlt Hs) in Hn.
      specialize (IH (S idx)).
      replace (2 * Nat.min (S idx) 8) with (2 * S idx) in IH
        by (rewrite Nat.min_l; lia).
      destruct (processPlan (S idx) rest (poolTaken (2 * S idx)))
        as [rest' u2].
      cbn [fst] in *. destruct k as [|k]; cbn [nth_error] in Hn.
      * injection Hn as <-. cbn [features webFeatures].
        destruct (Nat.ltb_spec (idx + 0) 8); [|lia].
        f_equal; [|f_equal]; f_equal; f_equal; lia.
      * rewrite (IH k s' Hn).
        replace (S idx + k) with (idx + S k) by lia. reflexivity.
    + rewrite (Nat.min_r idx 8) in Hn by lia.
      change (2 * 8) with 16 in Hn.
      rewrite (processSection_bare_exhausted idx s _ Hs poolTaken_exhausted)
        in Hn.
      specialize (IH (S idx)).
      replace (2 * Nat.min (S idx) 8) with 16 in IH
        by (rewrite Nat.min_r; lia).
      destruct (processPlan (S idx) rest (poolTaken 16)) as [rest' u2].
      cbn [fst] in *. destruct k as [|k]; cbn [nth_error] in Hn.
      * injection Hn as <-. cbn [features webFeatures].
        destruct (Nat.ltb_spec (idx + 0) 8); [lia|reflexivity].
      * rewrite (IH k s' Hn).
        replace (S idx + k) with (idx + S k) by lia. reflexivity.
Qed.

(** A plan for which the model gave no mention at all takes the pool in
    order: section [k] gets the entries [2k] and [2k+1], for the first
    eight sections; the pool is then used up and every later section is
    returned with an empty list. *)
Theorem bare_plan_takes_pool_in_order (plan : list AnalysisSection)
    (k : nat) (s' : AnalysisSection)
    (Hbare : Forall bare plan)
    (Hk : nth_error (deduplicate plan) k = Some s') :
  features s'
  = if k <? 8
    then [filler (poolAt (2 * k)); filler (poolAt (2 * k + 1))]
    else [].
Proof.
  exact (processPlan_bare plan Hbare 0 k s' Hk).
Qed.

Lemma bare_plan_takes_pool_in_order_witness :
  let plan := repeat (sectionOf "Section" []) 9 in
  let s' := nth 8 (deduplicate plan) (sectionOf "" []) in
  Forall bare plan
  /\ nth_error (deduplicate plan) 8 = Some s'
  /\ features s' = [].
Proof.
  cbv zeta.
  set (plan := repeat (sectionOf "Section" []) 9).
  assert (Hb : Forall bare plan).
  { unfold plan, bare. cbn [repeat]. repeat constructor. }
  assert (H : nth_error (deduplicate plan) 8
              = Some (nth 8 (deduplicate plan) (sectionOf "" [])))
    by (vm_compute; reflexivity).
  split; [exact Hb|]. split; [exact H|].
  exact (bare_plan_takes_pool_in_order plan 8 _ Hb H).
Defined.
